(** * SnapBack MCP server: a shallow embedding of the security-critical core

    The development follows the TypeScript sources of the server:

    - [src/utils/security.ts]           -> module [Security] (path validator)
    - [src/services/AnalysisRouter.ts]  -> module [Router]   (circuit breaker,
                                           tier routing, result mapping)
    - [blake3Hash], [generateSnapshotHash] -> module [Hash]  (snapshot digest)
    - [src/utils/sarif.ts]              -> module [Sarif]
    - [src/auth.ts], [src/tools/*.ts] and the tool handler of [src/index.ts]
                                        -> module [Tools]

    Conventions.  A JavaScript string is a Rocq [string]; every [ascii] stands
    for one UTF-16 code unit below 256, so that [length], [substring] and
    [includes] count what the JavaScript methods count.  The few literals of
    the sources with characters beyond that range (the signs in front of the
    user-facing messages) are kept as the UTF-8 bytes of the source file;
    nothing below depends on their length.  A thrown value is an explicit
    [Throw] in the [Exn] type, and every effect (telemetry, the file system
    behind [node:fs], the snapshot manager, the clock) is passed
    explicitly. *)

From Stdlib Require Import Bool List String Ascii ZArith QArith Lia.
From Stdlib Require Import Permutation Sorted.
Import ListNotations.

Local Close Scope Q_scope.
Local Open Scope list_scope.
Local Open Scope string_scope.

(** ** Thrown values *)

(** The classes of [Error] the sources construct or catch by class. *)
Inductive ErrorClass := PlainError | SecurityErrorClass | ZodErrorClass.

(** What a JavaScript [throw] carries: an [Error] instance with its class and
    message, or any other value. *)
Inductive Thrown :=
| ErrorObject (cls : ErrorClass) (message : string)
| NotAnError (shown : string).

Inductive Exn (A : Type) :=
| Ok (value : A)
| Throw (e : Thrown).
Arguments Ok {A} value.
Arguments Throw {A} e.

Definition isThrow {A} (r : Exn A) : bool :=
  match r with Ok _ => false | Throw _ => true end.

(** [error instanceof Error ? error.message : fallback] *)
Definition messageOr (fallback : Thrown -> string) (e : Thrown) : string :=
  match e with
  | ErrorObject _ m => m
  | NotAnError _ => fallback e
  end.

(** ** The JavaScript string methods the sources use *)

Module JS.

Definition NUL : ascii := Ascii.zero.
Definition NULs : string := String NUL EmptyString.

(** [s.startsWith(p)] *)
Definition startsWith (s p : string) : bool := String.prefix p s.

(** [s.includes(x)] *)
Fixpoint includes (s x : string) : bool :=
  String.prefix x s ||
  match s with
  | EmptyString => false
  | String _ rest => includes rest x
  end.

(** [s.substring(0, n)] *)
Definition substring0 (n : nat) (s : string) : string := String.substring 0 n s.

(** White space and line terminators of ECMAScript among the code units
    below 256: TAB, LF, VT, FF, CR, SP, NBSP. *)
Definition isWhiteSpace (c : ascii) : bool :=
  let n := nat_of_ascii c in
  (Nat.leb 9 n && Nat.leb n 13) || Nat.eqb n 32 || Nat.eqb n 160.

Fixpoint trimStart (s : string) : string :=
  match s with
  | EmptyString => EmptyString
  | String c rest => if isWhiteSpace c then trimStart rest else s
  end.

Definition rev_string (s : string) : string :=
  string_of_list_ascii (rev (list_ascii_of_string s)).

(** [s.trim()] *)
Definition trim (s : string) : string :=
  rev_string (trimStart (rev_string (trimStart s))).

(** [c.toLowerCase()] on one code unit below 256: A-Z and the Latin-1
    capitals (U+00C0 .. U+00DE without the multiplication sign). *)
Definition lowerChar (c : ascii) : ascii :=
  let n := nat_of_ascii c in
  if (Nat.leb 65 n && Nat.leb n 90)
     || (Nat.leb 192 n && Nat.leb n 222 && negb (Nat.eqb n 215))
  then ascii_of_nat (n + 32) else c.

(** [s.toLowerCase()] *)
Fixpoint toLowerCase (s : string) : string :=
  match s with
  | EmptyString => EmptyString
  | String c rest => String (lowerChar c) (toLowerCase rest)
  end.

(** [s.split(sep)] for a one-character separator: never the empty list. *)
Fixpoint split (sep : ascii) (s : string) : list string :=
  match s with
  | EmptyString => [EmptyString]
  | String c rest =>
      if Ascii.eqb c sep then EmptyString :: split sep rest
      else match split sep rest with
           | [] => [String c EmptyString]
           | seg :: segs => String c seg :: segs
           end
  end.

(** [parts.join(sep)] *)
Fixpoint join (sep : string) (parts : list string) : string :=
  match parts with
  | [] => EmptyString
  | [p] => p
  | p :: rest => p ++ sep ++ join sep rest
  end.

(** [a || b] on strings: the empty string is falsy. *)
Definition orString (a : option string) (b : string) : string :=
  match a with
  | Some (String c r) => String c r
  | _ => b
  end.

End JS.

(** ** [node:path]

    The validator only talks to [path] through six members.  They are an
    interface here; [Posix] is the instance of a POSIX host, written after
    the documented behaviour of [path.posix]. *)

Record NodePath := {
  path_sep : ascii;
  path_normalize : string -> string;
  path_isAbsolute : string -> bool;
  path_join : string -> string -> string;
  path_dirname : string -> string;
  path_basename : string -> string;
}.

Module Posix.

Definition slash : ascii := "/"%char.

(** One pass over the segments with the stack of kept segments, most recent
    first: empty and [.] segments vanish, [..] removes the segment kept
    last, and survives only in a relative path that has nothing left to
    remove. *)
Fixpoint normalizeSegments (allowAboveRoot : bool) (kept : list string)
         (segs : list string) : list string :=
  match segs with
  | [] => rev kept
  | seg :: rest =>
      if (seg =? "") || (seg =? ".") then normalizeSegments allowAboveRoot kept rest
      else if seg =? ".." then
        match kept with
        | top :: below =>
            if top =? ".."
            then normalizeSegments allowAboveRoot
                   (if allowAboveRoot then ".." :: kept else kept) rest
            else normalizeSegments allowAboveRoot below rest
        | [] =>
            normalizeSegments allowAboveRoot
              (if allowAboveRoot then [".."] else []) rest
        end
      else normalizeSegments allowAboveRoot (seg :: kept) rest
  end.

Definition lastChar (s : string) : option ascii :=
  last (map Some (list_ascii_of_string s)) None.

Definition endsWithSlash (s : string) : bool :=
  match lastChar s with
  | Some c => Ascii.eqb c slash
  | None => false
  end.

Definition isAbsolute (p : string) : bool :=
  match p with
  | String c _ => Ascii.eqb c slash
  | EmptyString => false
  end.

(** [path.posix.normalize] *)
Definition normalize (p : string) : string :=
  match p with
  | EmptyString => "."
  | _ =>
      let abs := isAbsolute p in
      let trailing := endsWithSlash p in
      let res := JS.join "/" (normalizeSegments (negb abs) [] (JS.split slash p)) in
      match res with
      | EmptyString => if abs then "/" else if trailing then "./" else "."
      | _ =>
          let res' := if trailing then res ++ "/" else res in
          if abs then "/" ++ res' else res'
      end
  end.

(** [path.posix.join(a, b)]: empty arguments are skipped. *)
Definition join (a b : string) : string :=
  match a, b with
  | EmptyString, EmptyString => "."
  | EmptyString, _ => normalize b
  | _, EmptyString => normalize a
  | _, _ => normalize (a ++ "/" ++ b)
  end.

Fixpoint dropSlashes (l : list ascii) : list ascii :=
  match l with
  | c :: rest => if Ascii.eqb c slash then dropSlashes rest else l
  | [] => []
  end.

Fixpoint dropToSlash (l : list ascii) : list ascii :=
  match l with
  | c :: rest => if Ascii.eqb c slash then l else dropToSlash rest
  | [] => []
  end.

Fixpoint takeToSlash (l : list ascii) : list ascii :=
  match l with
  | c :: rest => if Ascii.eqb c slash then [] else c :: takeToSlash rest
  | [] => []
  end.

(** [path.posix.dirname]: the scan runs from the end down to index 1, skips
    the trailing slashes, then the last component, and cuts at the slash in
    front of it. *)
Definition dirname (p : string) : string :=
  match p with
  | EmptyString => "."
  | String c0 rest =>
      let hasRoot := Ascii.eqb c0 slash in
      match dropToSlash (dropSlashes (rev (list_ascii_of_string rest))) with
      | [] => if hasRoot then "/" else "."
      | _ :: before =>
          match before, hasRoot with
          | [], true => "//"
          | _, _ => String c0 (string_of_list_ascii (rev before))
          end
      end
  end.

(** [path.posix.basename] without a suffix. *)
Definition basename (p : string) : string :=
  string_of_list_ascii
    (rev (takeToSlash (dropSlashes (rev (list_ascii_of_string p))))).

Definition api : NodePath := {|
  path_sep := slash;
  path_normalize := normalize;
  path_isAbsolute := isAbsolute;
  path_join := join;
  path_dirname := dirname;
  path_basename := basename;
|}.

End Posix.

(** ** [src/utils/security.ts]: the path validator *)

Module Security.

(** [node:fs] as the validator sees it: [realpathSync] returns the resolved
    path or throws a plain [Error] with a message, [existsSync] never
    throws. *)
Inductive Resolved :=
| Real (realPath : string)
| FsError (message : string).

Record FileSystem := {
  realpathSync : string -> Resolved;
  existsSync : string -> bool;
}.

(** The host of the process: the [path] module, the file system,
    [process.platform], and whether [initializeSecurityTelemetry] has set
    the module-level [telemetryClient]. *)
Record Host := {
  path : NodePath;
  fs : FileSystem;
  platform : string;
  telemetryClient : bool;
}.

(** One call of [telemetryClient.track(event, properties)]. *)
Record TrackCall := {
  event : string;
  properties : list (string * string);
}.

Definition Telemetry := list TrackCall.

Definition trackSecurityViolation (h : Host) (violationType : string)
           (details : list (string * string)) : Telemetry :=
  if telemetryClient h
  then [ {| event := "security.violation";
            properties := ("violationType", violationType) :: details |} ]
  else [].

Definition SecurityError (message : string) : Thrown :=
  ErrorObject SecurityErrorClass message.

(** The block every rejection of the validator repeats: build the violation
    details, report them, throw. *)
Definition reject {A} (h : Host) (details : list (string * string))
           (message : string) : Exn A * Telemetry :=
  (Throw (SecurityError message),
   trackSecurityViolation h "path_validation_failed" details).

Definition encodedPatterns : list string :=
  ["%2e%2e%2f"; "%2e%2e/"; "..%2f"; "%252e"; "%252f"; "%2e%2e%5c"; "..%5c"].

(** [/^[a-zA-Z]:/.test(s)] *)
Definition isLetter (c : ascii) : bool :=
  let n := nat_of_ascii c in
  (Nat.leb 65 n && Nat.leb n 90) || (Nat.leb 97 n && Nat.leb n 122).

Definition hasDriveLetter (s : string) : bool :=
  match s with
  | String c (String colon _) => isLetter c && Ascii.eqb colon ":"%char
  | _ => false
  end.

Definition sepString (h : Host) : string := String (path_sep (path h)) EmptyString.

(** Lines 173-196: the workspace boundary check on the resolved path. *)
Definition checkBoundary (h : Host) (workspaceRoot realPath : string)
  : Exn string * Telemetry :=
  match realpathSync (fs h) workspaceRoot with
  | FsError m => (Throw (ErrorObject PlainError m), [])
  | Real workspaceRealPath =>
      if negb (JS.startsWith realPath (workspaceRealPath ++ sepString h))
         && negb (realPath =? workspaceRealPath)
      then reject h [("filePath", JS.substring0 100 realPath);
                     ("workspacePath", JS.substring0 100 workspaceRealPath);
                     ("reason", "outside_workspace")]
             ("Path outside workspace: " ++ realPath ++ " not in " ++ workspaceRealPath)
      else if JS.includes realPath JS.NULs
      then reject h [("filePath", JS.substring0 100 realPath);
                     ("reason", "null_bytes_resolved")]
             "Path contains null bytes"
      else (Ok realPath, [])
  end.

(** Lines 140-171: resolve symlinks, through the parent directory when the
    file itself does not exist. *)
Definition resolveReal (h : Host) (workspaceRoot absolutePath : string)
  : Exn string * Telemetry :=
  match realpathSync (fs h) absolutePath with
  | Real realPath => checkBoundary h workspaceRoot realPath
  | FsError _ =>
      let parentDir := path_dirname (path h) absolutePath in
      if negb (existsSync (fs h) parentDir)
      then reject h [("filePath", JS.substring0 100 absolutePath);
                     ("parentDir", JS.substring0 100 parentDir);
                     ("reason", "parent_not_exist")]
             ("Parent directory does not exist: " ++ parentDir)
      else
        match realpathSync (fs h) parentDir with
        | Real realParent =>
            let fileName := path_basename (path h) absolutePath in
            checkBoundary h workspaceRoot (path_join (path h) realParent fileName)
        | FsError _ =>
            reject h [("filePath", JS.substring0 100 absolutePath);
                      ("parentDir", JS.substring0 100 parentDir);
                      ("reason", "parent_resolution_failed")]
              ("Cannot resolve parent directory: " ++ parentDir)
        end
  end.

(** The body of the outer [try] of [validateFilePath] (lines 66-196). *)
Definition validateBody (h : Host) (filePath workspaceRoot : string)
  : Exn string * Telemetry :=
  if JS.includes filePath JS.NULs
  then reject h [("filePath", JS.substring0 100 filePath); ("reason", "null_bytes")]
         "Null bytes in path not allowed"
  else if (filePath =? "") || (Nat.eqb (String.length (JS.trim filePath)) 0)
  then reject h [("filePath", JS.substring0 100 filePath); ("reason", "empty_path")]
         "File path cannot be empty"
  else
    let normalized := path_normalize (path h) filePath in
    let absolutePath :=
      if path_isAbsolute (path h) normalized then normalized
      else path_join (path h) workspaceRoot normalized in
    let lowerPath := JS.toLowerCase normalized in
    match find (fun pattern => JS.includes lowerPath pattern) encodedPatterns with
    | Some pattern =>
        reject h [("filePath", JS.substring0 100 normalized);
                  ("reason", "encoded_traversal");
                  ("pattern", pattern)]
          "Encoded path traversal not allowed"
    | None =>
        let segments := JS.split (path_sep (path h)) normalized in
        if existsb (fun seg => seg =? "..") segments
        then reject h [("filePath", JS.substring0 100 normalized);
                       ("reason", "path_traversal")]
               "Path traversal not allowed"
        else if (platform h =? "win32") && JS.startsWith normalized "\\"
        then reject h [("filePath", JS.substring0 100 normalized); ("reason", "unc_path")]
               "UNC paths not allowed"
        else if (platform h =? "win32") && hasDriveLetter normalized
        then reject h [("filePath", JS.substring0 100 normalized);
                       ("reason", "drive_letter")]
               "Windows drive letters not allowed"
        else resolveReal h workspaceRoot absolutePath
    end.

(** [validateFilePath]: the body, and the [catch] that rethrows a
    [SecurityError] as it is and wraps every other thrown value. *)
Definition validateFilePath (h : Host) (filePath workspaceRoot : string)
  : Exn string * Telemetry :=
  match validateBody h filePath workspaceRoot with
  | (Ok realPath, t) => (Ok realPath, t)
  | (Throw (ErrorObject SecurityErrorClass m), t) => (Throw (SecurityError m), t)
  | (Throw e, t) =>
      let shown := match e with ErrorObject _ m => m | NotAnError v => v end in
      let thrownMessage := match e with ErrorObject _ m => m | NotAnError _ => "undefined" end in
      (Throw (SecurityError ("Path validation failed: " ++ thrownMessage)),
       (t ++ trackSecurityViolation h "path_validation_failed"
               [("filePath", JS.substring0 100 filePath);
                ("reason", "validation_exception");
                ("error", shown)])%list)
  end.

(** [realPath] is the resolved root or lies under it: the condition on
    which [checkBoundary] lets a path through. *)
Definition inside (h : Host) (workspaceRealPath realPath : string) : bool :=
  JS.startsWith realPath (workspaceRealPath ++ sepString h)
  || (realPath =? workspaceRealPath).

(** The reason tags whose error message is a constant. *)
Definition fixedMessages : list (string * string) :=
  [("null_bytes", "Null bytes in path not allowed");
   ("empty_path", "File path cannot be empty");
   ("encoded_traversal", "Encoded path traversal not allowed");
   ("path_traversal", "Path traversal not allowed");
   ("unc_path", "UNC paths not allowed");
   ("drive_letter", "Windows drive letters not allowed");
   ("null_bytes_resolved", "Path contains null bytes")].

(** The reason tags whose error message is built from a path or from the
    message of the file-system error, with the text in front of it. *)
Definition pathMessages : list (string * string) :=
  [("parent_not_exist", "Parent directory does not exist: ");
   ("parent_resolution_failed", "Cannot resolve parent directory: ");
   ("outside_workspace", "Path outside workspace: ");
   ("validation_exception", "Path validation failed: ")].

(** What the telemetry sink has received for one rejection with reason tag
    [reason]: nothing when no client is set, else the one event
    [security.violation] of type [path_validation_failed] whose path sample
    has at most 100 characters. *)
Definition reported (h : Host) (t : Telemetry) (reason : string) : Prop :=
  if telemetryClient h
  then exists sample rest,
      t = [ {| event := "security.violation";
               properties := ("violationType", "path_validation_failed")
                               :: ("filePath", sample) :: rest |} ]
      /\ String.length sample <= 100
      /\ In ("reason", reason) rest
  else t = [].

(** The message of a rejection with reason tag [reason]: one of the
    constants, or a fixed text followed by a path (or by the message of the
    file-system error). *)
Definition messageShape (reason message : string) : Prop :=
  In (reason, message) fixedMessages
  \/ exists front detail, In (reason, front) pathMessages /\ message = front ++ detail.

(** The checks that look at the text of the path only: NUL, empty or blank,
    an encoded traversal token, a [..] segment after normalization. *)
Definition textualReject (h : Host) (filePath : string) : bool :=
  let normalized := path_normalize (path h) filePath in
  JS.includes filePath JS.NULs
  || ((filePath =? "") || Nat.eqb (String.length (JS.trim filePath)) 0)
  || existsb (fun pattern => JS.includes (JS.toLowerCase normalized) pattern) encodedPatterns
  || existsb (fun seg => seg =? "..") (JS.split (path_sep (path h)) normalized).

(** What the body of the [try] can end in: a path and no telemetry, a
    reported [SecurityError], or the plain error of [realpathSync] on the
    workspace root, not yet reported. *)
Definition bodyOutcome (h : Host) (workspaceRoot : string)
           (res : Exn string * Telemetry) : Prop :=
  match res with
  | (Ok realPath, t) =>
      t = [] /\ JS.includes realPath JS.NULs = false
      /\ exists ws, realpathSync (fs h) workspaceRoot = Real ws
                    /\ inside h ws realPath = true
  | (Throw (ErrorObject SecurityErrorClass m), t) =>
      exists reason, reported h t reason /\ messageShape reason m
                     /\ reason <> "validation_exception"
  | (Throw (ErrorObject PlainError m), t) => t = []
  | (Throw _, _) => False
  end.

(** A POSIX host over a given file system. *)
Definition posixHost (f : FileSystem) (telemetry : bool) : Host :=
  {| path := Posix.api; fs := f; platform := "linux"; telemetryClient := telemetry |}.

(** A small disk for the examples: the workspace [/ws] with the directory
    [/ws/src], the file [/ws/b] and the symlink [/ws/link -> /etc]; outside
    of it [/etc] and [/etc/passwd].  Everything else does not exist. *)
Definition diskEntries : list (string * string) :=
  [("/", "/"); ("/ws", "/ws"); ("/ws/src", "/ws/src"); ("/ws/b", "/ws/b");
   ("/ws/link", "/etc"); ("/etc", "/etc"); ("/etc/passwd", "/etc/passwd")].

Fixpoint lookupDisk (entries : list (string * string)) (p : string) : option string :=
  match entries with
  | [] => None
  | (k, v) :: rest => if k =? p then Some v else lookupDisk rest p
  end.

Definition disk : FileSystem := {|
  realpathSync := fun p =>
    match lookupDisk diskEntries p with
    | Some real => Real real
    | None => FsError ("ENOENT: no such file or directory, lstat '" ++ p ++ "'")
    end;
  existsSync := fun p =>
    match lookupDisk diskEntries p with Some _ => true | None => false end;
|}.

(** [initializeSecurityTelemetry]: the host with the client set. *)
Definition initializeSecurityTelemetry (h : Host) : Host :=
  {| path := path h; fs := fs h; platform := platform h; telemetryClient := true |}.

(** The event that [trackSecurityViolation] sends for a rejection of the
    validator. *)
Definition violation (details : list (string * string)) : TrackCall :=
  {| event := "security.violation";
     properties := ("violationType", "path_validation_failed") :: details |}.

(** The [absolutePath] of line 90. *)
Definition absolutePath (h : Host) (filePath workspaceRoot : string) : string :=
  let normalized := path_normalize (path h) filePath in
  if path_isAbsolute (path h) normalized then normalized
  else path_join (path h) workspaceRoot normalized.

(** [!filePath || filePath.trim().length === 0] *)
Definition blank (filePath : string) : bool :=
  (filePath =? "") || Nat.eqb (String.length (JS.trim filePath)) 0.

(** The first pattern of [encodedPatterns] that the lower-cased normalized
    path includes (line 99). *)
Definition encodedPattern (h : Host) (filePath : string) : option string :=
  find (fun pattern =>
          JS.includes (JS.toLowerCase (path_normalize (path h) filePath)) pattern)
       encodedPatterns.

(** [segments.some((seg) => seg === "..")] on the normalized path. *)
Definition hasDotDotSegment (h : Host) (filePath : string) : bool :=
  existsb (fun seg => seg =? "..")
          (JS.split (path_sep (path h)) (path_normalize (path h) filePath)).

(** The two checks of lines 118-138, made on [win32] only. *)
Definition windowsReject (h : Host) (filePath : string) : bool :=
  let normalized := path_normalize (path h) filePath in
  (platform h =? "win32")
  && (JS.startsWith normalized "\\" || hasDriveLetter normalized).

(** The [realPath] of lines 141-171 when the validator gets one: what
    [realpathSync] makes of the candidate, or, when that throws, the real
    path of the parent directory joined with the base name. *)
Definition resolvedPath (h : Host) (absolutePath : string) : option string :=
  match realpathSync (fs h) absolutePath with
  | Real realPath => Some realPath
  | FsError _ =>
      let parentDir := path_dirname (path h) absolutePath in
      if existsSync (fs h) parentDir
      then match realpathSync (fs h) parentDir with
           | Real realParent =>
               Some (path_join (path h) realParent (path_basename (path h) absolutePath))
           | FsError _ => None
           end
      else None
  end.

(** A name of one segment on a POSIX host: no separator in it, and neither
    [.] nor [..]. *)
Definition isFileName (name : string) : bool :=
  negb (JS.includes name "/") && negb (name =? ".") && negb (name =? "..").

(** The example disk with one more entry in the workspace, the symbolic link
    [/ws/evil -> /etc/cron.d/job] whose target does not exist: [realpathSync]
    throws on the link as it does on a missing file, and [existsSync] is
    false for it. *)
Definition danglingLinks : list (string * string) :=
  [("/ws/evil", "/etc/cron.d/job")].

Definition diskWithDanglingLink : FileSystem := {|
  realpathSync := fun p =>
    match lookupDisk danglingLinks p with
    | Some target =>
        FsError ("ENOENT: no such file or directory, stat '" ++ p ++ "'")
    | None => realpathSync disk p
    end;
  existsSync := fun p =>
    match lookupDisk danglingLinks p with
    | Some _ => false
    | None => existsSync disk p
    end;
|}.

End Security.

(** ** [src/services/AnalysisRouter.ts] *)

(** JavaScript numbers, as far as the router compares them: the finite values
    as rationals (every double is one; [+0] and [-0] are both [Fin 0]), the
    two infinities and NaN.  [Math.min], [Math.max] and the comparisons are
    exact on doubles, so nothing is rounded in this module. *)
Inductive JsNumber := NaN | NegInfinity | PosInfinity | Fin (q : Q).

(** A property read off an [any]-typed object, where the router expects a
    number: absent, [null], or a number. *)
Inductive JsNumeric := Undefined | Null | Num (n : JsNumber).

Module JsMath.

(** [a <= b] on numbers other than NaN. *)
Definition leb (a b : JsNumber) : bool :=
  match a, b with
  | NaN, _ | _, NaN => false
  | NegInfinity, _ => true
  | _, PosInfinity => true
  | PosInfinity, _ => false
  | _, NegInfinity => false
  | Fin x, Fin y => Qle_bool x y
  end.

(** [Math.max(a, b)] *)
Definition max (a b : JsNumber) : JsNumber :=
  match a, b with
  | NaN, _ | _, NaN => NaN
  | _, _ => if leb a b then b else a
  end.

(** [Math.min(a, b)] *)
Definition min (a b : JsNumber) : JsNumber :=
  match a, b with
  | NaN, _ | _, NaN => NaN
  | _, _ => if leb a b then a else b
  end.

(** [v || d]: [undefined], [null], [0], [-0] and NaN are falsy. *)
Definition orNumber (v : JsNumeric) (d : JsNumber) : JsNumber :=
  match v with
  | Undefined | Null => d
  | Num NaN => d
  | Num (Fin q) => if Qeq_bool q 0%Q then d else Fin q
  | Num n => n
  end.

(** A number of the interval from 0 to 1. *)
Definition unitInterval (n : JsNumber) : Prop :=
  match n with
  | Fin q => (0 <= q /\ q <= 1)%Q
  | _ => False
  end.

Definition zero : JsNumber := Fin 0%Q.
Definition one : JsNumber := Fin 1%Q.
Definition half : JsNumber := Fin (1 # 2)%Q.

End JsMath.

Module Router.

Inductive RiskLevel := RiskNone | RiskLow | RiskMedium | RiskHigh.
Inductive Severity := SevLow | SevMedium | SevHigh.
Inductive IssueType := Secret | Mock | Dependency.

Record Issue := {
  type : IssueType;
  severity : Severity;
  message : string;
  pattern : string;
  line : option Z;
}.

Record AnalysisResult := {
  riskLevel : RiskLevel;
  confidence : JsNumber;
  issues : list Issue;
  executionTime : JsNumber;
  upgradePrompt : bool;
  recommendations : list string;
}.

Inductive Tier := Free | Pro.

Record UserContext := {
  userId : option string;
  email : option string;
  tier : Tier;
  orgId : option string;
}.

(** *** The circuit breaker *)

Inductive BreakerState := CLOSED | OPEN | HALF_OPEN.

Record CircuitBreaker := {
  state : BreakerState;
  failureCount : Z;
  successCount : Z;
  nextAttemptAt : Z;
  failureThreshold : Z;
  successThreshold : Z;
  timeout : Z;
}.

(** [new CircuitBreaker()] at time [now]. *)
Definition newCircuitBreaker (now : Z) : CircuitBreaker := {|
  state := CLOSED;
  failureCount := 0%Z;
  successCount := 0%Z;
  nextAttemptAt := now;
  failureThreshold := 3%Z;
  successThreshold := 2%Z;
  timeout := 30000%Z;
|}.

Definition setState (s : BreakerState) (cb : CircuitBreaker) : CircuitBreaker :=
  {| state := s; failureCount := failureCount cb; successCount := successCount cb;
     nextAttemptAt := nextAttemptAt cb; failureThreshold := failureThreshold cb;
     successThreshold := successThreshold cb; timeout := timeout cb |}.

Definition setFailureCount (n : Z) (cb : CircuitBreaker) : CircuitBreaker :=
  {| state := state cb; failureCount := n; successCount := successCount cb;
     nextAttemptAt := nextAttemptAt cb; failureThreshold := failureThreshold cb;
     successThreshold := successThreshold cb; timeout := timeout cb |}.

Definition setSuccessCount (n : Z) (cb : CircuitBreaker) : CircuitBreaker :=
  {| state := state cb; failureCount := failureCount cb; successCount := n;
     nextAttemptAt := nextAttemptAt cb; failureThreshold := failureThreshold cb;
     successThreshold := successThreshold cb; timeout := timeout cb |}.

Definition setNextAttemptAt (t : Z) (cb : CircuitBreaker) : CircuitBreaker :=
  {| state := state cb; failureCount := failureCount cb; successCount := successCount cb;
     nextAttemptAt := t; failureThreshold := failureThreshold cb;
     successThreshold := successThreshold cb; timeout := timeout cb |}.

Definition isHalfOpen (s : BreakerState) : bool :=
  match s with HALF_OPEN => true | _ => false end.

Definition isOpen (s : BreakerState) : bool :=
  match s with OPEN => true | _ => false end.

(** What one call of [execute] did: whether [fn] was invoked, what the
    caller gets, and the breaker afterwards. *)
Record Executed (T : Type) := {
  invoked : bool;
  outcome : Exn T;
  breaker : CircuitBreaker;
}.
Arguments invoked {T} _.
Arguments outcome {T} _.
Arguments breaker {T} _.

(** The [try] block of [execute] once the call is admitted: [fn] has
    resolved or thrown, and [Date.now()] reads [nowCatch] in the handler. *)
Definition settle {T} (cb : CircuitBreaker) (fn : Exn T) (nowCatch : Z) : Executed T :=
  match fn with
  | Ok result =>
      let cb1 :=
        if isHalfOpen (state cb) then
          let cb' := setSuccessCount (successCount cb + 1)%Z cb in
          if (successThreshold cb' <=? successCount cb')%Z
          then setSuccessCount 0%Z (setFailureCount 0%Z (setState CLOSED cb'))
          else cb'
        else cb in
      {| invoked := true; outcome := Ok result; breaker := cb1 |}
  | Throw error =>
      let cb' := setFailureCount (failureCount cb + 1)%Z cb in
      let cb1 :=
        if (failureThreshold cb' <=? failureCount cb')%Z
        then setNextAttemptAt (nowCatch + timeout cb')%Z (setState OPEN cb')
        else cb' in
      {| invoked := true; outcome := Throw error; breaker := cb1 |}
  end.

(** [CircuitBreaker.execute(fn)]: [now] is what [Date.now()] reads on
    entry, [fn] what the wrapped call does if it is invoked. *)
Definition execute {T} (cb : CircuitBreaker) (now : Z) (fn : Exn T) (nowCatch : Z)
  : Executed T :=
  if isOpen (state cb) then
    if (now <? nextAttemptAt cb)%Z
    then {| invoked := false;
            outcome := Throw (ErrorObject PlainError "Circuit breaker is OPEN");
            breaker := cb |}
    else settle (setState HALF_OPEN cb) fn nowCatch
  else settle cb fn nowCatch.

(** A run of calls on one breaker: each call with its entry time, what the
    wrapped function does, and the time read in the failure handler. *)
Record Call (T : Type) := {
  at_entry : Z;
  does : Exn T;
  at_catch : Z;
}.
Arguments at_entry {T} _.
Arguments does {T} _.
Arguments at_catch {T} _.

Fixpoint run {T} (cb : CircuitBreaker) (calls : list (Call T)) : CircuitBreaker :=
  match calls with
  | [] => cb
  | c :: rest => run (breaker (execute cb (at_entry c) (does c) (at_catch c))) rest
  end.

Definition failures {T} (calls : list (Call T)) : Z :=
  Z.of_nat (List.length (filter (fun c => isThrow (does c)) calls)).

(** *** Result mapping *)

(** The upstream response, read as [any]. *)
Record ApiResult := {
  api_riskLevel : option string;
  api_confidence : JsNumeric;
  api_issues : option (list Issue);
  api_analysisTimeMs : JsNumeric;
  api_recommendations : option (list string);
}.

(** [mapRiskLevel]: the [switch] on [apiLevel?.toLowerCase()]. *)
Definition mapRiskLevel (apiLevel : option string) : RiskLevel :=
  match apiLevel with
  | None => RiskNone
  | Some level =>
      let l := JS.toLowerCase level in
      if (l =? "high") || (l =? "critical") then RiskHigh
      else if l =? "medium" then RiskMedium
      else if l =? "low" then RiskLow
      else RiskNone
  end.

Definition orList {A} (l : option (list A)) : list A :=
  match l with Some x => x | None => [] end.

Definition mapAPIResult (apiResult : ApiResult) : AnalysisResult :=
  let riskLevel := mapRiskLevel (api_riskLevel apiResult) in
  let confidence :=
    JsMath.min JsMath.one
      (JsMath.max JsMath.zero (JsMath.orNumber (api_confidence apiResult) JsMath.half)) in
  {| riskLevel := riskLevel;
     confidence := confidence;
     issues := orList (api_issues apiResult);
     executionTime := JsMath.orNumber (api_analysisTimeMs apiResult) JsMath.zero;
     upgradePrompt := false;
     recommendations := orList (api_recommendations apiResult) |}.

(** The light bulb emoji as its two UTF-16 code units cannot be written
    with code units below 256; the prefix is kept as the UTF-8 bytes of the
    source file. *)
Definition addUpgradePrompt (result : AnalysisResult) (message : string) : AnalysisResult :=
  {| riskLevel := riskLevel result;
     confidence := confidence result;
     issues := issues result;
     executionTime := executionTime result;
     upgradePrompt := true;
     recommendations :=
       (recommendations result
          ++ [("💡 " ++ message ++ " for advanced analysis capabilities.")%string])%list |}.

(** *** The router *)

Record AnalysisContext := {
  projectType : string;
  language : string;
}.

Record AnalysisRequest := {
  code : string;
  filePath : string;
  context : AnalysisContext;
}.

(** The two analyzers behind the router: the local Guardian Lite and the
    upstream client's [analyzeFast].  Either may throw. *)
Record Services := {
  guardian_analyze : string -> Exn AnalysisResult;
  analyzeFast : AnalysisRequest -> Exn ApiResult;
}.

(** The fields of [AnalysisRouter]: [apiClient] is kept as the fact that the
    constructor got one, the calls on it go to [analyzeFast]. *)
Record AnalysisRouter := {
  apiClient : bool;
  circuitBreaker : option CircuitBreaker;
  featureFlags : string -> option bool;
}.

(** [new AnalysisRouter(apiClient?)] at time [now]. *)
Definition newAnalysisRouter (withClient : bool) (now : Z) : AnalysisRouter := {|
  apiClient := withClient;
  circuitBreaker := if withClient then Some (newCircuitBreaker now) else None;
  featureFlags := fun _ => None;
|}.

Definition setFeatureFlag (name : string) (enabled : bool) (r : AnalysisRouter)
  : AnalysisRouter :=
  {| apiClient := apiClient r;
     circuitBreaker := circuitBreaker r;
     featureFlags := fun k => if k =? name then Some enabled else featureFlags r k |}.

Definition withBreaker (cb : CircuitBreaker) (r : AnalysisRouter) : AnalysisRouter :=
  {| apiClient := apiClient r;
     circuitBreaker := Some cb;
     featureFlags := featureFlags r |}.

(** Which analyzer was invoked, in order. *)
Inductive Invocation :=
| LocalAnalyzer (code : string)
| Upstream (request : AnalysisRequest).

Definition isUpstream (i : Invocation) : bool :=
  match i with Upstream _ => true | LocalAnalyzer _ => false end.

(** What a call on the router returns: the settled promise, the router
    afterwards and the analyzers it invoked. *)
Record Routed := {
  settled : Exn AnalysisResult;
  router : AnalysisRouter;
  invocations : list Invocation;
}.

Definition local (s : Services) (r : AnalysisRouter) (before : list Invocation)
           (code : string) : Routed :=
  {| settled := guardian_analyze s code;
     router := r;
     invocations := (before ++ [LocalAnalyzer code])%list |}.

Definition analyzeWithAPI (s : Services) (r : AnalysisRouter) (code : string)
           (now nowCatch : Z) : Routed :=
  match apiClient r, circuitBreaker r with
  | true, Some cb =>
      let request :=
        {| code := code; filePath := "analysis.ts";
           context := {| projectType := "mcp-analysis"; language := "typescript" |} |} in
      let fn :=
        match analyzeFast s request with
        | Ok apiResult => Ok (mapAPIResult apiResult)
        | Throw e => Throw e
        end in
      let done := execute cb now fn nowCatch in
      let called := if invoked done then [Upstream request] else [] in
      match outcome done with
      | Ok result =>
          {| settled := Ok result; router := withBreaker (breaker done) r;
             invocations := called |}
      | Throw _ => local s (withBreaker (breaker done) r) called code
      end
  | _, _ => local s r [] code
  end.

Definition analyze (s : Services) (r : AnalysisRouter) (code : string)
           (userContext : option UserContext) (now nowCatch : Z) : Routed :=
  let tier := match userContext with Some c => tier c | None => Free end in
  match tier with
  | Free =>
      {| settled :=
           match guardian_analyze s code with
           | Ok result =>
               Ok (addUpgradePrompt result
                     "Free tier users can upgrade to Pro for advanced ML-based analysis")
           | Throw e => Throw e
           end;
         router := r;
         invocations := [LocalAnalyzer code] |}
  | Pro =>
      match apiClient r, circuitBreaker r with
      | true, Some _ =>
          match featureFlags r "ml-detection" with
          | Some false => local s r [] code
          | _ =>
              let viaApi := analyzeWithAPI s r code now nowCatch in
              match settled viaApi with
              | Ok result => viaApi
              | Throw _ => local s (router viaApi) (invocations viaApi) code
              end
          end
      | _, _ => local s r [] code
      end
  end.

(** *** Values for the examples *)

(** A call that succeeds and one that fails at time [t]. *)
Definition succeeds (t : Z) : Call unit := {| at_entry := t; does := Ok tt; at_catch := t |}.
Definition fails (t : Z) : Call unit :=
  {| at_entry := t; does := Throw (ErrorObject PlainError "timeout"); at_catch := t |}.

(** The recommendation [analyze] appends for the free tier. *)
Definition upgradeAdvice : string :=
  "💡 Free tier users can upgrade to Pro for advanced ML-based analysis for advanced analysis capabilities.".

(** [StubGuardianLite] of the source, and an upstream that always answers. *)
Definition stubServices : Services := {|
  guardian_analyze := fun _ =>
    Ok {| riskLevel := RiskLow; confidence := JsMath.half; issues := [];
          executionTime := JsMath.zero; upgradePrompt := false; recommendations := [] |};
  analyzeFast := fun _ =>
    Ok {| api_riskLevel := Some "safe"; api_confidence := Undefined;
          api_issues := Some []; api_analysisTimeMs := Num (Fin 0);
          api_recommendations := None |};
|}.

End Router.

(** ** [node:crypto]: SHA-256

    [createHash("sha256").update(content).digest("hex")] (FIPS 180-4), on the
    UTF-8 bytes of the string; 32-bit words are [Z] with the wrap-around
    written out. *)

Module Sha256.

Local Open Scope Z_scope.

Definition mask32 : Z := 0xFFFFFFFF.
Definition add32 (a b : Z) : Z := Z.land (a + b) mask32.
Definition rotr (n x : Z) : Z :=
  Z.lor (Z.shiftr x n) (Z.land (Z.shiftl x (32 - n)) mask32).
Definition not32 (x : Z) : Z := Z.lxor x mask32.

Definition Ch (x y z : Z) : Z := Z.lxor (Z.land x y) (Z.land (not32 x) z).
Definition Maj (x y z : Z) : Z :=
  Z.lxor (Z.lxor (Z.land x y) (Z.land x z)) (Z.land y z).
Definition bigSigma0 (x : Z) : Z := Z.lxor (Z.lxor (rotr 2 x) (rotr 13 x)) (rotr 22 x).
Definition bigSigma1 (x : Z) : Z := Z.lxor (Z.lxor (rotr 6 x) (rotr 11 x)) (rotr 25 x).
Definition sigma0 (x : Z) : Z := Z.lxor (Z.lxor (rotr 7 x) (rotr 18 x)) (Z.shiftr x 3).
Definition sigma1 (x : Z) : Z := Z.lxor (Z.lxor (rotr 17 x) (rotr 19 x)) (Z.shiftr x 10).

(** The constants of the standard are not tabulated but computed as the
    standard defines them, from the first 64 primes: the round constants are
    the first 32 bits of the fractional parts of their cube roots, the
    initial hash values those of the square roots of the first eight. *)
Definition isPrime (n : nat) : bool :=
  forallb (fun d => negb (Nat.eqb (Nat.modulo n d) 0)) (seq 2 (n - 2)).

Definition primes : list Z := map Z.of_nat (filter isPrime (seq 2 310)).

Fixpoint cubeRootFrom (bit : nat) (n acc : Z) : Z :=
  let candidate := acc + 2 ^ Z.of_nat bit in
  let acc' := if candidate * candidate * candidate <=? n then candidate else acc in
  match bit with
  | O => acc'
  | S lower => cubeRootFrom lower n acc'
  end.

Definition cubeRoot (n : Z) : Z := cubeRootFrom 40 n 0.

Definition K : list Z :=
  map (fun p => Z.land (cubeRoot (p * 2 ^ 96)) mask32) primes.

Definition H0 : list Z :=
  map (fun p => Z.land (Z.sqrt (p * 2 ^ 64)) mask32) (firstn 8 primes).

(** The UTF-8 bytes of a string of code units below 256. *)
Fixpoint utf8 (s : string) : list Z :=
  match s with
  | EmptyString => []
  | String c rest =>
      let n := Z.of_nat (nat_of_ascii c) in
      if n <? 128 then n :: utf8 rest
      else Z.lor 0xC0 (Z.shiftr n 6) :: Z.lor 0x80 (Z.land n 0x3F) :: utf8 rest
  end.

Definition bigEndian (width : nat) (x : Z) : list Z :=
  map (fun i => Z.land (Z.shiftr x (8 * Z.of_nat i)) 0xFF) (rev (seq 0 width)).

(** The message followed by the bit 1, zeros up to 56 modulo 64 bytes, and
    the length in bits on 8 bytes. *)
Definition pad (msg : list Z) : list Z :=
  let len := Z.of_nat (List.length msg) in
  let zeros := Z.to_nat ((55 - len) mod 64) in
  (msg ++ 0x80 :: repeat 0 zeros ++ bigEndian 8 (8 * len))%list.

Fixpoint words (fuel : nat) (bytes : list Z) : list Z :=
  match fuel, bytes with
  | S fuel', a :: b :: c :: d :: rest =>
      (Z.shiftl a 24 + Z.shiftl b 16 + Z.shiftl c 8 + d) :: words fuel' rest
  | _, _ => []
  end.

(** The message schedule, most recent word first. *)
Fixpoint schedule (n : nat) (recent : list Z) : list Z :=
  match n with
  | O => recent
  | S n' =>
      let w :=
        add32 (add32 (sigma1 (nth 1 recent 0)) (nth 6 recent 0))
              (add32 (sigma0 (nth 14 recent 0)) (nth 15 recent 0)) in
      schedule n' (w :: recent)
  end.

Definition Registers := (Z * Z * Z * Z * Z * Z * Z * Z)%type.

Definition round (r : Registers) (kw : Z * Z) : Registers :=
  let '(a, b, c, d, e, f, g, h) := r in
  let '(k, w) := kw in
  let t1 := add32 (add32 (add32 h (bigSigma1 e)) (add32 (Ch e f g) k)) w in
  let t2 := add32 (bigSigma0 a) (Maj a b c) in
  (add32 t1 t2, a, b, c, add32 d t1, e, f, g).

Definition compress (hash : list Z) (block : list Z) : list Z :=
  match hash with
  | [a; b; c; d; e; f; g; h] =>
      let w := rev (schedule 48 (rev block)) in
      let '(a', b', c', d', e', f', g', h') :=
        fold_left round (combine K w) (a, b, c, d, e, f, g, h) in
      [add32 a a'; add32 b b'; add32 c c'; add32 d d';
       add32 e e'; add32 f f'; add32 g g'; add32 h h']
  | _ => hash
  end.

Fixpoint blocks (fuel : nat) (hash : list Z) (ws : list Z) : list Z :=
  match fuel, ws with
  | S fuel', _ :: _ => blocks fuel' (compress hash (firstn 16 ws)) (skipn 16 ws)
  | _, _ => hash
  end.

Definition digest (msg : list Z) : list Z :=
  let padded := pad msg in
  let ws := words (List.length padded) padded in
  blocks (List.length ws) H0 ws.

Definition hexDigit (n : Z) : ascii :=
  if n <? 10 then ascii_of_nat (Z.to_nat (48 + n))
  else ascii_of_nat (Z.to_nat (87 + n)).

Fixpoint hex (bytes : list Z) : string :=
  match bytes with
  | [] => EmptyString
  | b :: rest =>
      String (hexDigit (Z.shiftr b 4)) (String (hexDigit (Z.land b 0xF)) (hex rest))
  end.

Definition hexdigest (s : string) : string :=
  hex (flat_map (bigEndian 4) (digest (utf8 s))).

End Sha256.

(** ** The snapshot digest ([blake3Hash], [generateSnapshotHash]) *)

Module Hash.

Record FileEntry := {
  path : string;
  content : string;
}.

(** [blake3Hash]: SHA-256 stands in for Blake3 in the source. *)
Definition blake3Hash (content : string) : string := Sha256.hexdigest content.

(** [Array.prototype.sort(compare)]: a stable sort; [a] stays in front of
    [b] unless [compare(a, b) > 0].  For a consistent comparator every
    stable sort returns this list. *)
Section Sort.
Context {A : Type} (compare : A -> A -> Z).

Fixpoint insert (x : A) (sorted : list A) : list A :=
  match sorted with
  | [] => [x]
  | y :: rest => if (compare x y <=? 0)%Z then x :: sorted else y :: insert x rest
  end.

Definition sort (l : list A) : list A := fold_right insert [] l.
End Sort.

(** [a] may stay in front of [b]. *)
Definition before {A : Type} (compare : A -> A -> Z) (a b : A) : Prop :=
  (compare a b <= 0)%Z.

(** The comparator handed to [sort]: [(a, b) => a.path.localeCompare(b.path)]. *)
Definition byPath (localeCompare : string -> string -> Z) (a b : FileEntry) : Z :=
  localeCompare (path a) (path b).

Definition entryOf (file : FileEntry) : string :=
  path file ++ ":" ++ blake3Hash (content file).

(** [generateSnapshotHash]; [localeCompare] is the collation of the host,
    [a.localeCompare(b)] as a negative number, zero or a positive number. *)
Definition generateSnapshotHash (localeCompare : string -> string -> Z)
           (files : list FileEntry) : string :=
  let sortedFiles := sort (byPath localeCompare) files in
  let combinedData := JS.join "|" (map entryOf sortedFiles) in
  blake3Hash combinedData.

(** *** The order the specification names *)

(** Lexicographic order on byte sequences. *)
Fixpoint compareBytes (a b : list Z) : Z :=
  match a, b with
  | [], [] => 0
  | [], _ :: _ => -1
  | _ :: _, [] => 1
  | x :: a', y :: b' =>
      if (x <? y)%Z then -1 else if (y <? x)%Z then 1 else compareBytes a' b'
  end.

Definition byteLexCompare (a b : string) : Z :=
  compareBytes (Sha256.utf8 a) (Sha256.utf8 b).

(** The stable hash in the words of the specification: sort by path in
    byte-lexicographic order, digest each content, join the entries
    [path:digest] with [|], digest the joined string. *)
Definition stableHashSpec (files : list FileEntry) : string :=
  let sorted := sort (fun a b => byteLexCompare (path a) (path b)) files in
  blake3Hash (JS.join "|" (map (fun f => path f ++ ":" ++ blake3Hash (content f)) sorted)).

(** *** A collation to run the examples with *)

(** [localeCompare] under the root collation of ICU, for strings of ASCII
    letters and digits: the strings are compared letter by letter without
    regard to case; only if that finds no difference, a lower-case letter
    goes before its capital at the first place where the cases differ. *)
Definition foldCase (c : ascii) : Z := Z.of_nat (nat_of_ascii (JS.lowerChar c)).

Definition isUpper (c : ascii) : Z :=
  let n := nat_of_ascii c in
  if Nat.leb 65 n && Nat.leb n 90 then 1%Z else 0%Z.

Definition rootCollation (a b : string) : Z :=
  let la := list_ascii_of_string a in
  let lb := list_ascii_of_string b in
  let primary := compareBytes (map foldCase la) (map foldCase lb) in
  if (primary =? 0)%Z then compareBytes (map isUpper la) (map isUpper lb)
  else primary.

(** *** Files for the examples *)

Definition fileB : FileEntry := {| path := "B"; content := "x" |}.
Definition fileA : FileEntry := {| path := "a"; content := "y" |}.

(** Two entries for one path. *)
Definition first : FileEntry := {| path := "a.txt"; content := "hi" |}.
Definition second : FileEntry := {| path := "a.txt"; content := "bye" |}.

End Hash.

(** ** [src/utils/sarif.ts] *)

Module Sarif.

Record Region := {
  startLine : option Z;
  startColumn : option Z;
  endLine : option Z;
  endColumn : option Z;
}.

Record Location := {
  artifactLocation : option string;
  region : option Region;
}.

Record Result := {
  ruleId : string;
  messageText : string;
  locations : option (list Location);
}.

Record Driver := {
  name : string;
  version : option string;
  rules : list string;
}.

Record Run := {
  driver : Driver;
  results : option (list Result);
}.

Record SarifLog := {
  sarifVersion : string;
  schema : option string;
  runs : list Run;
}.

Definition createSarifLog (toolName : string) (toolVersion : option string) : SarifLog :=
  {| sarifVersion := "2.1.0";
     schema := Some "https://json.schemastore.org/sarif-2.1.0.json";
     runs := [ {| driver := {| name := toolName; version := toolVersion; rules := [] |};
                  results := Some [] |} ] |}.

Definition truthy (s : option string) : bool :=
  match s with Some (String _ _) => true | _ => false end.

Definition addResult (sarifLog : SarifLog) (ruleId message : string)
           (uri : option string) (region : option Region) : SarifLog :=
  let runs0 :=
    match runs sarifLog with
    | [] => [ {| driver := {| name := "snapback"; version := None; rules := [] |};
                 results := Some [] |} ]
    | rs => rs
    end in
  let result :=
    {| ruleId := ruleId;
       messageText := message;
       locations :=
         if truthy uri || (match region with Some _ => true | None => false end)
         then Some [ {| artifactLocation := if truthy uri then uri else None;
                        region := region |} ]
         else None |} in
  match runs0 with
  | run :: others =>
      let existing := match results run with Some rs => rs | None => [] end in
      {| sarifVersion := sarifVersion sarifLog;
         schema := schema sarifLog;
         runs := {| driver := driver run;
                    results := Some (existing ++ [result])%list |} :: others |}
  | [] => sarifLog
  end.


End Sarif.

(** ** [src/auth.ts], [src/tools/*.ts] and the tool dispatcher of [src/index.ts] *)

Module Tools.

Inductive AuthTier := TierFree | TierPro | TierAdmin.

Record AuthResult := {
  valid : bool;
  tier : AuthTier;
  scopes : option (list string);
  userId : option string;
  organizationId : option string;
  error : option string;
}.

Definition isPro (t : AuthTier) : bool :=
  match t with TierPro => true | _ => false end.

(** *** [auth.ts] *)

Section Auth.
(** [hasPermissionForTier] of [@snapback/auth/lib/tier-utils]. *)
Variable hasPermissionForTier : AuthTier -> string -> bool.

Definition hasPermission (authResult : AuthResult) (resourceAction : string) : bool :=
  if negb (valid authResult) then false
  else hasPermissionForTier (tier authResult) resourceAction.

Definition toolPermissions : list (string * string) :=
  [("snapback.analyze_risk", "snapback:analyze");
   ("snapback.create_snapshot", "snapback:snapshot");
   ("snapback.list_snapshots", "snapback:snapshot");
   ("snapback.restore_snapshot", "snapback:snapshot");
   ("ctx7.resolve-library-id", "snapback:context");
   ("ctx7.get-library-docs", "snapback:context")].

Fixpoint lookup {A} (table : list (string * A)) (key : string) : option A :=
  match table with
  | [] => None
  | (k, v) :: rest => if k =? key then Some v else lookup rest key
  end.

Definition hasToolAccess (authResult : AuthResult) (toolName : string) : bool :=
  if negb (valid authResult) then false
  else match lookup toolPermissions toolName with
       | None => true
       | Some requiredPermission => hasPermission authResult requiredPermission
       end.
End Auth.

(** *** Tool arguments and responses *)

#[local] Set Warnings "-register-all".
Inductive Json :=
| JNull
| JBool (b : bool)
| JNumber (n : Z)
| JString (s : string)
| JArray (items : list Json)
| JObject (fields : list (string * Json)).

(** What the snapshot tools hand back to the caller. *)
Record SnapshotSummary := {
  sum_id : string;
  sum_timestamp : Z;
  sum_reason : string;
  sum_fileCount : nat;
}.

Record RestoredSnapshot := {
  res_id : string;
  res_timestamp : Z;
  res_reason : string;
  res_fileCount : nat;
  res_restoredFiles : option (list string);
  res_fileContents : option (list (string * string));
}.

Inductive Payload :=
| SarifPayload (log : Sarif.SarifLog)
| SnapshotList (snapshots : list SnapshotSummary)
| Restored (snapshot : RestoredSnapshot)
| OtherJson (value : Json).

Inductive Content :=
| JsonContent (json : Payload)
| TextContent (text : string).

Record ErrorInfo := {
  err_message : string;
  err_code : string;
}.

(** A tool response; [isError] absent is [false]. *)
Record Response := {
  content : list Content;
  isError : bool;
  errorInfo : option ErrorInfo;
}.

Definition textError (text : string) : Response :=
  {| content := [TextContent text]; isError := true; errorInfo := None |}.

Definition jsonAnswer (p : Payload) : Response :=
  {| content := [JsonContent p]; isError := false; errorInfo := None |}.

(** *** The snapshot manager of [@snapback/sdk] *)

Record Snapshot := {
  id : string;
  timestamp : Z;
  meta_name : option string;
  files : option (list string);
  fileContents : option (list (string * string));
}.

Record RestoreResult := {
  success : bool;
  errors : option (list string);
  restoredFiles : option (list string);
}.

(** The three methods the tools call, over the state [W] they act on (the
    store and the file system).  Each may throw. *)
Record SnapshotManager (W : Type) := {
  mgr_get : string -> W -> Exn (option Snapshot) * W;
  mgr_restore : string -> option string -> W -> Exn RestoreResult * W;
  mgr_list : W -> Exn (list Snapshot) * W;
}.
Arguments mgr_get {W} _.
Arguments mgr_restore {W} _.
Arguments mgr_list {W} _.

(** [{ success: true, ... } | { success: false, error }] *)
Inductive ToolResult (A : Type) :=
| Success (value : A)
| Failure (error : string).
Arguments Success {A} value.
Arguments Failure {A} error.

Definition unknownError (e : Thrown) : string := messageOr (fun _ => "Unknown error") e.

Definition fileCount (s : Snapshot) : nat :=
  List.length (match files s with Some fs => fs | None => [] end).

(** *** [tools/restore-snapshot.ts] *)

Definition restoreSnapshot {W} (manager : SnapshotManager W)
           (snapshotId : string) (targetPath : option string) (w : W)
  : ToolResult RestoredSnapshot * W :=
  match mgr_get manager snapshotId w with
  | (Throw e, w1) => (Failure (unknownError e), w1)
  | (Ok None, w1) => (Failure ("Snapshot with ID " ++ snapshotId ++ " not found"), w1)
  | (Ok (Some snapshot), w1) =>
      match mgr_restore manager snapshotId targetPath w1 with
      | (Throw e, w2) => (Failure (unknownError e), w2)
      | (Ok result, w2) =>
          if negb (success result)
          then (Failure (JS.orString
                           (option_map (JS.join ", ") (errors result)) "Restore failed"),
                w2)
          else (Success {| res_id := id snapshot;
                           res_timestamp := timestamp snapshot;
                           res_reason := JS.orString (meta_name snapshot) "Snapshot";
                           res_fileCount := fileCount snapshot;
                           res_restoredFiles := restoredFiles result;
                           res_fileContents := fileContents snapshot |},
                w2)
      end
  end.

(** *** [tools/list-snapshots.ts] *)

Definition listSnapshots {W} (manager : SnapshotManager W) (w : W)
  : ToolResult (list SnapshotSummary) * W :=
  match mgr_list manager w with
  | (Throw e, w1) => (Failure (unknownError e), w1)
  | (Ok snapshots, w1) =>
      let formatted :=
        map (fun snapshot =>
               {| sum_id := id snapshot;
                  sum_timestamp := timestamp snapshot;
                  sum_reason := JS.orString (meta_name snapshot) "Snapshot";
                  sum_fileCount := fileCount snapshot |}) snapshots in
      let sorted :=
        Hash.sort (fun a b => (sum_timestamp b - sum_timestamp a)%Z) formatted in
      (Success sorted, w1)
  end.

(** *** The [CallToolRequestSchema] handler of [index.ts] *)

(** What the handler takes from outside the sources kept here: the tier
    table of [@snapback/auth], the snapshot manager, the rendering of a
    failed [zod] parse, [NODE_ENV], the log id drawn by [sanitizeError],
    and the branches of the handler that are not snapshot tools (with the
    part of [create_snapshot] behind its tier gate, lines 941-998). *)
Record Deps (W : Type) := {
  hasPermissionForTier : AuthTier -> string -> bool;
  manager : SnapshotManager W;
  zodIssues : option Json -> string;
  isDevelopment : bool;
  logId : string;
  createSnapshotTool : option Json -> W -> Exn Response * W;
  otherTool : string -> option Json -> W -> Exn Response * W;
}.
Arguments hasPermissionForTier {W} _.
Arguments manager {W} _.
Arguments zodIssues {W} _.
Arguments isDevelopment {W} _.
Arguments logId {W} _.
Arguments createSnapshotTool {W} _.
Arguments otherTool {W} _.

Definition proRequired : string :=
  "This tool requires a Pro subscription. Upgrade at https://snapback.dev/pricing".

(** The answer of the tier gate, the same in the three snapshot tools up to
    the name of the SARIF driver. *)
Definition upgradeRequired (driverName : string) : Response :=
  let sarifLog := Sarif.createSarifLog driverName (Some "1.0.0") in
  let sarifLog := Sarif.addResult sarifLog "pro-tool-restricted" proRequired None None in
  {| content := [JsonContent (SarifPayload sarifLog);
                 TextContent ("❌ " ++ proRequired)];
     isError := false;
     errorInfo := None |}.

Definition accessDenied (name : string) : Response :=
  textError ("❌ Access denied. You don't have permission to use the " ++ name ++ " tool.").

(** [sanitizeError] and the response of the outer [catch]. *)
Definition sanitizeError {W} (d : Deps W) (e : Thrown) : ErrorInfo :=
  if isDevelopment d
  then {| err_message := match e with ErrorObject _ m => m | NotAnError v => v end;
          err_code := "INTERNAL_ERROR" |}
  else {| err_message := "An internal error occurred. Contact support with log ID.";
          err_code := "INTERNAL_ERROR" |}.

Definition caught {W} (d : Deps W) (e : Thrown) : Response :=
  let sanitized := sanitizeError d e in
  {| content := [TextContent (err_message sanitized ++ " (Log ID: " ++ logId d ++ ")")];
     isError := true;
     errorInfo := Some sanitized |}.

Definition orCaught {W} (d : Deps W) (r : Exn Response * W) : Response * W :=
  match r with
  | (Ok response, w) => (response, w)
  | (Throw e, w) => (caught d e, w)
  end.

(** [z.object({ snapshotId: z.string() }).parse(args)]: unknown keys are
    stripped, so the parsed object has the one field. *)
Definition parseSnapshotId {W} (d : Deps W) (args : option Json) : Exn string :=
  match args with
  | Some (JObject fields) =>
      match lookup fields "snapshotId" with
      | Some (JString s) => Ok s
      | _ => Throw (ErrorObject ZodErrorClass (zodIssues d args))
      end
  | _ => Throw (ErrorObject ZodErrorClass (zodIssues d args))
  end.

Definition listSnapshotsTool {W} (d : Deps W) (w : W) : Response * W :=
  match listSnapshots (manager d) w with
  | (Failure error, w1) => (textError ("❌ Failed to list snapshots: " ++ error), w1)
  | (Success snapshots, w1) => (jsonAnswer (SnapshotList snapshots), w1)
  end.

Definition restoreSnapshotTool {W} (d : Deps W) (args : option Json) (w : W)
  : Response * W :=
  match parseSnapshotId d args with
  | Throw e => (caught d e, w)
  | Ok snapshotId =>
      match restoreSnapshot (manager d) snapshotId None w with
      | (Failure error, w1) => (textError ("❌ Failed to restore snapshot: " ++ error), w1)
      | (Success snapshot, w1) => (jsonAnswer (Restored snapshot), w1)
      end
  end.

(** The handler; the branches on the tool name exclude each other, so the
    ones that are not snapshot tools are gathered in [otherTool]. *)
Definition callTool {W} (d : Deps W) (authResult : AuthResult)
           (name : string) (args : option Json) (w : W) : Response * W :=
  if negb (hasToolAccess (hasPermissionForTier d) authResult name)
  then (accessDenied name, w)
  else if name =? "snapback.create_snapshot" then
    if negb (isPro (tier authResult))
    then (upgradeRequired "snapback-create-snapshot", w)
    else orCaught d (createSnapshotTool d args w)
  else if name =? "snapback.list_snapshots" then
    if negb (isPro (tier authResult))
    then (upgradeRequired "snapback-list-snapshots", w)
    else listSnapshotsTool d w
  else if name =? "snapback.restore_snapshot" then
    if negb (isPro (tier authResult))
    then (upgradeRequired "snapback-restore-snapshot", w)
    else restoreSnapshotTool d args w
  else orCaught d (otherTool d name args w).

Definition requiresBackend (name : string) : bool :=
  (name =? "snapback.create_snapshot")
  || (name =? "snapback.list_snapshots")
  || (name =? "snapback.restore_snapshot").

End Tools.

(** ** A snapshot store to run the restore tool against *)

Module SpecStore.

(** Files on disk: destination path and content. *)
Definition Disk := list (string * string).

Record Stored := {
  snapshot : Tools.Snapshot;
  blobs : list Hash.FileEntry;
}.

Record World := {
  store : list Stored;
  disk : Disk;
}.

Definition find (snapshotId : string) (w : World) : option Stored :=
  List.find (fun s => Tools.id (snapshot s) =? snapshotId) (store w).

(** A file system without symlinks in which every directory exists. *)
Definition plainFs : Security.FileSystem := {|
  Security.realpathSync := fun p => Security.Real p;
  Security.existsSync := fun _ => true;
|}.

(** Write-temp-then-rename, seen from outside: the destination holds the
    new content, everything else is as before. *)
Definition writeFile (dest content : string) (d : Disk) : Disk :=
  (dest, content) :: filter (fun entry => negb (fst entry =? dest)) d.

Record Progress := {
  written : Disk;
  restored : list string;
  failed : list string;
}.

Definition restoreFile (targetPath : string) (p : Progress) (f : Hash.FileEntry)
  : Progress :=
  match fst (Security.validateFilePath (Security.posixHost plainFs false)
               (Hash.path f) targetPath) with
  | Ok dest =>
      {| written := writeFile dest (Hash.content f) (written p);
         restored := (restored p ++ [dest])%list;
         failed := failed p |}
  | Throw e =>
      {| written := written p;
         restored := restored p;
         failed := (failed p ++ [Tools.unknownError e])%list |}
  end.

(** Modelled from the spec: [SnapshotManager.restore] of [@snapback/sdk],
    which is not among the sources.  Section 4.9: without [targetPath] the
    restore is metadata-only and leaves the file system alone; with it,
    each file is written atomically under [targetPath], every destination
    going through the path validator with [targetPath] as root; partial
    failures are reported in [errors] and nothing is rolled back. *)
Definition restore (snapshotId : string) (targetPath : option string) (w : World)
  : Exn Tools.RestoreResult * World :=
  match find snapshotId w with
  | None =>
      (Ok {| Tools.success := false;
             Tools.errors := Some ["Snapshot not found"];
             Tools.restoredFiles := Some [] |}, w)
  | Some s =>
      match targetPath with
      | None =>
          (Ok {| Tools.success := true;
                 Tools.errors := Some [];
                 Tools.restoredFiles := Some [] |}, w)
      | Some target =>
          let p := fold_left (restoreFile target) (blobs s)
                     {| written := disk w; restored := []; failed := [] |} in
          (Ok {| Tools.success := match failed p with [] => true | _ => false end;
                 Tools.errors := Some (failed p);
                 Tools.restoredFiles := Some (restored p) |},
           {| store := store w; disk := written p |})
      end
  end.

(** Modelled from the spec: [SnapshotManager.get] and [SnapshotManager.list]
    of [@snapback/sdk] (section 4.9), as far as the restore tool needs
    them: [get] finds the record or returns [null], [list] returns the
    records. *)
Definition manager : Tools.SnapshotManager World := {|
  Tools.mgr_get := fun snapshotId w => (Ok (option_map snapshot (find snapshotId w)), w);
  Tools.mgr_restore := restore;
  Tools.mgr_list := fun w => (Ok (map snapshot (store w)), w);
|}.

(** The world of scenario 2: one snapshot of [a.txt] and [b.txt], nothing
    restored yet. *)
Definition seeded : World := {|
  store := [ {| snapshot := {| Tools.id := "X"; Tools.timestamp := 1700000000000%Z;
                               Tools.meta_name := Some "MCP snapshot";
                               Tools.files := Some ["a.txt"; "b.txt"];
                               Tools.fileContents := None |};
                blobs := [ {| Hash.path := "a.txt"; Hash.content := "hi" |};
                           {| Hash.path := "b.txt"; Hash.content := "bye" |} ] |} ];
  disk := [];
|}.

Definition deps : Tools.Deps World := {|
  Tools.hasPermissionForTier := fun _ _ => true;
  Tools.manager := manager;
  Tools.zodIssues := fun _ => "invalid arguments";
  Tools.isDevelopment := false;
  Tools.logId := "ERR-0-000000000";
  Tools.createSnapshotTool := fun _ w =>
    (Ok (Tools.jsonAnswer (Tools.OtherJson Tools.JNull)), w);
  Tools.otherTool := fun name _ w =>
    (Throw (ErrorObject PlainError ("Unknown tool: " ++ name)), w);
|}.

Definition principal (t : Tools.AuthTier) : Tools.AuthResult := {|
  Tools.valid := true;
  Tools.tier := t;
  Tools.scopes := Some [];
  Tools.userId := Some "u1";
  Tools.organizationId := None;
  Tools.error := None;
|}.

(** The arguments of scenario 2 for the restore tool. *)
Definition restoreArgs : option Tools.Json :=
  Some (Tools.JObject [("targetPath", Tools.JString "/out");
                       ("snapshotId", Tools.JString "X")]).

End SpecStore.


(** ** The HTTP front ([http-server.ts]): rate limiter, credentials, CORS, routing *)

Module Http.

(** *** [RateLimiter] *)

Record Window := {
  count : Z;
  resetTime : Z;
}.

(** The fields of [RateLimiter]; the [Map] from client address to window is
    the function that [Map.get] computes. *)
Record RateLimiter := {
  requests : string -> option Window;
  windowMs : Z;
  maxRequests : Z;
}.

(** [new RateLimiter(windowMs, maxRequests)]; the defaults are 60000 and 100. *)
Definition newRateLimiter (windowMs maxRequests : Z) : RateLimiter :=
  {| requests := fun _ => None; windowMs := windowMs; maxRequests := maxRequests |}.

(** [this.requests.set(ip, window)], also what [window.count++] amounts to
    on the stored object. *)
Definition setWindow (ip : string) (w : Window) (rl : RateLimiter) : RateLimiter :=
  {| requests := fun k => if k =? ip then Some w else requests rl k;
     windowMs := windowMs rl;
     maxRequests := maxRequests rl |}.

(** [isAllowed(ip)] with [Date.now()] reading [now]: the answer and the
    limiter afterwards. *)
Definition isAllowed (rl : RateLimiter) (now : Z) (ip : string) : bool * RateLimiter :=
  let fresh := {| count := 1; resetTime := (now + windowMs rl)%Z |} in
  match requests rl ip with
  | None => (true, setWindow ip fresh rl)
  | Some window =>
      if (resetTime window <=? now)%Z then (true, setWindow ip fresh rl)
      else if (maxRequests rl <=? count window)%Z then (false, rl)
      else (true,
            setWindow ip {| count := (count window + 1)%Z;
                            resetTime := resetTime window |} rl)
  end.

(** [reset()] *)
Definition reset (rl : RateLimiter) : RateLimiter :=
  {| requests := fun _ => None; windowMs := windowMs rl; maxRequests := maxRequests rl |}.

(** No stored window has counted less than one request or more than the
    cap allows. *)
Definition boundedCounts (rl : RateLimiter) : Prop :=
  forall ip w, requests rl ip = Some w ->
               (1 <= count w <= Z.max 1 (maxRequests rl))%Z.

(** One client asking at the given times, one after the other. *)
Fixpoint decisions (rl : RateLimiter) (ip : string) (times : list Z) : list bool :=
  match times with
  | [] => []
  | now :: later =>
      let '(ok, rl') := isAllowed rl now ip in
      ok :: decisions rl' ip later
  end.

(** Any clients asking, each request with its address and time: the answers
    in order and the limiter afterwards. *)
Fixpoint serve (rl : RateLimiter) (asked : list (string * Z)) : list bool * RateLimiter :=
  match asked with
  | [] => ([], rl)
  | (ip, now) :: later =>
      let '(ok, rl1) := isAllowed rl now ip in
      let '(oks, rl2) := serve rl1 later in
      (ok :: oks, rl2)
  end.

(** The answers of [serve] that went to [ip], and the times [ip] asked at. *)
Fixpoint answersTo (ip : string) (asked : list (string * Z)) (answers : list bool)
  : list bool :=
  match asked, answers with
  | (k, _) :: asked', a :: answers' =>
      if k =? ip then a :: answersTo ip asked' answers' else answersTo ip asked' answers'
  | _, _ => []
  end.

Definition timesOf (ip : string) (asked : list (string * Z)) : list Z :=
  map snd (filter (fun r => fst r =? ip) asked).

(** *** The request, as far as the server reads it *)

(** A header of [IncomingMessage.headers]: one value or several. *)
Inductive HeaderValue :=
| Single (value : string)
| Multiple (values : list string).

Record Request := {
  method : string;
  pathname : option string;
  origin : option string;
  authorization : option string;
  xApiKey : option HeaderValue;
  xForwardedFor : option string;
  xRealIp : option string;
  remoteAddress : option string;
}.

(** [process.env] as far as the server reads it. *)
Record Env := {
  ALLOWED_ORIGINS : option string;
  NODE_ENV : option string;
}.

(** *** [authenticateRequest] *)

(** [s.substring(n)] *)
Definition substringFrom (n : nat) (s : string) : string :=
  String.substring n (String.length s - n) s.

(** [process.env.NODE_ENV === "development"] *)
Definition isDevelopment (env : Env) : bool :=
  match NODE_ENV env with
  | Some mode => mode =? "development"
  | None => false
  end.

(** [authHeader?.startsWith("Bearer ")] *)
Definition hasBearer (req : Request) : bool :=
  match authorization req with
  | Some authHeader => JS.startsWith authHeader "Bearer "
  | None => false
  end.

(** [apiKey && typeof apiKey === "string"] *)
Definition apiKeyString (req : Request) : option string :=
  match xApiKey req with
  | Some (Single (String c rest)) => Some (String c rest)
  | _ => None
  end.

Definition authenticateRequest (env : Env) (req : Request) : bool :=
  if hasBearer req then
    let token := substringFrom 7 (match authorization req with Some h => h | None => "" end) in
    Nat.ltb 0 (String.length token)
  else
    match apiKeyString req with
    | Some apiKey => Nat.ltb 0 (String.length apiKey)
    | None => isDevelopment env
    end.

(** *** [getClientIp] *)

(** [a || b] where [a] may be absent: the empty string is falsy. *)
Definition orElse (a : option string) (b : string) : string := JS.orString a b.

Definition getClientIp (req : Request) : string :=
  let forwarded :=
    match xForwardedFor req with
    | Some h => option_map JS.trim (hd_error (JS.split ","%char h))
    | None => None
    end in
  orElse forwarded (orElse (xRealIp req) (orElse (remoteAddress req) "unknown")).

(** *** Responses *)

(** A response: status, headers in the order they were set, and the fields of
    the JSON object in the body (none for an empty body). *)
Record Response := {
  status : Z;
  headers : list (string * string);
  body : list (string * string);
}.

(** [applySecurityHeaders] *)
Definition securityHeaders : list (string * string) :=
  [("X-Content-Type-Options", "nosniff");
   ("X-Frame-Options", "DENY");
   ("X-XSS-Protection", "1; mode=block");
   ("Strict-Transport-Security", "max-age=31536000; includeSubDomains");
   ("Content-Security-Policy", "default-src 'self'")].

Definition json (code : Z) (extra : list (string * string)) (fields : list (string * string))
  : Response :=
  {| status := code;
     headers := (securityHeaders ++ ("Content-Type", "application/json") :: extra)%list;
     body := fields |}.

(** *** [handleCorsPreflight] *)

Definition allowedOrigins (env : Env) : list string :=
  match ALLOWED_ORIGINS env with
  | Some listed => JS.split ","%char listed
  | None => ["*"]
  end.

Definition listed (l : list string) (x : string) : bool :=
  existsb (fun y => y =? x) l.

Definition originAllowed (env : Env) (req : Request) : bool :=
  listed (allowedOrigins env) "*"
  || match origin req with
     | Some (String c rest) => listed (allowedOrigins env) (String c rest)
     | _ => false
     end
  || match origin req with
     | Some o => JS.startsWith o "http://localhost:"
     | None => false
     end.

Definition allowOrigin : string := "Access-Control-Allow-Origin".

Definition handleCorsPreflight (env : Env) (req : Request) : Response :=
  {| status := 204;
     headers :=
       (securityHeaders
          ++ (if originAllowed env req
              then [(allowOrigin, orElse (origin req) "*")]
              else [])
          ++ [("Access-Control-Allow-Methods", "GET, POST, OPTIONS");
              ("Access-Control-Allow-Headers", "Content-Type, Authorization, X-API-Key");
              ("Access-Control-Max-Age", "86400")])%list;
     body := [] |}.

(** *** [checkRateLimit] and [handleRequest] *)

Definition tooManyRequests : Response :=
  json 429 [("Retry-After", "60")]
       [("error", "Too Many Requests");
        ("message", "Rate limit exceeded. Please try again later.")].

(** [checkRateLimit]: the response it has written when it refuses. *)
Definition checkRateLimit (rl : RateLimiter) (now : Z) (req : Request)
  : option Response * RateLimiter :=
  let '(ok, rl') := isAllowed rl now (getClientIp req) in
  (if ok then None else Some tooManyRequests, rl').

(** [checkRateLimit] for one request after the other, each with the time it
    arrives at: whether each one passed. *)
Fixpoint checkAll (rl : RateLimiter) (arrivals : list (Request * Z)) : list bool :=
  match arrivals with
  | [] => []
  | (req, now) :: later =>
      let '(refused, rl') := checkRateLimit rl now req in
      (match refused with None => true | Some _ => false end) :: checkAll rl' later
  end.

(** The handlers [handleRequest] hands over to; what they answer is theirs. *)
Inductive Route := SSEConnection | PostMessage | HealthCheck.

Inductive Handled :=
| Answered (response : Response)
| HandedTo (route : Route) (headersSet : list (string * string)).

(** [handleRequest]: [pathname] is absent when [new URL(...)] throws, which
    the [catch] answers with 500. *)
Definition handleRequest (env : Env) (rl : RateLimiter) (now : Z) (req : Request)
  : Handled * RateLimiter :=
  match pathname req with
  | None => (Answered (json 500 [] [("error", "Internal server error")]), rl)
  | Some path =>
      if method req =? "OPTIONS" then (Answered (handleCorsPreflight env req), rl)
      else
        match checkRateLimit rl now req with
        | (Some refused, rl') => (Answered refused, rl')
        | (None, rl') =>
            if (method req =? "GET") && (path =? "/mcp")
            then (HandedTo SSEConnection securityHeaders, rl')
            else if (method req =? "POST") && (path =? "/mcp")
            then (HandedTo PostMessage securityHeaders, rl')
            else if (method req =? "GET") && (path =? "/health")
            then (HandedTo HealthCheck securityHeaders, rl')
            else if (method req =? "GET") && (path =? "/version")
            then (Answered (json 200 [] [("version", "0.1.1"); ("name", "snapback-mcp")]), rl')
            else (Answered (json 404 [] [("error", "Not found")]), rl')
        end
  end.

(** Requests for the examples: all from one socket address. *)
Definition get (path : string) (forwardedFor : option string) : Request :=
  {| method := "GET"; pathname := Some path; origin := None; authorization := None;
     xApiKey := None; xForwardedFor := forwardedFor; xRealIp := None;
     remoteAddress := Some "203.0.113.7" |}.

Definition withCredentials (authHeader : option string) (apiKey : option HeaderValue)
  : Request :=
  {| method := "POST"; pathname := Some "/mcp"; origin := None;
     authorization := authHeader; xApiKey := apiKey; xForwardedFor := None;
     xRealIp := None; remoteAddress := Some "203.0.113.7" |}.

Definition preflight (from : option string) : Request :=
  {| method := "OPTIONS"; pathname := Some "/mcp"; origin := from; authorization := None;
     xApiKey := None; xForwardedFor := None; xRealIp := None;
     remoteAddress := Some "203.0.113.7" |}.

Definition production (allowed : option string) : Env :=
  {| ALLOWED_ORIGINS := allowed; NODE_ENV := Some "production" |}.

End Http.

(** ** The circuit breaker between calls, and what a routed call invoked *)

Module Breaker.
Import Router.

(** A breaker as a constructor call leaves it, for any thresholds of at
    least one. *)
Definition isNew (cb : CircuitBreaker) : Prop :=
  state cb = CLOSED /\ failureCount cb = 0%Z /\ successCount cb = 0%Z
  /\ (1 <= failureThreshold cb)%Z /\ (1 <= successThreshold cb)%Z.

(** The counters against the thresholds, state by state. *)
Definition wellFormed (cb : CircuitBreaker) : Prop :=
  (1 <= failureThreshold cb)%Z /\ (1 <= successThreshold cb)%Z
  /\ (0 <= successCount cb < successThreshold cb)%Z
  /\ (state cb = CLOSED ->
      (0 <= failureCount cb < failureThreshold cb)%Z /\ successCount cb = 0%Z)
  /\ (state cb <> CLOSED -> (failureThreshold cb <= failureCount cb)%Z).

(** The thresholds and the recovery window, which no call changes. *)
Definition settings (cb : CircuitBreaker) : Z * Z * Z :=
  (failureThreshold cb, successThreshold cb, timeout cb).

(** [execute] throws before calling [fn]. *)
Definition refuses (cb : CircuitBreaker) (now : Z) : bool :=
  isOpen (state cb) && (now <? nextAttemptAt cb)%Z.

(** [execute] up to its [await]: nothing when it throws before calling
    [fn], else the breaker as the entry of the call leaves it. *)
Definition enter (cb : CircuitBreaker) (now : Z) : option CircuitBreaker :=
  if isOpen (state cb) then
    if (now <? nextAttemptAt cb)%Z then None else Some (setState HALF_OPEN cb)
  else Some cb.

(** The synchronous segments of the calls of [execute] on one breaker: the
    entry of a call, and what follows the [await] of a call that was let
    through, once [fn] has resolved or thrown.  Calls overlap when segments
    of other calls come between the two segments of one; the second segment
    reads the fields of the breaker as they are by then. *)
Inductive Segment (T : Type) :=
| Enters (now : Z)
| Settles (fn : Exn T) (nowCatch : Z).
Arguments Enters {T} now.
Arguments Settles {T} fn nowCatch.

Definition segment {T} (cb : CircuitBreaker) (s : Segment T) : CircuitBreaker :=
  match s with
  | Enters now => match enter cb now with Some cb' => cb' | None => cb end
  | Settles fn nowCatch => breaker (settle cb fn nowCatch)
  end.

(** The breaker after the segments of any calls, in the order they ran. *)
Definition interleaved {T} (cb : CircuitBreaker) (segments : list (Segment T))
  : CircuitBreaker :=
  fold_left segment segments cb.

(** Three calls that fail one after the other; then a probe that enters at
    the end of the recovery window, two more calls that enter while it is
    pending and succeed, and the probe failing last. *)
Definition overlappingProbe : list (Segment unit) :=
  let timedOut := Throw (ErrorObject PlainError "ETIMEDOUT") in
  [Enters 1%Z; Settles timedOut 1%Z;
   Enters 2%Z; Settles timedOut 2%Z;
   Enters 3%Z; Settles timedOut 3%Z;
   Enters 30003%Z; Enters 30004%Z; Enters 30005%Z;
   Settles (Ok tt) 30006%Z; Settles (Ok tt) 30007%Z;
   Settles timedOut 30008%Z].

(** How often a routed call invoked the upstream and the local analyzer. *)
Definition upstreamCalls (r : Routed) : nat :=
  List.length (filter isUpstream (invocations r)).

Definition localCalls (r : Routed) : nat :=
  List.length (filter (fun i => negb (isUpstream i)) (invocations r)).

(** The upstream is configured and not switched off by the feature flag. *)
Definition upstreamEnabled (r : AnalysisRouter) : bool :=
  apiClient r
  && match circuitBreaker r with Some _ => true | None => false end
  && match featureFlags r "ml-detection" with Some false => false | _ => true end.

(** The breaker of the router lets a call through at [now]. *)
Definition admits (r : AnalysisRouter) (now : Z) : bool :=
  match circuitBreaker r with
  | Some cb => negb (refuses cb now)
  | None => false
  end.

Definition isProTier (userContext : option UserContext) : bool :=
  match userContext with
  | Some c => match tier c with Pro => true | Free => false end
  | None => false
  end.

(** The request [analyzeWithAPI] sends for [code]. *)
Definition requestFor (code : string) : AnalysisRequest :=
  {| code := code; filePath := "analysis.ts";
     context := {| projectType := "mcp-analysis"; language := "typescript" |} |}.

(** The message [analyze] passes to [addUpgradePrompt]. *)
Definition freeTierMessage : string :=
  "Free tier users can upgrade to Pro for advanced ML-based analysis".

(** A pro caller, and services whose upstream is down. *)
Definition proUser : option UserContext :=
  Some {| userId := None; email := None; tier := Pro; orgId := None |}.

Definition upstreamDown : Services := {|
  guardian_analyze := guardian_analyze stubServices;
  analyzeFast := fun _ => Throw (ErrorObject PlainError "ECONNREFUSED");
|}.

End Breaker.

(** ** Hunks and halos ([utils/diff.ts]) *)

Module Diff.

Inductive LineType := Added | Removed | ContextLine.

(** Line numbers are integers; [NaN] and fractions are outside the model. *)
Record ChangedLine := {
  lineNumber : Z;
  content : string;
  type : LineType;
}.

Record Hunk := {
  startLine : Z;
  endLine : Z;
  lines : list ChangedLine;
}.

(** *** [selectHunksWithHalo] *)

(** [(a, b) => a.lineNumber - b.lineNumber] *)
Definition byLineNumber (a b : ChangedLine) : Z := (lineNumber a - lineNumber b)%Z.

Definition startHunk (haloSize : Z) (line : ChangedLine) : Hunk :=
  {| startLine := Z.max 1 (lineNumber line - haloSize);
     endLine := (lineNumber line + haloSize)%Z;
     lines := [line] |}.

(** [currentHunk.lines.push(line); currentHunk.endLine = ...] *)
Definition extendHunk (haloSize : Z) (currentHunk : Hunk) (line : ChangedLine) : Hunk :=
  {| startLine := startLine currentHunk;
     endLine := (lineNumber line + haloSize)%Z;
     lines := (lines currentHunk ++ [line])%list |}.

(** One turn of the loop on [hunks] and [currentHunk]. *)
Definition selectStep (haloSize : Z) (st : list Hunk * option Hunk) (line : ChangedLine)
  : list Hunk * option Hunk :=
  match st with
  | (hunks, None) => (hunks, Some (startHunk haloSize line))
  | (hunks, Some currentHunk) =>
      if (lineNumber line <=? endLine currentHunk)%Z
      then (hunks, Some (extendHunk haloSize currentHunk line))
      else ((hunks ++ [currentHunk])%list, Some (startHunk haloSize line))
  end.

(** The default of [haloSize]. *)
Definition defaultHalo : Z := 3.

Definition selectHunksWithHalo (changedLines : list ChangedLine) (haloSize : Z) : list Hunk :=
  match changedLines with
  | [] => []
  | _ :: _ =>
      let sortedLines := Hash.sort byLineNumber changedLines in
      match fold_left (selectStep haloSize) sortedLines ([], None) with
      | (hunks, Some currentHunk) => (hunks ++ [currentHunk])%list
      | (hunks, None) => hunks
      end
  end.

(** *** [extractLineNumbers] *)

Definition extractLineNumbers (changedLines : list ChangedLine) : list Z :=
  map lineNumber changedLines.

(** *** [filterContentByHunks] *)

(** [lines[i]], rendered as [join] renders it: [undefined] as the empty string. *)
Definition lineAt (fileLines : list string) (i : Z) : string :=
  if (i <? 0)%Z then "" else nth (Z.to_nat i) fileLines "".

(** The indices [from, from + 1, ...] below [upto]. *)
Definition indices (from upto : Z) : list Z :=
  map (fun k => (from + Z.of_nat k)%Z) (seq 0 (Z.to_nat (upto - from))).

(** The inner loop: [i] from [startLine - 1] while [i < endLine] and
    [i < lines.length]. *)
Definition hunkIndices (fileLines : list string) (hunk : Hunk) : list Z :=
  indices (startLine hunk - 1) (Z.min (endLine hunk) (Z.of_nat (List.length fileLines))).

(** [resultLines] when the loops are done. *)
Definition resultLines (fileContent : string) (hunks : list Hunk) : list string :=
  let fileLines := JS.split "010"%char fileContent in
  flat_map (fun hunk => map (lineAt fileLines) (hunkIndices fileLines hunk)) hunks.

Definition newline : string := String "010"%char EmptyString.

Definition filterContentByHunks (fileContent : string) (hunks : list Hunk) : string :=
  JS.join newline (resultLines fileContent hunks).

(** *** [createChangedLines] *)

(** A change of the diff, read as [any]: [added] and [removed] by their
    truthiness. *)
Record Change := {
  value : string;
  added : bool;
  removed : bool;
}.

Definition typeOf (change : Change) : LineType :=
  if added change then Added else if removed change then Removed else ContextLine.

(** The body of the inner loop for one line that is not skipped. *)
Definition visit (change : Change) (st : list ChangedLine * Z) (text : string)
  : list ChangedLine * Z :=
  let '(changedLines, currentLineNumber) := st in
  let line := {| lineNumber := currentLineNumber; content := text; type := typeOf change |} in
  (if added change || removed change then (changedLines ++ [line])%list else changedLines,
   if removed change then currentLineNumber else (currentLineNumber + 1)%Z).

(** The inner loop over [change.value.split("\n")]: the last piece is
    skipped when it is empty. *)
Fixpoint visitLines (change : Change) (st : list ChangedLine * Z) (pieces : list string)
  : list ChangedLine * Z :=
  match pieces with
  | [] => st
  | [last] => if last =? "" then st else visit change st last
  | text :: rest => visitLines change (visit change st text) rest
  end.

Definition visitChange (st : list ChangedLine * Z) (change : Change)
  : list ChangedLine * Z :=
  visitLines change st (JS.split "010"%char (value change)).

Definition createChangedLines (changes : list Change) : list ChangedLine :=
  fst (fold_left visitChange changes ([], 1%Z)).

(** *** What the theorems speak of *)

(** The loop of [selectHunksWithHalo] told from the current hunk on: the
    hunks it ends with, the finished ones apart. *)
Fixpoint collect (haloSize : Z) (currentHunk : Hunk) (sortedLines : list ChangedLine)
  : list Hunk :=
  match sortedLines with
  | [] => [currentHunk]
  | line :: rest =>
      if (lineNumber line <=? endLine currentHunk)%Z
      then collect haloSize (extendHunk haloSize currentHunk line) rest
      else currentHunk :: collect haloSize (startHunk haloSize line) rest
  end.

(** Each line is at most [haloSize] past the one before it. *)
Fixpoint chained (haloSize : Z) (sortedLines : list ChangedLine) : Prop :=
  match sortedLines with
  | a :: (b :: _) as rest =>
      (lineNumber a <= lineNumber b <= lineNumber a + haloSize)%Z /\ chained haloSize rest
  | _ => True
  end.

(** The numbers of the first and of the last line of a hunk. *)
Definition firstNumber (hunk : Hunk) : Z := hd 0%Z (map lineNumber (lines hunk)).
Definition lastNumber (hunk : Hunk) : Z := last (map lineNumber (lines hunk)) 0%Z.

(** A hunk as the loop leaves it: its range is the halo before its first
    line, cut at line 1, up to the halo after its last line; its lines lie
    between the two and each within the halo of the one before. *)
Definition wellFormedHunk (haloSize : Z) (hunk : Hunk) : Prop :=
  lines hunk <> []
  /\ startLine hunk = Z.max 1 (firstNumber hunk - haloSize)
  /\ endLine hunk = (lastNumber hunk + haloSize)%Z
  /\ (forall line, In line (lines hunk) ->
                   (firstNumber hunk <= lineNumber line <= lastNumber hunk)%Z)
  /\ chained haloSize (lines hunk).

(** In the order of the line numbers. *)
Definition ascending (l : list ChangedLine) : Prop :=
  StronglySorted (fun a b => (lineNumber a <= lineNumber b)%Z) l.

(** The lines of all hunks, in order. *)
Definition hunkLines (hunks : list Hunk) : list ChangedLine := flat_map lines hunks.

(** Every line of every later hunk lies past the end of an earlier hunk. *)
Fixpoint separated (hunks : list Hunk) : Prop :=
  match hunks with
  | [] => True
  | hunk :: rest =>
      (forall later line, In later rest -> In line (lines later) ->
                          (endLine hunk < lineNumber line)%Z)
      /\ separated rest
  end.

(** The range of a hunk holds the halo of a line, as far as the halo lies in
    the file's line numbers. *)
Definition holdsHalo (haloSize : Z) (hunk : Hunk) (line : ChangedLine) : Prop :=
  (startLine hunk <= Z.max 1 (lineNumber line - haloSize))%Z
  /\ (lineNumber line + haloSize <= endLine hunk)%Z.

(** The pieces of [change.value.split("\n")] that the inner loop of
    [createChangedLines] does not skip. *)
Fixpoint visited (pieces : list string) : list string :=
  match pieces with
  | [] => []
  | [last] => if last =? "" then [] else [last]
  | text :: rest => text :: visited rest
  end.

(** The changed lines made of [texts], numbered from [n] on, or all [n]. *)
Fixpoint numbered (kind : LineType) (advance : bool) (n : Z) (texts : list string)
  : list ChangedLine :=
  match texts with
  | [] => []
  | text :: rest =>
      {| lineNumber := n; content := text; type := kind |}
        :: numbered kind advance (if advance then (n + 1)%Z else n) rest
  end.

(** The file as the text of a diff makes it: what is not removed, in order. *)
Definition newText (changes : list Change) : string :=
  String.concat "" (map value (filter (fun c => negb (removed c)) changes)).

(** [v] is empty or ends with a line break. *)
Fixpoint terminated (v : string) : bool :=
  match v with
  | EmptyString => true
  | String c EmptyString => Ascii.eqb c "010"%char
  | String _ rest => terminated rest
  end.

(** The changes of a diff by lines: none is both added and removed, and every
    piece of the new text ends with a line break, the last one apart. *)
Fixpoint wholeLines (changes : list Change) : bool :=
  match changes with
  | [] => true
  | change :: rest =>
      negb (added change && removed change)
      && (removed change || terminated (value change) || (newText rest =? ""))
      && wholeLines rest
  end.

(** A diff that turns the lines a, b, c into a, B, c, d. *)
Definition edit : list Change :=
  [ {| value := "a" ++ newline; added := false; removed := false |};
    {| value := "b" ++ newline; added := false; removed := true |};
    {| value := "B" ++ newline; added := true; removed := false |};
    {| value := "c" ++ newline; added := false; removed := false |};
    {| value := "d"; added := true; removed := false |} ].

(** The lines of a file, numbered from 1. *)
Definition fileLine (fileContent : string) (n : Z) : string :=
  nth (Z.to_nat (n - 1)) (JS.split "010"%char fileContent) "".

Definition lineCount (fileContent : string) : Z :=
  Z.of_nat (List.length (JS.split "010"%char fileContent)).

(** A file of six lines. *)
Definition sixLines : string := JS.join newline ["a"; "b"; "c"; "d"; "e"; "f"].

(** Lines for the examples. *)
Definition changedAt (n : Z) : ChangedLine :=
  {| lineNumber := n; content := "x"; type := Added |}.

End Diff.

(** ** [FilePathSchema] and the validation without a workspace root *)

Module Schema.
Import Security.

(** [validateFilePathOriginal]: the checks on the text of the path; it
    reports nothing and returns nothing. *)
Definition validateFilePathOriginal (h : Host) (filePath : string) : Exn unit :=
  if JS.includes filePath JS.NULs
  then Throw (SecurityError "Null bytes in path not allowed")
  else if (filePath =? "") || (Nat.eqb (String.length (JS.trim filePath)) 0)
  then Throw (SecurityError "File path cannot be empty")
  else
    let normalized := path_normalize (path h) filePath in
    if path_isAbsolute (path h) normalized
    then Throw (SecurityError "Absolute paths not allowed")
    else
      let lowerPath := JS.toLowerCase normalized in
      if existsb (fun pattern => JS.includes lowerPath pattern) encodedPatterns
      then Throw (SecurityError "Encoded path traversal not allowed")
      else
        let segments := JS.split (path_sep (path h)) normalized in
        if existsb (fun seg => seg =? "..") segments
        then Throw (SecurityError "Path traversal not allowed")
        else if (platform h =? "win32") && JS.startsWith normalized "\\"
        then Throw (SecurityError "UNC paths not allowed")
        else if (platform h =? "win32") && hasDriveLetter normalized
        then Throw (SecurityError "Windows drive letters not allowed")
        else Ok tt.

(** The function handed to [refine]: [workspaceRoot] is the module-level
    variable that [setWorkspaceRoot] writes, [null] at the start; the empty
    string is falsy as [null] is. *)
Definition refinement (h : Host) (workspaceRoot : option string) (filePath : string)
  : bool * Telemetry :=
  match workspaceRoot with
  | Some (String c root) =>
      match validateFilePath h filePath (String c root) with
      | (Ok _, t) => (true, t)
      | (Throw _, t) => (false, t)
      end
  | _ =>
      match validateFilePathOriginal h filePath with
      | Ok _ => (true, [])
      | Throw _ => (false, [])
      end
  end.

(** Whether [FilePathSchema] accepts a string: [min(1)], [max(4096)] and the
    refinement. *)
Definition FilePathSchema (h : Host) (workspaceRoot : option string) (filePath : string)
  : bool :=
  Nat.leb 1 (String.length filePath)
  && Nat.leb (String.length filePath) 4096
  && fst (refinement h workspaceRoot filePath).

(** [setWorkspaceRoot] has been called with a non-empty root. *)
Definition rootSet (workspaceRoot : option string) : bool :=
  match workspaceRoot with Some (String _ _) => true | _ => false end.

End Schema.

(** ** [authenticate] ([auth.ts]) in front of the tool handler *)

Module Handler.
Import Tools.

(** What [auth.api.verifyApiKey] resolves to, as far as [authenticate] reads
    it; [permissionKeys] is [Object.keys(verified.permissions || {})]. *)
Record Verified (M : Type) := {
  isValid : bool;
  metadata : option M;
  permissionKeys : list string;
  verifiedUserId : option string;
}.
Arguments isValid {M} _.
Arguments metadata {M} _.
Arguments permissionKeys {M} _.
Arguments verifiedUserId {M} _.

Definition invalidKey : AuthResult :=
  {| valid := false; tier := TierFree; scopes := None; userId := None;
     organizationId := None; error := Some "Invalid API key" |}.

Definition serviceUnavailable : AuthResult :=
  {| valid := false; tier := TierFree; scopes := None; userId := None;
     organizationId := None; error := Some "Authentication service unavailable" |}.

(** What one call of [authenticate] gives: the result, the cache afterwards,
    and whether [verifyApiKey] was called. *)
Record Authenticated (C : Type) := {
  result : AuthResult;
  cache : C;
  asked : bool;
}.
Arguments result {C} _.
Arguments cache {C} _.
Arguments asked {C} _.

Section Authenticate.
(** The key metadata of [@snapback/auth], the cache of [lru-cache] with its
    [get] and [set], [verifyApiKey] of better-auth, and [getTierFromMetadata]
    of [@snapback/auth/lib/tier-utils]. *)
Context {M C : Type}.
Variable cacheGet : string -> C -> option (Z * AuthResult).
Variable cacheSet : string -> Z * AuthResult -> C -> C.
Variable verifyApiKey : string -> Exn (option (Verified M)).
Variable getTierFromMetadata : option M -> AuthTier.
Variable organizationIdOf : M -> option string.

(** The cache has nothing for the key that [authenticate] would use. *)
Definition cacheMiss (apiKey : string) (now : Z) (c : C) : bool :=
  match cacheGet apiKey c with
  | Some (timestamp, _) => negb (now - timestamp <? 60000)%Z
  | None => true
  end.

(** The part of [authenticate] after the cache has been looked at. *)
Definition verify (apiKey : string) (now : Z) (c : C) : Authenticated C :=
  match verifyApiKey apiKey with
  | Throw _ => {| result := serviceUnavailable; cache := c; asked := true |}
  | Ok None =>
      {| result := invalidKey; cache := cacheSet apiKey (now, invalidKey) c; asked := true |}
  | Ok (Some verified) =>
      if negb (isValid verified)
      then {| result := invalidKey; cache := cacheSet apiKey (now, invalidKey) c;
              asked := true |}
      else
        let authResult :=
          {| valid := true;
             tier := getTierFromMetadata (metadata verified);
             scopes := Some (permissionKeys verified);
             userId := verifiedUserId verified;
             organizationId :=
               match metadata verified with
               | Some m => organizationIdOf m
               | None => None
               end;
             error := None |} in
        {| result := authResult; cache := cacheSet apiKey (now, authResult) c;
           asked := true |}
  end.

Definition authenticate (apiKey : string) (now : Z) (c : C) : Authenticated C :=
  match cacheGet apiKey c with
  | Some (timestamp, cachedResult) =>
      if (now - timestamp <? 60000)%Z
      then {| result := cachedResult; cache := c; asked := false |}
      else verify apiKey now c
  | None => verify apiKey now c
  end.

(** The handler of [CallToolRequestSchema] from its first line: the key is
    [process.env.SNAPBACK_API_KEY || ""]. *)
Definition handleToolCall {W} (d : Deps W) (SNAPBACK_API_KEY : option string)
           (now : Z) (c : C) (name : string) (args : option Json) (w : W)
  : Response * W * C :=
  let apiKey := JS.orString SNAPBACK_API_KEY "" in
  let authenticated := authenticate apiKey now c in
  let '(response, w') := callTool d (result authenticated) name args w in
  (response, w', cache authenticated).

End Authenticate.

(** A cache as a function from keys, for the examples. *)
Definition emptyCache : string -> option (Z * AuthResult) := fun _ => None.

Definition remember (apiKey : string) (entry : Z * AuthResult)
           (c : string -> option (Z * AuthResult)) : string -> option (Z * AuthResult) :=
  fun k => if k =? apiKey then Some entry else c k.

(** An authentication service that is down. *)
Definition down : string -> Exn (option (Verified unit)) :=
  fun _ => Throw (ErrorObject PlainError "ECONNREFUSED").

(** The names that every plain object answers to, inherited from
    [Object.prototype]: [toolPermissions[toolName]] is not [undefined] for
    them, although the table of [hasToolAccess] has no entry of its own
    under these names. *)
Definition objectPrototypeMembers : list string :=
  ["constructor"; "__defineGetter__"; "__defineSetter__"; "hasOwnProperty";
   "__lookupGetter__"; "__lookupSetter__"; "isPrototypeOf"; "propertyIsEnumerable";
   "toString"; "valueOf"; "__proto__"; "toLocaleString"].

Definition inherited (name : string) : bool :=
  existsb (fun member => member =? name) objectPrototypeMembers.

(** The answer of the outer [catch] when [NODE_ENV] is neither
    [development] nor [test]. *)
Definition internalError (logId : string) : Response :=
  {| content :=
       [TextContent ("An internal error occurred. Contact support with log ID."
                       ++ " (Log ID: " ++ logId ++ ")")];
     isError := true;
     errorInfo :=
       Some {| err_message := "An internal error occurred. Contact support with log ID.";
               err_code := "INTERNAL_ERROR" |} |}.

(** The summary [listSnapshots] makes of a snapshot. *)
Definition summaryOf (snapshot : Snapshot) : SnapshotSummary :=
  {| sum_id := id snapshot;
     sum_timestamp := timestamp snapshot;
     sum_reason := JS.orString (meta_name snapshot) "Snapshot";
     sum_fileCount := fileCount snapshot |}.

(** Newest first. *)
Definition newestFirst (l : list SnapshotSummary) : Prop :=
  StronglySorted (fun a b => (sum_timestamp b <= sum_timestamp a)%Z) l.

(** A manager whose [list] throws. *)
Definition brokenStore : SnapshotManager unit := {|
  mgr_get := fun _ w => (Ok None, w);
  mgr_restore := fun _ _ w =>
    (Throw (ErrorObject PlainError "SQLITE_CANTOPEN: /home/u/.snapback/snapshots.db"), w);
  mgr_list := fun w =>
    (Throw (ErrorObject PlainError "SQLITE_CANTOPEN: /home/u/.snapback/snapshots.db"), w);
|}.

(** A manager that finds the snapshot and fails to restore it. *)
Definition brokenRestore : SnapshotManager unit := {|
  mgr_get := fun snapshotId w =>
    (Ok (Some {| id := snapshotId; timestamp := 0%Z; meta_name := None;
                 files := None; fileContents := None |}), w);
  mgr_restore := fun _ _ w =>
    (Throw (ErrorObject PlainError "EACCES: permission denied, open '/home/u/app/a.ts'"), w);
  mgr_list := fun w => (Ok [], w);
|}.

Definition productionDeps : Deps unit := {|
  hasPermissionForTier := fun _ _ => true;
  manager := brokenStore;
  zodIssues := fun _ => "invalid arguments";
  isDevelopment := false;
  logId := "ERR-0-000000000";
  createSnapshotTool := fun _ w => (Throw (ErrorObject PlainError "EACCES: /var/lib/x"), w);
  otherTool := fun name _ w => (Throw (ErrorObject PlainError ("Unknown tool: " ++ name)), w);
|}.

End Handler.

(** ** SARIF logs built up result by result *)

Module SarifLogs.
Import Sarif.

(** The arguments of one call of [addResult]. *)
Record Finding := {
  rule : string;
  text : string;
  uri : option string;
  where_ : option Region;
}.

(** The result [addResult] makes of them. *)
Definition resultOf (f : Finding) : Result :=
  {| ruleId := rule f;
     messageText := text f;
     locations :=
       if truthy (uri f) || (match where_ f with Some _ => true | None => false end)
       then Some [ {| artifactLocation := if truthy (uri f) then uri f else None;
                      region := where_ f |} ]
       else None |}.

(** [addResult] called for each finding in turn ([forEach]). *)
Definition addAll (log : SarifLog) (findings : list Finding) : SarifLog :=
  fold_left (fun log f => addResult log (rule f) (text f) (uri f) (where_ f)) findings log.

Definition resultsOf (run : Run) : list Result :=
  match results run with Some rs => rs | None => [] end.

(** The results of all runs of a log. *)
Definition allResults (log : SarifLog) : list Result := flat_map resultsOf (runs log).

End SarifLogs.

(** ** The analysis plugins *)

Module Plugin.

Inductive Severity := Low | Medium | High | Critical.

(** [AnalysisResult] of [@snapback/core] as the plugins fill it; the early
    returns leave [severity] out. *)
Record AnalysisResult := {
  score : Q;
  factors : list string;
  recommendations : list string;
  severity : option Severity;
}.

(** [severityLevels.indexOf(s)] for the list low, medium, high, critical and
    for its first three. *)
Definition level (s : Severity) : Z :=
  match s with Low => 0 | Medium => 1 | High => 2 | Critical => 3 end.

(** [maxSeverity] after [if (indexOf(s) > indexOf(maxSeverity)) maxSeverity = s]. *)
Definition raise (maxSeverity s : Severity) : Severity :=
  if (level maxSeverity <? level s)%Z then s else maxSeverity.

(** [array.filter((_, index) => keep(index))], the indices counted from
    [index] on. *)
Fixpoint filterFrom {A} (keep : Z -> bool) (index : Z) (l : list A) : list A :=
  match l with
  | [] => []
  | x :: rest =>
      if keep index then x :: filterFrom keep (index + 1)%Z rest
      else filterFrom keep (index + 1)%Z rest
  end.

(** [getLinesToAnalyze]: [changedLines] is absent when [metadata] or
    [metadata.changedLines] is falsy; an array, the empty one too, is truthy. *)
Definition getLinesToAnalyze (content : string) (changedLines : option (list Z))
  : list string :=
  let allLines := JS.split "010"%char content in
  match changedLines with
  | None => allLines
  | Some numbers =>
      filterFrom (fun index => existsb (Z.eqb (index + 1)%Z) numbers) 0%Z allLines
  end.

(** Line [n], counted from 1, is among the lines to analyze. *)
Definition selected (changedLines : option (list Z)) (n : Z) : bool :=
  match changedLines with
  | None => true
  | Some numbers => existsb (Z.eqb n) numbers
  end.

(** [s.endsWith(suffix)] *)
Definition endsWith (s suffix : string) : bool :=
  String.prefix (JS.rev_string suffix) (JS.rev_string s).

End Plugin.

Module DangerousApi.
Import Plugin.

(** *** The regular expressions, for code units below 256 *)

(** [\w] *)
Definition isWordChar (c : ascii) : bool :=
  let n := nat_of_ascii c in
  (Nat.leb 48 n && Nat.leb n 57) || (Nat.leb 65 n && Nat.leb n 90)
  || (Nat.leb 97 n && Nat.leb n 122) || Nat.eqb n 95.

(** What is left of [s] after [p], when [s] starts with [p]. *)
Fixpoint stripPrefix (p s : string) : option string :=
  match p, s with
  | EmptyString, _ => Some s
  | String a p', String b s' => if Ascii.eqb a b then stripPrefix p' s' else None
  | String _ _, EmptyString => None
  end.

(** [\s*\(] matches at the start of [s]. *)
Definition opensCall (s : string) : bool :=
  match JS.trimStart s with
  | String c _ => Ascii.eqb c "("%char
  | EmptyString => false
  end.

(** [name\s*\(] matches at the start of [s]. *)
Definition callHere (name s : string) : bool :=
  match stripPrefix name s with
  | Some rest => opensCall rest
  | None => false
  end.

(** [new\s+Function\s*\(] matches at the start of [s]. *)
Definition newFunctionHere (s : string) : bool :=
  match stripPrefix "new" s with
  | Some (String c rest) => JS.isWhiteSpace c && callHere "Function" (JS.trimStart rest)
  | _ => false
  end.

(** [/\b.../.test(s)] for a pattern that starts with a word character:
    [here] matches at a place of [s] that is not after a word character. *)
Fixpoint searchFrom (here : string -> bool) (afterWord : bool) (s : string) : bool :=
  (negb afterWord && here s)
  || match s with
     | EmptyString => false
     | String c rest => searchFrom here (isWordChar c) rest
     end.

(** Whether [searchFrom] stands after a word character once it has passed
    [passed]. *)
Fixpoint flagAfter (afterWord : bool) (passed : string) : bool :=
  match passed with
  | EmptyString => afterWord
  | String c rest => flagAfter (isWordChar c) rest
  end.

(** [/\bname\s*\(/.test(line)] *)
Definition calls (name line : string) : bool := searchFrom (callHere name) false line.

(** [/\bnew\s+Function\s*\(/.test(line)] *)
Definition callsNewFunction (line : string) : bool := searchFrom newFunctionHere false line.

(** *** The plugin *)

(** [isComment] *)
Definition isComment (line : string) : bool :=
  let trimmed := JS.trim line in
  JS.startsWith trimmed "//" || JS.startsWith trimmed "#"
  || JS.startsWith trimmed "/*" || JS.startsWith trimmed "*".

Definition when (b : bool) (finding : string) : list string :=
  if b then [finding] else [].

(** The body of the loop of [detectDangerousAPIs] for a line that is not
    skipped. *)
Definition detectInLine (line : string) : list string :=
  (when (calls "eval" line) "eval() usage detected"
   ++ when (callsNewFunction line || calls "Function" line)
           "Function constructor usage detected"
   ++ when (calls "child_process.exec" line || calls "exec" line)
           "child_process.exec() usage detected"
   ++ when (calls "child_process.execSync" line) "child_process.execSync() usage detected"
   ++ when (calls "child_process.spawn" line) "child_process.spawn() usage detected"
   ++ when (calls "vm.runInThisContext" line) "vm.runInThisContext() usage detected"
   ++ when (calls "vm.runInNewContext" line) "vm.runInNewContext() usage detected")%list.

Definition detectDangerousAPIs (lines : list string) : list string :=
  flat_map (fun line => if isComment line then [] else detectInLine line) lines.

Definition analyze (content : string) (changedLines : option (list Z)) : AnalysisResult :=
  let linesToAnalyze := getLinesToAnalyze content changedLines in
  let dangerousAPIFindings := detectDangerousAPIs linesToAnalyze in
  let found := negb (Nat.eqb (List.length dangerousAPIFindings) 0) in
  let factors :=
    if found
    then map (fun f => "Dangerous API detected: " ++ f) dangerousAPIFindings
    else [] in
  let maxSeverity := if found then raise Low High else Low in
  let score :=
    if negb (Nat.eqb (List.length factors) 0)
    then match maxSeverity with High => (8 # 10)%Q | _ => (5 # 10)%Q end
    else 0%Q in
  let recommendations :=
    if negb (Nat.eqb (List.length factors) 0)
    then ["Avoid using dangerous APIs that can execute arbitrary code";
          "Use safer alternatives or properly sanitize inputs"]
    else [] in
  {| score := score; factors := factors; recommendations := recommendations;
     severity := Some maxSeverity |}.

(** A line that is looked at and in which one of the patterns matches. *)
Definition dangerous (line : string) : bool :=
  negb (isComment line)
  && (calls "eval" line || calls "Function" line || calls "exec" line
      || calls "child_process.execSync" line || calls "child_process.spawn" line
      || calls "vm.runInThisContext" line || calls "vm.runInNewContext" line).

(** The line of [content] with number [n], counted from 1, if there is one. *)
Definition lineNumbered (content : string) (n : Z) : option string :=
  if (n <? 1)%Z then None else nth_error (JS.split "010"%char content) (Z.to_nat (n - 1)).

End DangerousApi.

Module EnvHygiene.
Import Plugin.

(** The regular expressions of the plugin, by what [match] and [test] give
    for a line: the groups of the first key pattern, which has one, the
    groups of the second, which has two, and the four tests for insecure
    settings. *)
Record Patterns := {
  keyLikeNamed : string -> option string;
  keyLikeUpper : string -> option (string * string);
  debugOn : string -> bool;
  sslOff : string -> bool;
  developmentEnv : string -> bool;
  verboseLog : string -> bool;
}.

Definition withKeyLikeNamed (named : string -> option string) (p : Patterns) : Patterns :=
  {| keyLikeNamed := named; keyLikeUpper := keyLikeUpper p; debugOn := debugOn p;
     sslOff := sslOff p; developmentEnv := developmentEnv p; verboseLog := verboseLog p |}.

Record Entry := {
  key : string;
  value : string;
}.

Definition nonSensitiveKeys : list string :=
  ["node_env"; "port"; "host"; "debug"; "log_level"].

(** The body of the loop over the patterns once [line.match(pattern)] has
    given [groups], the captured groups from the first on: the entry that is
    pushed, if one is. *)
Definition entryOf (groups : list string) : option Entry :=
  match groups with
  | [] => None
  | first :: more =>
      let key := JS.trim first in
      let value :=
        match more with
        | String c rest :: _ => JS.trim (String c rest)
        | _ => ""
        end in
      if (value =? "") || JS.includes value "your" || JS.includes value "example"
         || JS.includes value "placeholder"
      then None
      else if JS.startsWith value "$" || JS.includes value "${"
      then None
      else if existsb (fun nsKey => JS.includes (JS.toLowerCase key) nsKey) nonSensitiveKeys
      then None
      else Some {| key := key; value := value |}
  end.

(** Comments and empty lines *)
Definition skipped (line : string) : bool :=
  JS.startsWith (JS.trim line) "#" || (JS.trim line =? "").

Definition pushed (groups : option (list string)) : list Entry :=
  match groups with
  | Some gs => match entryOf gs with Some entry => [entry] | None => [] end
  | None => []
  end.

Definition detectKeyLikeEntries (p : Patterns) (lines : list string) : list Entry :=
  flat_map (fun line =>
              if skipped line then []
              else (pushed (option_map (fun g => [g]) (keyLikeNamed p line))
                    ++ pushed (option_map (fun g => [fst g; snd g]) (keyLikeUpper p line)))%list)
           lines.

Definition when (b : bool) (message : string) : list string :=
  if b then [message] else [].

Definition detectInsecureConfigurations (p : Patterns) (lines : list string) : list string :=
  flat_map (fun line =>
              if skipped line then []
              else (when (debugOn p line) "Debug mode enabled"
                    ++ when (sslOff p line) "SSL disabled"
                    ++ when (developmentEnv p line) "Development environment in production"
                    ++ when (verboseLog p line) "Verbose logging level")%list)
           lines.

Definition isEnvFile (filePath : option string) : bool :=
  match filePath with
  | Some (String c rest) =>
      let path := String c rest in
      endsWith path ".env" || endsWith path ".env.local"
      || endsWith path ".env.development" || endsWith path ".env.production"
  | _ => false
  end.

Definition isEnvExample (filePath : option string) : bool :=
  match filePath with
  | Some (String c rest) =>
      endsWith (String c rest) ".env.example" || endsWith (String c rest) ".env.sample"
  | _ => false
  end.

Definition nothing : AnalysisResult :=
  {| score := 0%Q; factors := []; recommendations := []; severity := None |}.

Definition nonEmpty {A} (l : list A) : bool := negb (Nat.eqb (List.length l) 0).

Definition analyze (p : Patterns) (content : string) (filePath : option string)
           (changedLines : option (list Z)) : AnalysisResult :=
  if isEnvExample filePath then nothing
  else if negb (isEnvFile filePath) then nothing
  else
    let linesToAnalyze := getLinesToAnalyze content changedLines in
    let keyLikeEntries := detectKeyLikeEntries p linesToAnalyze in
    let factors1 :=
      if nonEmpty keyLikeEntries
      then map (fun entry => "Key-like entry detected: " ++ key entry) keyLikeEntries
      else [] in
    let maxSeverity1 := if nonEmpty keyLikeEntries then raise Low High else Low in
    let insecureConfigs := detectInsecureConfigurations p linesToAnalyze in
    let factors :=
      if nonEmpty insecureConfigs
      then (factors1 ++ map (fun config => ("Insecure configuration: " ++ config)%string)
                            insecureConfigs)%list
      else factors1 in
    let maxSeverity :=
      if nonEmpty insecureConfigs then raise maxSeverity1 Medium else maxSeverity1 in
    let score :=
      if nonEmpty factors
      then match maxSeverity with
           | High => (8 # 10)%Q
           | Medium => (5 # 10)%Q
           | _ => (3 # 10)%Q
           end
      else 0%Q in
    let recommendations :=
      if nonEmpty factors
      then ["Move secrets to secure secret management systems";
            "Use .env.example as a template without actual values";
            "Review all key-like entries for sensitive data"]
      else [] in
    {| score := score; factors := factors; recommendations := recommendations;
       severity := Some maxSeverity |}.

(** The entries that the second key pattern gives for the lines. *)
Definition upperEntries (p : Patterns) (lines : list string) : list Entry :=
  flat_map (fun line =>
              if skipped line then []
              else pushed (option_map (fun g => [fst g; snd g]) (keyLikeUpper p line)))
           lines.

(** Patterns for the examples, for lines without blanks: the first key
    pattern matches the lines that name a key, with what follows the [=] as
    its group; the second takes a line [KEY=value] apart when the key is
    made of capitals, digits and underscores and starts with a capital. *)
Fixpoint splitAtEquals (s : string) : option (string * string) :=
  match s with
  | EmptyString => None
  | String c rest =>
      if Ascii.eqb c "="%char then Some (EmptyString, rest)
      else match splitAtEquals rest with
           | Some (k, v) => Some (String c k, v)
           | None => None
           end
  end.

Definition isCapital (c : ascii) : bool :=
  Nat.leb 65 (nat_of_ascii c) && Nat.leb (nat_of_ascii c) 90.

Definition isKeyChar (c : ascii) : bool :=
  isCapital c || (Nat.leb 48 (nat_of_ascii c) && Nat.leb (nat_of_ascii c) 57)
  || Ascii.eqb c "_"%char.

Definition samplePatterns : Patterns := {|
  keyLikeNamed := fun line =>
    match splitAtEquals line with
    | Some (k, v) => if JS.includes (JS.toLowerCase k) "key" then Some v else None
    | None => None
    end;
  keyLikeUpper := fun line =>
    match splitAtEquals line with
    | Some (String c k, String d v) =>
        if isCapital c && forallb isKeyChar (list_ascii_of_string k)
        then Some (String c k, String d v) else None
    | _ => None
    end;
  debugOn := fun line => JS.includes (JS.toLowerCase line) "debug=true";
  sslOff := fun line => JS.includes (JS.toLowerCase line) "ssl=false";
  developmentEnv := fun line => JS.includes (JS.toLowerCase line) "node_env=development";
  verboseLog := fun line => JS.includes (JS.toLowerCase line) "log_level=debug";
|}.

End EnvHygiene.

Module DepsHygiene.
Import Plugin.

(** *** The OSV data, as far as the plugin reads it *)

Record SeverityEntry := {
  sev_type : string;
  sev_score : string;
}.

(** [name] is [affected.package.name], absent when [affected.package] is. *)
Record Affected := {
  packageName : option string;
  versions : option (list string);
}.

Record Vulnerability := {
  vulnId : string;
  vulnSeverity : option (list SeverityEntry);
  affected : option (list Affected);
}.

Record OsvData := {
  vulnerabilities : option (list Vulnerability);
}.

(** *** [getVulnSeverity] *)

(** The base score the plugin reads off a CVSS vector. *)
Definition baseScoreOf (vector : string) : Q :=
  if JS.includes vector "/AC:L/" then (75 # 10)%Q
  else if JS.includes vector "/AC:H/" then (71 # 10)%Q
  else 5%Q.

Definition rating (baseScore : Q) : string :=
  if Qle_bool 9 baseScore then "CRITICAL"
  else if Qle_bool 7 baseScore then "HIGH"
  else if Qle_bool 4 baseScore then "MEDIUM"
  else "LOW".

(** The loop over [vuln.severity]: it returns at the first entry of type
    [CVSS_V3]. *)
Fixpoint firstCvss (entries : list SeverityEntry) : option string :=
  match entries with
  | [] => None
  | entry :: rest =>
      if sev_type entry =? "CVSS_V3" then Some (rating (baseScoreOf (sev_score entry)))
      else firstCvss rest
  end.

Definition getVulnSeverity (vuln : Vulnerability) : string :=
  match vulnSeverity vuln with
  | Some entries =>
      match firstCvss entries with
      | Some found => found
      | None => "MEDIUM"
      end
  | None => "MEDIUM"
  end.

(** *** [findVulnerabilities] *)

Record Found := {
  foundId : string;
  foundSeverity : string;
}.

Definition affects (pkgName version : string) (a : Affected) : bool :=
  match packageName a with
  | Some name =>
      (name =? pkgName)
      && match versions a with
         | Some listed => existsb (fun v => v =? version) listed
         | None => false
         end
  | None => false
  end.

Definition findVulnerabilities (osvData : OsvData) (pkgName version : string) : list Found :=
  match vulnerabilities osvData with
  | Some vulns =>
      flat_map (fun vuln =>
                  match affected vuln with
                  | Some places =>
                      map (fun _ => {| foundId := vulnId vuln;
                                       foundSeverity := getVulnSeverity vuln |})
                          (filter (affects pkgName version) places)
                  | None => []
                  end)
               vulns
  | None => []
  end.

(** *** [loadOsvData] *)

(** The host: [SNAPBACK_NO_NETWORK], and the fixture file as reading and
    parsing it goes: absent, read and parsed (to a falsy value or to the
    data), or an error thrown on the way. *)
Inductive Fixture :=
| NoFixture
| Parsed (data : option OsvData)
| Unreadable.

Record Host := {
  SNAPBACK_NO_NETWORK : option string;
  fixture : Fixture;
}.

(** [loadOsvData] with [this.osvData] as it is before: what it resolves to
    and [this.osvData] afterwards. *)
Definition loadOsvData (h : Host) (cached : option OsvData)
  : option OsvData * option OsvData :=
  match cached with
  | Some data => (Some data, cached)
  | None =>
      match SNAPBACK_NO_NETWORK h with
      | Some "true" =>
          match fixture h with
          | Parsed data => (data, data)
          | NoFixture | Unreadable => (None, None)
          end
      | _ => (None, None)
      end
  end.

(** *** [analyze] *)

Definition nothing : AnalysisResult :=
  {| score := 0%Q; factors := []; recommendations := []; severity := None |}.

(** [vulnSeverity] for what [getVulnSeverity] gave *)
Definition severityOf (found : string) : Severity :=
  if found =? "CRITICAL" then Critical
  else if found =? "HIGH" then High
  else if found =? "LOW" then Low
  else Medium.

(** The inner loop over the vulnerabilities found for one dependency. *)
Definition record (pkgName version : string) (st : list string * Severity) (vuln : Found)
  : list string * Severity :=
  let '(factors, maxSeverity) := st in
  ((factors ++ [("Vulnerable dependency: " ++ pkgName ++ "@" ++ version
                   ++ " (" ++ foundId vuln ++ ")")%string])%list,
   raise maxSeverity (severityOf (foundSeverity vuln))).

(** The loop over [Object.entries(dependencies)]; a version that is not a
    string is skipped. *)
Definition scan (osvData : OsvData) (st : list string * Severity)
           (dependency : string * Tools.Json) : list string * Severity :=
  match dependency with
  | (pkgName, Tools.JString version) =>
      fold_left (record pkgName version) (findVulnerabilities osvData pkgName version) st
  | _ => st
  end.

(** [analyze]: [parsed] is what [JSON.parse(content)] and the merging of
    [dependencies] and [devDependencies] give: an error thrown by the
    parse, [null] (on which reading [dependencies] throws), or the entries of
    the merged object in the order of [Object.entries]. *)
Definition analyze (h : Host) (cached : option OsvData)
           (parsed : Exn (option (list (string * Tools.Json))))
           (filePath : option string) : Exn AnalysisResult * option OsvData :=
  match filePath with
  | Some (String c rest) =>
      if negb (endsWith (String c rest) "package.json") then (Ok nothing, cached)
      else
        match parsed with
        | Throw _ => (Ok nothing, cached)
        | Ok pkg =>
            match loadOsvData h cached with
            | (None, cached') => (Ok nothing, cached')
            | (Some osvData, cached') =>
                match pkg with
                | None =>
                    (Throw (ErrorObject PlainError
                              "Cannot read properties of null (reading 'dependencies')"),
                     cached')
                | Some dependencies =>
                    let '(factors, maxSeverity) :=
                      fold_left (scan osvData) dependencies ([], Low) in
                    let found := negb (Nat.eqb (List.length factors) 0) in
                    let score :=
                      if found
                      then match maxSeverity with
                           | Critical => (95 # 100)%Q
                           | High => (8 # 10)%Q
                           | Medium => (5 # 10)%Q
                           | Low => (3 # 10)%Q
                           end
                      else 0%Q in
                    let recommendations :=
                      if found
                      then ["Update vulnerable dependencies to patched versions";
                            "Run 'npm audit' for detailed vulnerability information"]
                      else [] in
                    (Ok {| score := score; factors := factors;
                           recommendations := recommendations;
                           severity := Some maxSeverity |},
                     cached')
                end
            end
        end
  | _ => (Ok nothing, cached)
  end.

(** What the loops keep of [factors] and [maxSeverity]: no factor and low,
    or some factor and medium or high. *)
Definition kept (st : list string * Severity) : Prop :=
  (fst st = [] /\ snd st = Low)
  \/ (fst st <> [] /\ (snd st = Medium \/ snd st = High)).

(** The verdicts the plugin can come to. *)
Definition verdicts : list (Q * option Severity) :=
  [(0%Q, None); (0%Q, Some Low); ((5 # 10)%Q, Some Medium); ((8 # 10)%Q, Some High)].

(** An advisory of the highest CVSS rating for [lodash] 4.17.20, and the
    host of a test run. *)
Definition advisory : OsvData := {|
  vulnerabilities :=
    Some [ {| vulnId := "GHSA-0000";
              vulnSeverity :=
                Some [ {| sev_type := "CVSS_V3";
                          sev_score := "CVSS:3.1/AV:N/AC:L/PR:N/UI:N/S:C/C:H/I:H/A:H" |} ];
              affected := Some [ {| packageName := Some "lodash";
                                    versions := Some ["4.17.20"] |} ] |} ];
|}.

Definition offline : Host :=
  {| SNAPBACK_NO_NETWORK := Some "true"; fixture := Parsed (Some advisory) |}.

End DepsHygiene.

(** * Properties *)

(** ** The path validator ([validateFilePath]) *)

Module SecurityFacts.
Import Security.

Lemma substring0_length (n : nat) (s : string) :
  String.length (JS.substring0 n s) <= n.
Proof.
  unfold JS.substring0. revert s.
  induction n as [|n IH]; intros [|c s]; simpl; try lia.
  specialize (IH s). lia.
Qed.

Lemma reject_reported {A} (h : Host) (x reason message : string)
      (rest : list (string * string)) :
  In ("reason", reason) rest ->
  exists t, @reject A h (("filePath", JS.substring0 100 x) :: rest) message
            = (Throw (SecurityError message), t)
            /\ reported h t reason.
Proof.
  intros Hin. unfold reject, trackSecurityViolation, reported.
  destruct (telemetryClient h).
  - eexists. split; [reflexivity|].
    exists (JS.substring0 100 x), rest. repeat split; auto using substring0_length.
  - eexists. split; reflexivity.
Qed.

Ltac rejected reason :=
  match goal with
  | |- bodyOutcome ?h _ (reject ?h (("filePath", JS.substring0 100 ?x) :: ?rest) ?m) =>
      let t := fresh "t" in
      let E := fresh "E" in
      let R := fresh "R" in
      destruct (@reject_reported string h x reason m rest) as (t & E & R);
      [ simpl; tauto
      | rewrite E; simpl; exists reason; split; [exact R | split; [| discriminate]] ]
  end.

Ltac fixedShape := left; simpl; tauto.
Ltac pathShape :=
  right; eexists; eexists; split; [ simpl; eauto 8 | reflexivity ].

Lemma checkBoundary_outcome (h : Host) (workspaceRoot realPath : string) :
  bodyOutcome h workspaceRoot (checkBoundary h workspaceRoot realPath).
Proof.
  unfold checkBoundary.
  destruct (realpathSync (fs h) workspaceRoot) as [ws|m] eqn:Hroot.
  - destruct (negb (JS.startsWith realPath (ws ++ sepString h))
              && negb (realPath =? ws)) eqn:Hout.
    + rejected "outside_workspace".
      right. exists "Path outside workspace: ", (realPath ++ " not in " ++ ws).
      split; [simpl; tauto | reflexivity].
    + destruct (JS.includes realPath JS.NULs) eqn:Hnul.
      * rejected "null_bytes_resolved". fixedShape.
      * simpl. repeat split; auto.
        exists ws. split; [exact Hroot|].
        unfold inside.
        destruct (JS.startsWith realPath (ws ++ sepString h)); simpl in *; auto.
        destruct (realPath =? ws); simpl in *; auto.
  - simpl. reflexivity.
Qed.

Lemma resolveReal_outcome (h : Host) (workspaceRoot absolutePath : string) :
  bodyOutcome h workspaceRoot (resolveReal h workspaceRoot absolutePath).
Proof.
  unfold resolveReal.
  destruct (realpathSync (fs h) absolutePath) as [rp|m].
  - apply checkBoundary_outcome.
  - destruct (negb (existsSync (fs h) (path_dirname (path h) absolutePath))).
    + rejected "parent_not_exist". pathShape.
    + destruct (realpathSync (fs h) (path_dirname (path h) absolutePath)) as [rp|m'].
      * apply checkBoundary_outcome.
      * rejected "parent_resolution_failed". pathShape.
Qed.

Lemma validateBody_outcome (h : Host) (filePath workspaceRoot : string) :
  bodyOutcome h workspaceRoot (validateBody h filePath workspaceRoot).
Proof.
  unfold validateBody.
  destruct (JS.includes filePath JS.NULs).
  { rejected "null_bytes". fixedShape. }
  destruct ((filePath =? "") || Nat.eqb (String.length (JS.trim filePath)) 0).
  { rejected "empty_path". fixedShape. }
  destruct (find _ encodedPatterns).
  { rejected "encoded_traversal". fixedShape. }
  destruct (existsb _ _).
  { rejected "path_traversal". fixedShape. }
  destruct ((platform h =? "win32") && JS.startsWith _ _).
  { rejected "unc_path". fixedShape. }
  destruct ((platform h =? "win32") && hasDriveLetter _).
  { rejected "drive_letter". fixedShape. }
  apply resolveReal_outcome.
Qed.

Lemma validateFilePath_outcome (h : Host) (filePath workspaceRoot : string) :
  match validateFilePath h filePath workspaceRoot with
  | (Ok realPath, t) =>
      t = [] /\ JS.includes realPath JS.NULs = false
      /\ exists ws, realpathSync (fs h) workspaceRoot = Real ws
                    /\ inside h ws realPath = true
  | (Throw e, t) =>
      exists reason message,
        e = SecurityError message /\ reported h t reason /\ messageShape reason message
  end.
Proof.
  unfold validateFilePath.
  pose proof (validateBody_outcome h filePath workspaceRoot) as Hbody.
  destruct (validateBody h filePath workspaceRoot) as [[realPath|[cls m|v]] t];
    simpl in Hbody; try contradiction.
  - exact Hbody.
  - destruct cls; try contradiction.
    + subst t. exists "validation_exception", ("Path validation failed: " ++ m).
      split; [reflexivity|]. split.
      * unfold reported, trackSecurityViolation. simpl.
        destruct (telemetryClient h); [|reflexivity].
        exists (JS.substring0 100 filePath),
               [("reason", "validation_exception"); ("error", m)].
        repeat split; auto using substring0_length. simpl. tauto.
      * right. exists "Path validation failed: ", m. split; [simpl; tauto | reflexivity].
    + destruct Hbody as (reason & R & M & _). exists reason, m. auto.
Qed.

(** An input that passes the checks on the text of the path goes on to the
    file system with its absolute form. *)
Lemma validateBody_clean (h : Host) (filePath workspaceRoot : string) :
  JS.includes filePath JS.NULs = false ->
  ((filePath =? "") || Nat.eqb (String.length (JS.trim filePath)) 0) = false ->
  find (fun pattern => JS.includes (JS.toLowerCase (path_normalize (path h) filePath)) pattern)
       encodedPatterns = None ->
  existsb (fun seg => seg =? "..")
          (JS.split (path_sep (path h)) (path_normalize (path h) filePath)) = false ->
  (platform h =? "win32") = false ->
  validateBody h filePath workspaceRoot
  = resolveReal h workspaceRoot
      (if path_isAbsolute (path h) (path_normalize (path h) filePath)
       then path_normalize (path h) filePath
       else path_join (path h) workspaceRoot (path_normalize (path h) filePath)).
Proof.
  intros Hnul Hblank Henc Hseg Hplat. unfold validateBody.
  rewrite Hnul, Hblank, Henc, Hseg, Hplat. reflexivity.
Qed.

Lemma checkBoundary_inside (h : Host) (workspaceRoot realPath ws : string) :
  realpathSync (fs h) workspaceRoot = Real ws ->
  inside h ws realPath = true ->
  JS.includes realPath JS.NULs = false ->
  checkBoundary h workspaceRoot realPath = (Ok realPath, []).
Proof.
  intros Hroot Hin Hnul. unfold checkBoundary, inside in *. rewrite Hroot.
  destruct (JS.startsWith realPath (ws ++ sepString h)); simpl in *.
  - rewrite Hnul. reflexivity.
  - rewrite Hin. simpl. rewrite Hnul. reflexivity.
Qed.

Lemma dotdot_in_segments (segments : list string) :
  In ".." segments -> existsb (fun seg => seg =? "..") segments = true.
Proof.
  intros Hin. apply existsb_exists. exists "..". split; [exact Hin | reflexivity].
Qed.

Lemma find_none_existsb {A} (p : A -> bool) (l : list A) :
  find p l = None -> existsb p l = false.
Proof.
  induction l as [|x l IH]; simpl; [reflexivity|].
  destruct (p x); [discriminate | exact IH].
Qed.

Lemma existsb_false_find {A} (p : A -> bool) (l : list A) :
  existsb p l = false -> find p l = None.
Proof.
  induction l as [|x l IH]; simpl; [reflexivity|].
  destruct (p x); [discriminate | exact IH].
Qed.

(** The [catch] of [validateFilePath] rethrows a [SecurityError] as it is. *)
Lemma catch_rethrows (h : Host) (filePath workspaceRoot message : string)
      (details : list (string * string)) :
  validateBody h filePath workspaceRoot = reject h details message ->
  validateFilePath h filePath workspaceRoot = reject h details message.
Proof.
  intros Hbody. unfold validateFilePath. rewrite Hbody. reflexivity.
Qed.

Lemma textualReject_false (h : Host) (filePath : string) :
  textualReject h filePath = false ->
  JS.includes filePath JS.NULs = false
  /\ blank filePath = false
  /\ encodedPattern h filePath = None
  /\ hasDotDotSegment h filePath = false.
Proof.
  unfold textualReject. intros H.
  apply orb_false_elim in H. destruct H as (H & Hseg).
  apply orb_false_elim in H. destruct H as (H & Henc).
  apply orb_false_elim in H. destruct H as (Hnul & Hblank).
  split; [exact Hnul|]. split; [exact Hblank|]. split; [|exact Hseg].
  apply existsb_false_find. exact Henc.
Qed.

(** Past the checks on the text of the path come the two checks made on
    [win32], then the file system. *)
Lemma validateBody_text_passed (h : Host) (filePath workspaceRoot : string) :
  textualReject h filePath = false ->
  validateBody h filePath workspaceRoot
  = if (platform h =? "win32") && JS.startsWith (path_normalize (path h) filePath) "\\"
    then reject h [("filePath", JS.substring0 100 (path_normalize (path h) filePath));
                   ("reason", "unc_path")]
           "UNC paths not allowed"
    else if (platform h =? "win32") && hasDriveLetter (path_normalize (path h) filePath)
    then reject h [("filePath", JS.substring0 100 (path_normalize (path h) filePath));
                   ("reason", "drive_letter")]
           "Windows drive letters not allowed"
    else resolveReal h workspaceRoot (absolutePath h filePath workspaceRoot).
Proof.
  intros Htext. apply textualReject_false in Htext.
  destruct Htext as (Hnul & Hblank & Henc & Hseg).
  unfold blank in Hblank. unfold encodedPattern in Henc. unfold hasDotDotSegment in Hseg.
  unfold validateBody. rewrite Hnul, Hblank, Henc, Hseg. reflexivity.
Qed.

Lemma validateBody_reaches (h : Host) (filePath workspaceRoot : string) :
  textualReject h filePath = false ->
  windowsReject h filePath = false ->
  validateBody h filePath workspaceRoot
  = resolveReal h workspaceRoot (absolutePath h filePath workspaceRoot).
Proof.
  intros Htext Hwin. rewrite validateBody_text_passed by exact Htext.
  unfold windowsReject in Hwin.
  destruct (platform h =? "win32"); [|reflexivity].
  simpl in Hwin. apply orb_false_elim in Hwin. destruct Hwin as (Hunc & Hdrive).
  rewrite Hunc, Hdrive. reflexivity.
Qed.

Lemma resolveReal_resolved (h : Host) (workspaceRoot absolute realPath : string) :
  resolvedPath h absolute = Some realPath ->
  resolveReal h workspaceRoot absolute = checkBoundary h workspaceRoot realPath.
Proof.
  unfold resolvedPath, resolveReal. intros H.
  destruct (realpathSync (fs h) absolute) as [rp|m].
  - injection H as ->. reflexivity.
  - destruct (existsSync (fs h) (path_dirname (path h) absolute)); [|discriminate].
    simpl. destruct (realpathSync (fs h) (path_dirname (path h) absolute)); [|discriminate].
    injection H as ->. reflexivity.
Qed.

Lemma resolveReal_unresolved (h : Host) (workspaceRoot absolute : string) :
  resolvedPath h absolute = None ->
  isThrow (fst (resolveReal h workspaceRoot absolute)) = true.
Proof.
  unfold resolvedPath, resolveReal. intros H.
  destruct (realpathSync (fs h) absolute) as [rp|m]; [discriminate|].
  destruct (existsSync (fs h) (path_dirname (path h) absolute)); [|reflexivity].
  simpl. destruct (realpathSync (fs h) (path_dirname (path h) absolute));
    [discriminate | reflexivity].
Qed.

Lemma textualReject_throws (h : Host) (filePath workspaceRoot : string) :
  textualReject h filePath = true ->
  isThrow (fst (validateFilePath h filePath workspaceRoot)) = true.
Proof.
  unfold textualReject, validateFilePath, validateBody. intros Htext.
  destruct (JS.includes filePath JS.NULs); [reflexivity|].
  destruct ((filePath =? "") || Nat.eqb (String.length (JS.trim filePath)) 0);
    [reflexivity|].
  destruct (find _ encodedPatterns) eqn:Hfind; [reflexivity|].
  apply find_none_existsb in Hfind. rewrite Hfind in Htext. simpl in Htext.
  rewrite Htext. reflexivity.
Qed.

Lemma windowsReject_throws (h : Host) (filePath workspaceRoot : string) :
  textualReject h filePath = false ->
  windowsReject h filePath = true ->
  isThrow (fst (validateFilePath h filePath workspaceRoot)) = true.
Proof.
  intros Htext Hwin. unfold validateFilePath.
  rewrite validateBody_text_passed by exact Htext.
  unfold windowsReject in Hwin.
  destruct (platform h =? "win32"); [|discriminate].
  simpl in *.
  destruct (JS.startsWith (path_normalize (path h) filePath) "\\"); [reflexivity|].
  simpl in Hwin. rewrite Hwin. reflexivity.
Qed.

(** What a returned path is: the validator went through every check on the
    text, resolved the candidate, and found it inside the resolved root. *)
Lemma validateFilePath_returns (h : Host) (filePath workspaceRoot realPath : string)
      (t : Telemetry) :
  validateFilePath h filePath workspaceRoot = (Ok realPath, t) ->
  t = []
  /\ textualReject h filePath = false
  /\ windowsReject h filePath = false
  /\ resolvedPath h (absolutePath h filePath workspaceRoot) = Some realPath
  /\ JS.includes realPath JS.NULs = false
  /\ exists ws, realpathSync (fs h) workspaceRoot = Real ws
                /\ inside h ws realPath = true.
Proof.
  intros Hv.
  destruct (textualReject h filePath) eqn:Htext.
  { pose proof (textualReject_throws h filePath workspaceRoot Htext) as H.
    rewrite Hv in H. discriminate. }
  destruct (windowsReject h filePath) eqn:Hwin.
  { pose proof (windowsReject_throws h filePath workspaceRoot Htext Hwin) as H.
    rewrite Hv in H. discriminate. }
  pose proof (validateFilePath_outcome h filePath workspaceRoot) as Hout.
  rewrite Hv in Hout. destruct Hout as (Ht & Hnul & Hws).
  repeat split; auto.
  unfold validateFilePath in Hv.
  rewrite validateBody_reaches in Hv by assumption.
  destruct (resolvedPath h (absolutePath h filePath workspaceRoot)) as [rp|] eqn:Hres.
  - rewrite (resolveReal_resolved _ _ _ rp) in Hv by exact Hres.
    unfold checkBoundary in Hv.
    destruct (realpathSync (fs h) workspaceRoot) as [ws|m]; [|discriminate].
    destruct (negb (JS.startsWith rp (ws ++ sepString h)) && negb (rp =? ws));
      [discriminate|].
    destruct (JS.includes rp JS.NULs); [discriminate|].
    injection Hv as -> _. reflexivity.
  - pose proof (resolveReal_unresolved h workspaceRoot _ Hres) as H.
    destruct (resolveReal h workspaceRoot (absolutePath h filePath workspaceRoot))
      as [[r|e] t']; simpl in H; [discriminate|].
    destruct e as [[| |] m|v]; discriminate.
Qed.

(** The other way round. *)
Lemma validateFilePath_lets_through (h : Host) (filePath workspaceRoot ws realPath : string) :
  textualReject h filePath = false ->
  windowsReject h filePath = false ->
  resolvedPath h (absolutePath h filePath workspaceRoot) = Some realPath ->
  realpathSync (fs h) workspaceRoot = Real ws ->
  inside h ws realPath = true ->
  JS.includes realPath JS.NULs = false ->
  validateFilePath h filePath workspaceRoot = (Ok realPath, []).
Proof.
  intros Htext Hwin Hres Hroot Hin Hnul. unfold validateFilePath.
  rewrite validateBody_reaches by assumption.
  rewrite (resolveReal_resolved _ _ _ realPath) by exact Hres.
  rewrite (checkBoundary_inside _ _ _ ws); auto.
Qed.

(** *** File names on a POSIX host *)

Lemma includes_char_cons (c a : ascii) (s : string) :
  JS.includes (String a s) (String c EmptyString) = false ->
  Ascii.eqb a c = false /\ JS.includes s (String c EmptyString) = false.
Proof.
  simpl. intros H. apply orb_false_elim in H. destruct H as (Hpre & Hrest).
  split.
  - destruct (Ascii.eqb_spec a c) as [->|Hne]; [|reflexivity].
    destruct (ascii_dec c c) as [_|Hne]; [destruct s; discriminate | contradiction].
  - exact Hrest.
Qed.

Lemma split_no_separator (c : ascii) (s : string) :
  JS.includes s (String c EmptyString) = false -> JS.split c s = [s].
Proof.
  induction s as [|a s IH]; intros H; [reflexivity|].
  apply includes_char_cons in H. destruct H as (Hne & Hrest).
  simpl. rewrite Hne, (IH Hrest). reflexivity.
Qed.

Lemma endsWithSlash_no_separator (s : string) :
  JS.includes s "/" = false -> Posix.endsWithSlash s = false.
Proof.
  unfold Posix.endsWithSlash, Posix.lastChar.
  induction s as [|a s IH]; intros H; [reflexivity|].
  apply includes_char_cons in H. destruct H as (Hne & Hrest).
  destruct s as [|b s].
  - simpl. exact Hne.
  - specialize (IH Hrest). exact IH.
Qed.

(** [path.normalize] leaves a file name as it is. *)
Lemma normalize_fileName (name : string) :
  isFileName name = true -> name <> "" -> Posix.normalize name = name.
Proof.
  unfold isFileName. intros Hname Hne.
  apply andb_true_iff in Hname. destruct Hname as (Hname & Hdots).
  apply andb_true_iff in Hname. destruct Hname as (Hsep & Hdot).
  apply negb_true_iff in Hsep, Hdot, Hdots.
  destruct name as [|a r]; [contradiction|].
  unfold Posix.normalize.
  rewrite (endsWithSlash_no_separator _ Hsep).
  pose proof (includes_char_cons _ _ _ Hsep) as (Habs & _).
  change (Posix.isAbsolute (String a r)) with (Ascii.eqb a Posix.slash).
  change Posix.slash with "/"%char.
  rewrite (split_no_separator _ _ Hsep). rewrite Habs.
  cbn [Posix.normalizeSegments negb].
  change (String a r =? "") with false.
  rewrite Hdot, Hdots. cbn [orb Posix.normalizeSegments rev app JS.join].
  reflexivity.
Qed.

Lemma blank_nonempty (name : string) : blank name = false -> name <> "".
Proof.
  unfold blank. intros H ->. discriminate.
Qed.

(** A file name passes the checks on the text of the path unless it has a
    NUL, is blank, or includes an encoded traversal token; the validator
    looks for it in the workspace root. *)
Lemma fileName_passes (f : FileSystem) (telemetry : bool) (name workspaceRoot : string) :
  isFileName name = true ->
  JS.includes name JS.NULs = false ->
  blank name = false ->
  existsb (fun pattern => JS.includes (JS.toLowerCase name) pattern) encodedPatterns
  = false ->
  textualReject (posixHost f telemetry) name = false
  /\ windowsReject (posixHost f telemetry) name = false
  /\ absolutePath (posixHost f telemetry) name workspaceRoot
     = Posix.join workspaceRoot name.
Proof.
  intros Hname Hnul Hblank Henc.
  pose proof (normalize_fileName name Hname (blank_nonempty name Hblank)) as Hnorm.
  assert (Hsep : JS.includes name "/" = false).
  { unfold isFileName in Hname.
    destruct (JS.includes name "/"); [discriminate | reflexivity]. }
  assert (Hdots : (name =? "..") = false).
  { unfold isFileName in Hname.
    destruct (name =? ".."); [|reflexivity].
    rewrite andb_false_r in Hname. discriminate. }
  split; [|split].
  - unfold textualReject.
    change (path_normalize (path (posixHost f telemetry))) with Posix.normalize.
    change (path_sep (path (posixHost f telemetry))) with "/"%char.
    rewrite Hnorm, Hnul. unfold blank in Hblank. rewrite Hblank, Henc.
    rewrite (split_no_separator _ _ Hsep). simpl. rewrite Hdots. reflexivity.
  - reflexivity.
  - unfold absolutePath.
    change (path_normalize (path (posixHost f telemetry))) with Posix.normalize.
    rewrite Hnorm.
    change (path_isAbsolute (path (posixHost f telemetry))) with Posix.isAbsolute.
    destruct name as [|a r]; [discriminate|].
    pose proof (includes_char_cons _ _ _ Hsep) as (Habs & _).
    change (Posix.isAbsolute (String a r)) with (Ascii.eqb a "/"%char).
    rewrite Habs. reflexivity.
Qed.

Lemma inside_absolute (f : FileSystem) (telemetry : bool) (ws realPath : string) :
  inside (posixHost f telemetry) ws realPath = true ->
  Posix.isAbsolute ws = true ->
  Posix.isAbsolute realPath = true.
Proof.
  unfold inside. intros Hin Habs.
  apply orb_true_iff in Hin. destruct Hin as [Hpre|Heq].
  - destruct ws as [|c ws]; [discriminate|].
    destruct realPath as [|d realPath]; [discriminate|].
    unfold JS.startsWith in Hpre. simpl in Hpre.
    destruct (ascii_dec c d) as [->|_]; [exact Habs | discriminate].
  - apply String.eqb_eq in Heq. subst. exact Habs.
Qed.

(** C1 (amended).  [validateFilePath] returns a path or throws a
    [SecurityError]; the result is one or the other by construction of
    [Exn].  A returned path is the resolved workspace root or starts with it
    and a separator.  It is what [realpathSync] makes of the candidate when
    that resolves, and the real path of the parent directory joined with the
    base name when it does not; on a POSIX host whose resolved root is
    absolute it is absolute.  Every input with a NUL is rejected, and so is
    every input whose normalized form still has a segment equal to [..], as
    [../x] has on a POSIX host whatever the file system.  Every input that
    passes the checks on the text of the path is returned resolved when that
    lies inside the workspace; on a POSIX host this holds of every file name
    other than [.] and [..] with no NUL and no encoded traversal token in
    it, whatever dots it has. *)
Theorem validateFilePath_contract
        (h : Host) (f : FileSystem) (telemetry : bool)
        (filePath name workspaceRoot : string) :
  (match fst (validateFilePath h filePath workspaceRoot) with
   | Ok realPath =>
       (exists ws, realpathSync (fs h) workspaceRoot = Real ws
                   /\ inside h ws realPath = true)
       /\ match realpathSync (fs h) (absolutePath h filePath workspaceRoot) with
          | Real resolved => realPath = resolved
          | FsError _ =>
              let parentDir :=
                path_dirname (path h) (absolutePath h filePath workspaceRoot) in
              let fileName :=
                path_basename (path h) (absolutePath h filePath workspaceRoot) in
              existsSync (fs h) parentDir = true
              /\ exists realParent,
                  realpathSync (fs h) parentDir = Real realParent
                  /\ realPath = path_join (path h) realParent fileName
          end
   | Throw e => exists m, e = SecurityError m
   end)
  /\ (forall ws realPath,
         fst (validateFilePath (posixHost f telemetry) filePath workspaceRoot)
         = Ok realPath ->
         realpathSync f workspaceRoot = Real ws ->
         Posix.isAbsolute ws = true ->
         Posix.isAbsolute realPath = true)
  /\ (JS.includes filePath JS.NULs = true ->
      isThrow (fst (validateFilePath h filePath workspaceRoot)) = true)
  /\ (In ".." (JS.split (path_sep (path h)) (path_normalize (path h) filePath)) ->
      isThrow (fst (validateFilePath h filePath workspaceRoot)) = true)
  /\ isThrow (fst (validateFilePath (posixHost f telemetry) "../x" workspaceRoot)) = true
  /\ (forall ws realPath,
         textualReject h filePath = false ->
         windowsReject h filePath = false ->
         resolvedPath h (absolutePath h filePath workspaceRoot) = Some realPath ->
         realpathSync (fs h) workspaceRoot = Real ws ->
         inside h ws realPath = true ->
         JS.includes realPath JS.NULs = false ->
         validateFilePath h filePath workspaceRoot = (Ok realPath, []))
  /\ (forall ws realPath,
         isFileName name = true ->
         JS.includes name JS.NULs = false ->
         blank name = false ->
         existsb (fun pattern => JS.includes (JS.toLowerCase name) pattern)
                 encodedPatterns = false ->
         resolvedPath (posixHost f telemetry) (Posix.join workspaceRoot name)
         = Some realPath ->
         realpathSync f workspaceRoot = Real ws ->
         inside (posixHost f telemetry) ws realPath = true ->
         JS.includes realPath JS.NULs = false ->
         validateFilePath (posixHost f telemetry) name workspaceRoot
         = (Ok realPath, [])).
Proof.
  split; [|split; [|split; [|split; [|split; [|split]]]]].
  - destruct (validateFilePath h filePath workspaceRoot) as [[realPath|e] t] eqn:Hv;
      simpl.
    + apply validateFilePath_returns in Hv.
      destruct Hv as (_ & _ & _ & Hres & _ & Hws).
      split; [exact Hws|].
      unfold resolvedPath in Hres.
      destruct (realpathSync (fs h) (absolutePath h filePath workspaceRoot)) as [rp|m].
      * injection Hres as ->. reflexivity.
      * cbv zeta.
        destruct (existsSync (fs h)
                    (path_dirname (path h) (absolutePath h filePath workspaceRoot)));
          [|discriminate].
        split; [reflexivity|].
        destruct (realpathSync (fs h)
                    (path_dirname (path h) (absolutePath h filePath workspaceRoot)))
          as [realParent|m']; [|discriminate].
        exists realParent. injection Hres as <-. split; reflexivity.
    + pose proof (validateFilePath_outcome h filePath workspaceRoot) as H.
      rewrite Hv in H. destruct H as (reason & m & He & _). exists m. exact He.
  - intros ws realPath Hv Hroot Habs.
    destruct (validateFilePath (posixHost f telemetry) filePath workspaceRoot)
      as [r t] eqn:E.
    simpl in Hv. subst r.
    apply validateFilePath_returns in E.
    destruct E as (_ & _ & _ & _ & _ & ws' & Hroot' & Hin).
    change (realpathSync (fs (posixHost f telemetry))) with (realpathSync f) in Hroot'.
    rewrite Hroot in Hroot'. injection Hroot' as <-.
    exact (inside_absolute f telemetry ws realPath Hin Habs).
  - intros Hnul. unfold validateFilePath, validateBody. rewrite Hnul. reflexivity.
  - intros Hseg. apply dotdot_in_segments in Hseg.
    apply textualReject_throws. unfold textualReject. rewrite Hseg.
    apply orb_true_r.
  - reflexivity.
  - intros ws realPath. apply validateFilePath_lets_through.
  - intros ws realPath Hname Hnul Hblank Henc Hres Hroot Hin Hclean.
    destruct (fileName_passes f telemetry name workspaceRoot Hname Hnul Hblank Henc)
      as (Htext & Hwin & Habs).
    apply (validateFilePath_lets_through _ _ _ ws); auto.
    rewrite Habs. exact Hres.
Qed.

(** The instance of C1 on the example disk: [/ws/config..json] does not exist
    yet, its parent [/ws] does. *)
Lemma validateFilePath_contract_witness :
  validateFilePath (posixHost disk true) "config..json" "/ws"
  = (Ok "/ws/config..json", []).
Proof.
  apply (proj2 (proj2 (proj2 (proj2 (proj2 (proj2
           (validateFilePath_contract (posixHost disk true) disk true
              "x" "config..json" "/ws")))))))
    with (ws := "/ws");
    reflexivity.
Defined.

(** C1 as stated fails on [a/../b]: the path has a segment equal to [..],
    [path.normalize] turns it into [b], and the validator returns
    [/ws/b]. *)
Lemma dotdot_segment_accepted :
  In ".." (JS.split "/"%char "a/../b")
  /\ validateFilePath (posixHost disk true) "a/../b" "/ws" = (Ok "/ws/b", []).
Proof.
  split; [simpl; tauto | reflexivity].
Qed.

(** A symbolic link is followed when its target exists: [/ws/link] leads to
    [/etc], and [link/passwd] is refused as a path outside the workspace. *)
Example link_out_of_the_workspace_is_refused :
  fst (validateFilePath (posixHost disk true) "link/passwd" "/ws")
  = Throw (SecurityError "Path outside workspace: /etc/passwd not in /ws").
Proof.
  reflexivity.
Qed.

(** A symbolic link whose target does not exist is not followed:
    [realpathSync] throws on [/ws/evil] as on a file that is not there yet,
    the validator goes on with the parent directory, and returns the path of
    the link itself, whose target [/etc/cron.d/job] lies outside of the
    workspace.  The symlink resolution that the documentation of
    [validateFilePath] announces does not take place for such a link. *)
Example dangling_link_returned_unresolved :
  lookupDisk danglingLinks "/ws/evil" = Some "/etc/cron.d/job"
  /\ inside (posixHost diskWithDanglingLink true) "/ws" "/etc/cron.d/job" = false
  /\ validateFilePath (posixHost diskWithDanglingLink true) "evil" "/ws"
     = (Ok "/ws/evil", []).
Proof.
  repeat split.
Qed.

(** *** What a rejection tells the caller and the telemetry sink *)

Ltac cutSamples :=
  let k := fresh "k" in
  let v := fresh "v" in
  let Hin := fresh "Hin" in
  let Hk := fresh "Hk" in
  intros k v Hin Hk; simpl in Hin;
  repeat (destruct Hin as [Hin|Hin];
          [ injection Hin as <- <-;
            first [ apply substring0_length
                  | destruct Hk as [Hk|[Hk|Hk]]; discriminate Hk ]
          | ]);
  contradiction.

Ltac tagged := simpl; repeat (first [left; reflexivity | right]).

Ltac thrown shape :=
  do 3 eexists;
  split; [reflexivity|];
  split; [reflexivity|];
  split; [eexists; reflexivity|];
  split; [tagged|];
  split; [cutSamples | shape].

Lemma checkBoundary_rejection (h : Host) (workspaceRoot realPath : string)
      (e : ErrorClass) (m : string) (t : Telemetry) :
  checkBoundary h workspaceRoot realPath = (Throw (ErrorObject e m), t) ->
  match e with
  | SecurityErrorClass =>
      exists reason message details,
        SecurityError m = SecurityError message
        /\ t = trackSecurityViolation h "path_validation_failed" details
        /\ (exists x, hd_error details = Some ("filePath", JS.substring0 100 x))
        /\ In ("reason", reason) details
        /\ (forall k v, In (k, v) details ->
                        k = "filePath" \/ k = "parentDir" \/ k = "workspacePath" ->
                        String.length v <= 100)
        /\ messageShape reason message
  | _ => t = [] /\ realpathSync (fs h) workspaceRoot = FsError m
  end.
Proof.
  unfold checkBoundary.
  destruct (realpathSync (fs h) workspaceRoot) as [ws|m'].
  - destruct (negb (JS.startsWith realPath (ws ++ sepString h))
              && negb (realPath =? ws)).
    + unfold reject. intros Hv. injection Hv as <- <- <-.
      thrown ltac:(right; exists "Path outside workspace: ",
                                 (realPath ++ " not in " ++ ws);
                   split; [simpl; tauto | reflexivity]).
    + destruct (JS.includes realPath JS.NULs); [|discriminate].
      unfold reject. intros Hv. injection Hv as <- <- <-.
      thrown fixedShape.
  - intros Hv. injection Hv as <- <- <-. split; reflexivity.
Qed.

(** Every rejection: a [SecurityError], and for the telemetry sink the
    details of one event, with the reason tag and with every sample of a
    path cut to 100 code units. *)
Lemma validateFilePath_rejection (h : Host) (filePath workspaceRoot : string)
      (e : Thrown) (t : Telemetry) :
  validateFilePath h filePath workspaceRoot = (Throw e, t) ->
  exists reason message details,
    e = SecurityError message
    /\ t = trackSecurityViolation h "path_validation_failed" details
    /\ (exists x, hd_error details = Some ("filePath", JS.substring0 100 x))
    /\ In ("reason", reason) details
    /\ (forall k v, In (k, v) details ->
                    k = "filePath" \/ k = "parentDir" \/ k = "workspacePath" ->
                    String.length v <= 100)
    /\ messageShape reason message.
Proof.
  intros Hv.
  assert (Hcheck : forall realPath,
             validateBody h filePath workspaceRoot
             = checkBoundary h workspaceRoot realPath ->
             exists reason message details,
               e = SecurityError message
               /\ t = trackSecurityViolation h "path_validation_failed" details
               /\ (exists x, hd_error details = Some ("filePath", JS.substring0 100 x))
               /\ In ("reason", reason) details
               /\ (forall k v, In (k, v) details ->
                               k = "filePath" \/ k = "parentDir" \/ k = "workspacePath" ->
                               String.length v <= 100)
               /\ messageShape reason message).
  { intros realPath Hbody. unfold validateFilePath in Hv. rewrite Hbody in Hv.
    destruct (checkBoundary h workspaceRoot realPath) as [[r|[cls m|v]] t'] eqn:Hcb.
    - discriminate.
    - apply checkBoundary_rejection in Hcb.
      destruct cls.
      + destruct Hcb as (-> & Hroot). simpl in Hv. injection Hv as <- <-.
        thrown ltac:(right; exists "Path validation failed: ", m;
                     split; [simpl; tauto | reflexivity]).
      + injection Hv as <- <-. exact Hcb.
      + destruct Hcb as (-> & Hroot). simpl in Hv. injection Hv as <- <-.
        thrown ltac:(right; exists "Path validation failed: ", m;
                     split; [simpl; tauto | reflexivity]).
    - unfold checkBoundary in Hcb.
      destruct (realpathSync (fs h) workspaceRoot); [|discriminate].
      destruct (_ && _); [discriminate|].
      destruct (JS.includes realPath JS.NULs); discriminate. }
  destruct (JS.includes filePath JS.NULs) eqn:Hnul.
  { unfold validateFilePath, validateBody in Hv. rewrite Hnul in Hv.
    unfold reject in Hv. injection Hv as <- <-. thrown fixedShape. }
  destruct ((filePath =? "") || Nat.eqb (String.length (JS.trim filePath)) 0) eqn:Hblank.
  { unfold validateFilePath, validateBody in Hv. rewrite Hnul, Hblank in Hv.
    unfold reject in Hv. injection Hv as <- <-. thrown fixedShape. }
  destruct (encodedPattern h filePath) as [pattern|] eqn:Henc.
  { unfold validateFilePath, validateBody in Hv. unfold encodedPattern in Henc.
    rewrite Hnul, Hblank, Henc in Hv.
    unfold reject in Hv. injection Hv as <- <-. thrown fixedShape. }
  destruct (hasDotDotSegment h filePath) eqn:Hseg.
  { unfold validateFilePath, validateBody in Hv.
    unfold encodedPattern in Henc. unfold hasDotDotSegment in Hseg.
    rewrite Hnul, Hblank, Henc, Hseg in Hv.
    unfold reject in Hv. injection Hv as <- <-. thrown fixedShape. }
  assert (Htext : textualReject h filePath = false).
  { unfold textualReject. unfold hasDotDotSegment in Hseg.
    rewrite Hnul, Hblank, Hseg.
    unfold encodedPattern in Henc.
    rewrite (find_none_existsb _ _ Henc). reflexivity. }
  pose proof (validateBody_text_passed h filePath workspaceRoot Htext) as Hbody.
  destruct ((platform h =? "win32")
            && JS.startsWith (path_normalize (path h) filePath) "\\").
  { unfold validateFilePath in Hv. rewrite Hbody in Hv.
    unfold reject in Hv. injection Hv as <- <-. thrown fixedShape. }
  destruct ((platform h =? "win32") && hasDriveLetter (path_normalize (path h) filePath)).
  { unfold validateFilePath in Hv. rewrite Hbody in Hv.
    unfold reject in Hv. injection Hv as <- <-. thrown fixedShape. }
  unfold resolveReal in Hbody.
  destruct (realpathSync (fs h) (absolutePath h filePath workspaceRoot)) as [rp|m].
  { exact (Hcheck rp Hbody). }
  destruct (negb (existsSync (fs h)
                    (path_dirname (path h) (absolutePath h filePath workspaceRoot)))).
  { unfold validateFilePath in Hv. rewrite Hbody in Hv.
    unfold reject in Hv. injection Hv as <- <-. thrown pathShape. }
  destruct (realpathSync (fs h)
              (path_dirname (path h) (absolutePath h filePath workspaceRoot)))
    as [realParent|m'].
  { exact (Hcheck _ Hbody). }
  unfold validateFilePath in Hv. rewrite Hbody in Hv.
  unfold reject in Hv. injection Hv as <- <-. thrown pathShape.
Qed.

(** The validator decides without looking at the telemetry client: with a
    client set or not it returns or throws the same, and without one it
    sends nothing. *)
Lemma telemetry_apart (h : Host) (filePath workspaceRoot : string) :
  validateFilePath h filePath workspaceRoot
  = (fst (validateFilePath (initializeSecurityTelemetry h) filePath workspaceRoot),
     if telemetryClient h
     then snd (validateFilePath (initializeSecurityTelemetry h) filePath workspaceRoot)
     else []).
Proof.
  unfold validateFilePath, validateBody, resolveReal, checkBoundary, reject,
    trackSecurityViolation, sepString, initializeSecurityTelemetry.
  cbn [path fs platform telemetryClient].
  destruct (telemetryClient h);
    repeat match goal with
           | |- context [match ?c with _ => _ end] =>
               lazymatch c with
               | context [match _ with _ => _ end] => fail
               | _ => destruct c
               end
           end;
    reflexivity.
Qed.

Lemma rejection_with_client (h : Host) (filePath workspaceRoot : string)
      (e : Thrown) (t : Telemetry) :
  validateFilePath h filePath workspaceRoot = (Throw e, t) ->
  exists reason message details,
    e = SecurityError message
    /\ t = trackSecurityViolation h "path_validation_failed" details
    /\ validateFilePath (initializeSecurityTelemetry h) filePath workspaceRoot
       = (Throw e, [violation details])
    /\ (exists x, hd_error details = Some ("filePath", JS.substring0 100 x))
    /\ In ("reason", reason) details
    /\ (forall k v, In (k, v) details ->
                    k = "filePath" \/ k = "parentDir" \/ k = "workspacePath" ->
                    String.length v <= 100)
    /\ messageShape reason message.
Proof.
  intros Hv. rewrite telemetry_apart in Hv.
  destruct (validateFilePath (initializeSecurityTelemetry h) filePath workspaceRoot)
    as [r t'] eqn:Hset.
  simpl in Hv. injection Hv as -> <-.
  destruct (validateFilePath_rejection _ _ _ _ _ Hset)
    as (reason & message & details & He & Ht & Hhd & Hreason & Hcut & Hshape).
  exists reason, message, details.
  split; [exact He|]. split; [|split; [|auto]].
  - unfold trackSecurityViolation in *. simpl in Ht.
    destruct (telemetryClient h); [exact Ht | reflexivity].
  - rewrite Ht. reflexivity.
Qed.

(** C9 (amended).  Every rejection is a [SecurityError] and reaches the
    telemetry sink, when a client is set, as one event whose details hold
    the reason tag and samples of paths cut to 100 code units; the details
    are those that the host with a client set sends, so that the reason of a
    rejection is the same with and without a client.  The clauses after the
    first two are the rejections in the order of the source, each
    with the condition that leads to it, the details sent and the message
    thrown: a constant without a path for [null_bytes], [empty_path],
    [encoded_traversal], [path_traversal], [unc_path], [drive_letter] and
    [null_bytes_resolved]; a fixed text followed by the parent directory in
    full for [parent_not_exist] and [parent_resolution_failed], by the
    resolved path and the resolved root in full for [outside_workspace], and
    by the message of the file-system error for [validation_exception],
    which the event carries uncut as well. *)
Theorem rejection_report (h : Host) (filePath workspaceRoot : string) :
  let normalized := path_normalize (path h) filePath in
  let absolute := absolutePath h filePath workspaceRoot in
  let parentDir := path_dirname (path h) absolute in
  let sample := JS.substring0 100 in
  let result := validateFilePath h filePath workspaceRoot in
  (forall e t,
      result = (Throw e, t) ->
      exists reason message details,
        e = SecurityError message
        /\ t = trackSecurityViolation h "path_validation_failed" details
        /\ validateFilePath (initializeSecurityTelemetry h) filePath workspaceRoot
           = (Throw e, [violation details])
        /\ (exists x, hd_error details = Some ("filePath", sample x))
        /\ In ("reason", reason) details
        /\ (forall k v, In (k, v) details ->
                        k = "filePath" \/ k = "parentDir" \/ k = "workspacePath" ->
                        String.length v <= 100)
        /\ messageShape reason message)
  /\ (forall x, String.length (sample x) <= 100)
  /\ (JS.includes filePath JS.NULs = true ->
      result = reject h [("filePath", sample filePath); ("reason", "null_bytes")]
                 "Null bytes in path not allowed")
  /\ (JS.includes filePath JS.NULs = false ->
      blank filePath = true ->
      result = reject h [("filePath", sample filePath); ("reason", "empty_path")]
                 "File path cannot be empty")
  /\ (forall pattern,
      JS.includes filePath JS.NULs = false ->
      blank filePath = false ->
      encodedPattern h filePath = Some pattern ->
      result = reject h [("filePath", sample normalized);
                         ("reason", "encoded_traversal");
                         ("pattern", pattern)]
                 "Encoded path traversal not allowed")
  /\ (JS.includes filePath JS.NULs = false ->
      blank filePath = false ->
      encodedPattern h filePath = None ->
      hasDotDotSegment h filePath = true ->
      result = reject h [("filePath", sample normalized); ("reason", "path_traversal")]
                 "Path traversal not allowed")
  /\ (textualReject h filePath = false ->
      (platform h =? "win32") = true ->
      JS.startsWith normalized "\\" = true ->
      result = reject h [("filePath", sample normalized); ("reason", "unc_path")]
                 "UNC paths not allowed")
  /\ (textualReject h filePath = false ->
      (platform h =? "win32") = true ->
      JS.startsWith normalized "\\" = false ->
      hasDriveLetter normalized = true ->
      result = reject h [("filePath", sample normalized); ("reason", "drive_letter")]
                 "Windows drive letters not allowed")
  /\ (forall m,
      textualReject h filePath = false ->
      windowsReject h filePath = false ->
      realpathSync (fs h) absolute = FsError m ->
      existsSync (fs h) parentDir = false ->
      result = reject h [("filePath", sample absolute);
                         ("parentDir", sample parentDir);
                         ("reason", "parent_not_exist")]
                 ("Parent directory does not exist: " ++ parentDir))
  /\ (forall m m',
      textualReject h filePath = false ->
      windowsReject h filePath = false ->
      realpathSync (fs h) absolute = FsError m ->
      existsSync (fs h) parentDir = true ->
      realpathSync (fs h) parentDir = FsError m' ->
      result = reject h [("filePath", sample absolute);
                         ("parentDir", sample parentDir);
                         ("reason", "parent_resolution_failed")]
                 ("Cannot resolve parent directory: " ++ parentDir))
  /\ (forall realPath workspaceRealPath,
      textualReject h filePath = false ->
      windowsReject h filePath = false ->
      resolvedPath h absolute = Some realPath ->
      realpathSync (fs h) workspaceRoot = Real workspaceRealPath ->
      inside h workspaceRealPath realPath = false ->
      result = reject h [("filePath", sample realPath);
                         ("workspacePath", sample workspaceRealPath);
                         ("reason", "outside_workspace")]
                 ("Path outside workspace: " ++ realPath
                    ++ " not in " ++ workspaceRealPath))
  /\ (forall realPath workspaceRealPath,
      textualReject h filePath = false ->
      windowsReject h filePath = false ->
      resolvedPath h absolute = Some realPath ->
      realpathSync (fs h) workspaceRoot = Real workspaceRealPath ->
      inside h workspaceRealPath realPath = true ->
      JS.includes realPath JS.NULs = true ->
      result = reject h [("filePath", sample realPath);
                         ("reason", "null_bytes_resolved")]
                 "Path contains null bytes")
  /\ (forall realPath m,
      textualReject h filePath = false ->
      windowsReject h filePath = false ->
      resolvedPath h absolute = Some realPath ->
      realpathSync (fs h) workspaceRoot = FsError m ->
      result = reject h [("filePath", sample filePath);
                         ("reason", "validation_exception");
                         ("error", m)]
                 ("Path validation failed: " ++ m)).
Proof.
  cbv zeta.
  split; [exact (rejection_with_client h filePath workspaceRoot)|].
  split; [exact (substring0_length 100)|].
  split; [|split; [|split; [|split]]].
  - intros Hnul. apply catch_rethrows. unfold validateBody. rewrite Hnul. reflexivity.
  - intros Hnul Hblank. apply catch_rethrows. unfold validateBody.
    unfold blank in Hblank. rewrite Hnul, Hblank. reflexivity.
  - intros pattern Hnul Hblank Henc. apply catch_rethrows. unfold validateBody.
    unfold blank in Hblank. unfold encodedPattern in Henc.
    rewrite Hnul, Hblank, Henc. reflexivity.
  - intros Hnul Hblank Henc Hseg. apply catch_rethrows. unfold validateBody.
    unfold blank in Hblank. unfold encodedPattern in Henc.
    unfold hasDotDotSegment in Hseg.
    rewrite Hnul, Hblank, Henc, Hseg. reflexivity.
  - split; [|split].
    { intros Htext Hplat Hunc. apply catch_rethrows.
      rewrite validateBody_text_passed by exact Htext.
      rewrite Hplat, Hunc. reflexivity. }
    { intros Htext Hplat Hunc Hdrive. apply catch_rethrows.
      rewrite validateBody_text_passed by exact Htext.
      rewrite Hplat, Hunc, Hdrive. reflexivity. }
    split; [|split; [|split; [|split]]].
    + intros m Htext Hwin Hleaf Hparent. apply catch_rethrows.
      rewrite validateBody_reaches by assumption.
      unfold resolveReal. rewrite Hleaf, Hparent. reflexivity.
    + intros m m' Htext Hwin Hleaf Hparent Hreal. apply catch_rethrows.
      rewrite validateBody_reaches by assumption.
      unfold resolveReal. rewrite Hleaf, Hparent, Hreal. reflexivity.
    + intros realPath ws Htext Hwin Hres Hroot Hout. apply catch_rethrows.
      rewrite validateBody_reaches by assumption.
      rewrite (resolveReal_resolved _ _ _ realPath) by exact Hres.
      unfold checkBoundary. rewrite Hroot.
      unfold inside in Hout. apply orb_false_elim in Hout.
      destruct Hout as (Hpre & Heq). rewrite Hpre, Heq. reflexivity.
    + intros realPath ws Htext Hwin Hres Hroot Hin Hnul. apply catch_rethrows.
      rewrite validateBody_reaches by assumption.
      rewrite (resolveReal_resolved _ _ _ realPath) by exact Hres.
      unfold checkBoundary. rewrite Hroot.
      unfold inside in Hin.
      destruct (JS.startsWith realPath (ws ++ sepString h)); simpl in *.
      * rewrite Hnul. reflexivity.
      * rewrite Hin, Hnul. reflexivity.
    + intros realPath m Htext Hwin Hres Hroot. unfold validateFilePath.
      rewrite validateBody_reaches by assumption.
      rewrite (resolveReal_resolved _ _ _ realPath) by exact Hres.
      unfold checkBoundary. rewrite Hroot. reflexivity.
Qed.

(** The instance of C9 for [/etc/passwd] against the workspace [/ws]. *)
Lemma rejection_report_witness :
  validateFilePath (posixHost disk true) "/etc/passwd" "/ws"
  = reject (posixHost disk true)
      [("filePath", "/etc/passwd"); ("workspacePath", "/ws");
       ("reason", "outside_workspace")]
      "Path outside workspace: /etc/passwd not in /ws".
Proof.
  pose proof (rejection_report (posixHost disk true) "/etc/passwd" "/ws") as H.
  cbv zeta in H.
  destruct H as (_ & _ & _ & _ & _ & _ & _ & _ & _ & _ & H & _).
  exact (H "/etc/passwd" "/ws" eq_refl eq_refl eq_refl eq_refl eq_refl).
Defined.

(** C9 as stated fails in three ways.  The message of the error carries
    the resolved path in full, here for [/etc/passwd] against the workspace
    [/ws].  The sample that the telemetry sink receives is cut by code
    units, not by bytes: the 61 code units of a path with sixty letters
    beyond ASCII are all sent, 121 bytes in UTF-8.  And when the workspace
    root cannot be resolved, the event carries the message of the
    file-system error as it is, with the 121 code units of the root in
    it. *)
Lemma message_and_event_carry_paths :
  let accented := String "/" (JS.join "" (repeat (String "233" "") 60)) in
  let longRoot := "/" ++ JS.join "" (repeat "0123456789" 12) in
  (fst (validateFilePath (posixHost disk true) "/etc/passwd" "/ws")
   = Throw (SecurityError "Path outside workspace: /etc/passwd not in /ws")
   /\ JS.includes "Path outside workspace: /etc/passwd not in /ws" "/etc/passwd" = true)
  /\ (snd (validateFilePath (posixHost SpecStore.plainFs true) accented "/ws")
      = [ violation [("filePath", accented);
                     ("workspacePath", "/ws");
                     ("reason", "outside_workspace")] ]
      /\ String.length accented = 61
      /\ List.length (Sha256.utf8 accented) = 121)
  /\ (exists error,
         snd (validateFilePath (posixHost disk true) "/ws/b" longRoot)
         = [ violation [("filePath", "/ws/b");
                        ("reason", "validation_exception");
                        ("error", error)] ]
         /\ JS.includes error longRoot = true
         /\ String.length longRoot = 121).
Proof.
  vm_compute. repeat split. eexists. repeat split.
Qed.

(** The same with a path of 125 characters on a disk without symlinks: the
    sample in the event has 100 characters, the message has them all. *)
Example long_path_sample_and_message :
  let longName := "/etc/" ++ JS.join "" (repeat "0123456789" 12) in
  exists message sample rest,
    validateFilePath (posixHost SpecStore.plainFs true) longName "/ws"
    = (Throw (SecurityError message),
       [ {| event := "security.violation";
            properties := ("violationType", "path_validation_failed")
                            :: ("filePath", sample) :: rest |} ])
    /\ String.length longName = 125
    /\ String.length sample = 100
    /\ JS.includes message longName = true.
Proof.
  vm_compute. eexists. eexists. eexists. repeat split.
Qed.

End SecurityFacts.

(** ** The analysis router *)

Module RouterFacts.
Import Router.

Local Open Scope Z_scope.

Lemma failures_cons {T} (c : Call T) (rest : list (Call T)) :
  failures (c :: rest) = (if isThrow (does c) then 1 else 0) + failures rest.
Proof.
  unfold failures. simpl. destruct (isThrow (does c)); simpl List.length; lia.
Qed.

Lemma failures_nonneg {T} (calls : list (Call T)) : 0 <= failures calls.
Proof. unfold failures. lia. Qed.

Lemma setFailureCount_same (cb : CircuitBreaker) :
  setFailureCount (failureCount cb) cb = cb.
Proof. destruct cb; reflexivity. Qed.

Ltac proj := cbn [breaker invoked outcome state failureCount successCount
  nextAttemptAt failureThreshold successThreshold timeout
  setState setFailureCount setSuccessCount setNextAttemptAt isOpen isHalfOpen
  at_entry does at_catch isThrow] in *.

(** While the failures of a run stay below the threshold, a closed breaker
    stays closed and has counted every one of them, whatever succeeded in
    between. *)
Lemma run_closed {T} (calls : list (Call T)) :
  forall cb : CircuitBreaker,
    state cb = CLOSED ->
    failureCount cb + failures calls < failureThreshold cb ->
    run cb calls = setFailureCount (failureCount cb + failures calls) cb.
Proof.
  induction calls as [|c rest IH]; intros cb Hclosed Hbelow.
  - unfold failures. simpl. rewrite Z.add_0_r. symmetry. apply setFailureCount_same.
  - rewrite failures_cons in *. pose proof (failures_nonneg rest) as Hrest.
    cbn [run]. unfold execute, settle. rewrite Hclosed.
    destruct cb as [st fc sc na ft sth to]. proj. subst st.
    destruct (does c) as [v|e]; proj.
    + rewrite IH by (proj; auto; lia). unfold setFailureCount; proj; f_equal; lia.
    + destruct (ft <=? fc + 1) eqn:Hth.
      * apply Z.leb_le in Hth. lia.
      * proj. rewrite IH by (proj; auto; lia). unfold setFailureCount; proj; f_equal; lia.
Qed.

(** C3 (amended).  A closed breaker admits every call.  A success in the
    closed state changes nothing: the failure counter keeps its value, it is
    set to zero only when a half-open breaker closes.  The breaker therefore
    opens at the failure that brings the number of failures counted since
    then to the threshold (3 for [new CircuitBreaker()]), with or without
    successes in between, and sets [nextAttemptAt] to the time of that
    failure plus the timeout. *)
Theorem closed_breaker_counts_failures {T}
        (cb : CircuitBreaker) (calls : list (Call T)) (next : Call T) :
  state cb = CLOSED ->
  failureCount cb + failures calls < failureThreshold cb ->
  let counted := failureCount cb + failures calls in
  let before := run cb calls in
  let after := execute before (at_entry next) (does next) (at_catch next) in
  before = setFailureCount counted cb
  /\ invoked after = true
  /\ (forall v, does next = Ok v -> breaker after = before /\ outcome after = Ok v)
  /\ (forall e, does next = Throw e ->
      outcome after = Throw e
      /\ breaker after =
         if failureThreshold cb <=? counted + 1
         then setNextAttemptAt (at_catch next + timeout cb)
                (setState OPEN (setFailureCount (counted + 1) cb))
         else setFailureCount (counted + 1) cb).
Proof.
  intros Hclosed Hbelow counted before after.
  assert (Hrun : before = setFailureCount counted cb) by (apply run_closed; assumption).
  assert (Hstate : state before = CLOSED) by (rewrite Hrun; exact Hclosed).
  subst after. unfold execute. rewrite Hstate. simpl isOpen. cbv iota.
  unfold settle. rewrite Hstate. simpl isHalfOpen. cbv iota.
  split; [exact Hrun|]. split.
  - destruct (does next); reflexivity.
  - split.
    + intros v Hv. rewrite Hv. simpl. auto.
    + intros e He. rewrite He. simpl. split; [reflexivity|].
      rewrite Hrun. simpl.
      destruct (failureThreshold cb <=? counted + 1); reflexivity.
Qed.

(** The instance of C3 for a fresh breaker: failure, success, failure,
    success, and the third failure at time 50. *)
Lemma closed_breaker_counts_failures_witness :
  let before := run (newCircuitBreaker 0) [fails 10; succeeds 20; fails 30; succeeds 40] in
  let after := execute before 50 (does (fails 50)) 50 in
  before = setFailureCount 2 (newCircuitBreaker 0)
  /\ invoked after = true
  /\ (forall v, does (fails 50) = Ok v -> breaker after = before /\ outcome after = Ok v)
  /\ (forall e, does (fails 50) = Throw e ->
      outcome after = Throw e
      /\ breaker after =
         setNextAttemptAt 30050 (setState OPEN (setFailureCount 3 (newCircuitBreaker 0)))).
Proof.
  apply (closed_breaker_counts_failures (newCircuitBreaker 0)
           [fails 10; succeeds 20; fails 30; succeeds 40] (fails 50)).
  - reflexivity.
  - vm_compute. reflexivity.
Defined.

(** C3 as stated fails: after a failure and a success the counter is 1, not
    0, and three failures that are never consecutive open the breaker. *)
Lemma breaker_opens_without_consecutive_failures :
  failureCount (run (newCircuitBreaker 0) [fails 10; succeeds 20]) = 1
  /\ state (run (newCircuitBreaker 0)
              [fails 10; succeeds 20; fails 30; succeeds 40; fails 50]) = OPEN
  /\ nextAttemptAt (run (newCircuitBreaker 0)
                      [fails 10; succeeds 20; fails 30; succeeds 40; fails 50]) = 30050.
Proof. repeat split. Qed.

(** C4 (amended).  [mapRiskLevel] sends [low] to [low], [medium] to
    [medium], [high] and [critical] to [high], in any mix of cases; every
    other value, [safe] among them, and an absent level go to [none]. *)
Theorem mapRiskLevel_table (apiLevel : option string) :
  mapRiskLevel (Some "low") = RiskLow
  /\ mapRiskLevel (Some "medium") = RiskMedium
  /\ mapRiskLevel (Some "high") = RiskHigh
  /\ mapRiskLevel (Some "critical") = RiskHigh
  /\ mapRiskLevel (Some "safe") = RiskNone
  /\ mapRiskLevel None = RiskNone
  /\ (forall level,
         apiLevel = Some level ->
         let l := JS.toLowerCase level in
         (l = "high" \/ l = "critical" -> mapRiskLevel apiLevel = RiskHigh)
         /\ (l = "medium" -> mapRiskLevel apiLevel = RiskMedium)
         /\ (l = "low" -> mapRiskLevel apiLevel = RiskLow)
         /\ (l <> "high" -> l <> "critical" -> l <> "medium" -> l <> "low" ->
             mapRiskLevel apiLevel = RiskNone)).
Proof.
  repeat (split; [reflexivity|]).
  intros level -> l. unfold mapRiskLevel. fold l.
  repeat split.
  - intros [-> | ->]; reflexivity.
  - intros ->; reflexivity.
  - intros ->; reflexivity.
  - intros Hh Hc Hm Hl.
    apply String.eqb_neq in Hh, Hc, Hm, Hl. rewrite Hh, Hc, Hm, Hl. reflexivity.
Qed.

(** The instance of C4 for the level [Critical] and for [unknown]. *)
Lemma mapRiskLevel_table_witness :
  mapRiskLevel (Some "Critical") = RiskHigh /\ mapRiskLevel (Some "unknown") = RiskNone.
Proof.
  split.
  - destruct (mapRiskLevel_table (Some "Critical")) as (_ & _ & _ & _ & _ & _ & H).
    destruct (H "Critical" eq_refl) as (Hhigh & _).
    apply Hhigh. right. reflexivity.
  - destruct (mapRiskLevel_table (Some "unknown")) as (_ & _ & _ & _ & _ & _ & H).
    destruct (H "unknown" eq_refl) as (_ & _ & _ & Hnone).
    apply Hnone; discriminate.
Defined.

(** C4 as stated fails on [safe]: it is mapped to [none], not to [low]. *)
Lemma safe_is_not_low :
  mapRiskLevel (Some "safe") = RiskNone /\ mapRiskLevel (Some "safe") <> RiskLow.
Proof. split; [reflexivity | discriminate]. Qed.

(** C5.  For a free-tier caller, and for a caller without a user context,
    [analyze] invokes the local analyzer once and the upstream client never;
    what the local analyzer returned comes back with [upgradePrompt] set and
    the one upgrade recommendation appended, everything else untouched, and
    the router (its breaker with it) is as before. *)
Theorem free_tier_stays_local (s : Services) (r : AnalysisRouter) (code : string)
        (userContext : option UserContext) (now nowCatch : Z) :
  (userContext = None \/ exists c, userContext = Some c /\ tier c = Free) ->
  let routed := analyze s r code userContext now nowCatch in
  invocations routed = [LocalAnalyzer code]
  /\ existsb isUpstream (invocations routed) = false
  /\ router routed = r
  /\ (forall result,
         guardian_analyze s code = Ok result ->
         settled routed
         = Ok {| riskLevel := riskLevel result;
                 confidence := confidence result;
                 issues := issues result;
                 executionTime := executionTime result;
                 upgradePrompt := true;
                 recommendations := (recommendations result ++ [upgradeAdvice])%list |})
  /\ (forall e, guardian_analyze s code = Throw e -> settled routed = Throw e).
Proof.
  intros Hfree routed.
  assert (Hr : routed
               = {| settled :=
                      match guardian_analyze s code with
                      | Ok result =>
                          Ok (addUpgradePrompt result
                                "Free tier users can upgrade to Pro for advanced ML-based analysis")
                      | Throw e => Throw e
                      end;
                    router := r;
                    invocations := [LocalAnalyzer code] |}).
  { subst routed. unfold analyze.
    destruct Hfree as [-> | (c & -> & Hc)]; [reflexivity | rewrite Hc; reflexivity]. }
  rewrite Hr. cbn [settled router invocations].
  repeat split.
  - intros result ->. reflexivity.
  - intros e ->. reflexivity.
Qed.

(** The instance of C5 for a router that has an upstream client and a call
    without user context. *)
Lemma free_tier_stays_local_witness :
  let routed := analyze stubServices (newAnalysisRouter true 0) "const x = 1;" None 5 5 in
  invocations routed = [LocalAnalyzer "const x = 1;"]
  /\ settled routed
     = Ok {| riskLevel := RiskLow; confidence := JsMath.half; issues := [];
             executionTime := JsMath.zero; upgradePrompt := true;
             recommendations := [upgradeAdvice] |}.
Proof.
  destruct (free_tier_stays_local stubServices (newAnalysisRouter true 0)
              "const x = 1;" None 5 5 (or_introl eq_refl))
    as (Hinv & _ & _ & Hok & _).
  split; [exact Hinv|]. apply (Hok _ eq_refl).
Defined.

Lemma Qle_bool_false (x y : Q) : Qle_bool x y = false -> (y < x)%Q.
Proof.
  intros H. apply Qnot_le_lt. intros Hle.
  apply Qle_bool_iff in Hle. congruence.
Qed.

(** [Math.min(1, Math.max(0, x))] on a finite [x]. *)
Lemma clamp_finite (q : Q) :
  let c := JsMath.min JsMath.one (JsMath.max JsMath.zero (Fin q)) in
  JsMath.unitInterval c
  /\ ((q < 0)%Q -> c = Fin 0)
  /\ ((0 <= q)%Q -> (q < 1)%Q -> c = Fin q)
  /\ ((1 <= q)%Q -> c = Fin 1).
Proof.
  unfold JsMath.min, JsMath.max, JsMath.one, JsMath.zero, JsMath.leb.
  destruct (Qle_bool 0 q) eqn:H0.
  - apply Qle_bool_iff in H0.
    destruct (Qle_bool 1 q) eqn:H1.
    + apply Qle_bool_iff in H1. simpl. repeat split; try reflexivity.
      * discriminate.
      * discriminate.
      * intros Hneg. exfalso. apply (Qlt_not_le _ _ Hneg). exact H0.
      * intros _ Hlt. exfalso. apply (Qlt_not_le _ _ Hlt). exact H1.
    + apply Qle_bool_false in H1. simpl. repeat split; auto.
      * apply Qlt_le_weak. exact H1.
      * intros Hneg. exfalso. apply (Qlt_not_le _ _ Hneg). exact H0.
      * intros Hge. exfalso. apply (Qlt_not_le _ _ H1). exact Hge.
  - apply Qle_bool_false in H0. simpl. repeat split; try reflexivity.
    + discriminate.
    + discriminate.
    + intros Hge. exfalso. apply (Qlt_not_le _ _ H0). exact Hge.
    + intros Hge. exfalso. apply (Qlt_not_le _ _ H0).
      apply Qle_trans with 1%Q; [discriminate | exact Hge].
Qed.

(** C10.  In the result mapped from an upstream response, a confidence that
    is absent, [null] or zero (or NaN) has become 0.5, because the default
    is taken before the clamp; every other number has been clamped to the
    interval from 0 to 1; [upgradePrompt] is [false]. *)
Theorem mapAPIResult_confidence (apiResult : ApiResult) :
  let c := confidence (mapAPIResult apiResult) in
  upgradePrompt (mapAPIResult apiResult) = false
  /\ JsMath.unitInterval c
  /\ (api_confidence apiResult = Undefined
      \/ api_confidence apiResult = Null
      \/ api_confidence apiResult = Num NaN
      \/ (exists q, api_confidence apiResult = Num (Fin q) /\ (q == 0)%Q) ->
      c = JsMath.half)
  /\ (forall q,
         api_confidence apiResult = Num (Fin q) -> ~ (q == 0)%Q ->
         ((q < 0)%Q -> c = Fin 0)
         /\ ((0 <= q)%Q -> (q < 1)%Q -> c = Fin q)
         /\ ((1 <= q)%Q -> c = Fin 1))
  /\ (api_confidence apiResult = Num PosInfinity -> c = Fin 1)
  /\ (api_confidence apiResult = Num NegInfinity -> c = Fin 0).
Proof.
  unfold mapAPIResult. cbn [confidence upgradePrompt].
  split; [reflexivity|]. split; [|split; [|split; [|split]]].
  - destruct (api_confidence apiResult) as [| |[| | |q]]; cbn [JsMath.orNumber];
      try (vm_compute; split; discriminate).
    destruct (Qeq_bool q 0).
    + vm_compute; split; discriminate.
    + apply clamp_finite.
  - intros [-> | [-> | [-> | (q & -> & Hq)]]]; try reflexivity.
    cbn [JsMath.orNumber]. apply Qeq_bool_iff in Hq. rewrite Hq. reflexivity.
  - intros q -> Hq. cbn [JsMath.orNumber].
    destruct (Qeq_bool q 0) eqn:Hz.
    + apply Qeq_bool_iff in Hz. contradiction.
    + pose proof (clamp_finite q) as (_ & H). exact H.
  - intros ->. reflexivity.
  - intros ->. reflexivity.
Qed.

(** The instance of C10 for an upstream response that reports confidence 0,
    and for one that reports 3/2. *)
Lemma mapAPIResult_confidence_witness :
  confidence (mapAPIResult
                {| api_riskLevel := Some "high"; api_confidence := Num (Fin 0);
                   api_issues := None; api_analysisTimeMs := Undefined;
                   api_recommendations := None |}) = JsMath.half
  /\ confidence (mapAPIResult
                   {| api_riskLevel := Some "high"; api_confidence := Num (Fin (3 # 2));
                      api_issues := None; api_analysisTimeMs := Undefined;
                      api_recommendations := None |}) = Fin 1.
Proof.
  split.
  - destruct (mapAPIResult_confidence
                {| api_riskLevel := Some "high"; api_confidence := Num (Fin 0);
                   api_issues := None; api_analysisTimeMs := Undefined;
                   api_recommendations := None |}) as (_ & _ & H & _).
    apply H. right. right. right. exists 0%Q. split; reflexivity.
  - destruct (mapAPIResult_confidence
                {| api_riskLevel := Some "high"; api_confidence := Num (Fin (3 # 2));
                   api_issues := None; api_analysisTimeMs := Undefined;
                   api_recommendations := None |}) as (_ & _ & _ & H & _).
    destruct (H (3 # 2)%Q eq_refl) as (_ & _ & Hhigh).
    + discriminate.
    + apply Hhigh. discriminate.
Defined.

End RouterFacts.

(** ** The snapshot digest *)

Module HashFacts.
Import Hash.

Section SortFacts.
Context {A : Type} (compare : A -> A -> Z).

Lemma insert_perm (x : A) (l : list A) : Permutation (insert compare x l) (x :: l).
Proof.
  induction l as [|y l IH]; simpl; [apply Permutation_refl|].
  destruct (compare x y <=? 0)%Z; [apply Permutation_refl|].
  apply perm_trans with (y :: x :: l); [apply perm_skip; exact IH | apply perm_swap].
Qed.

Lemma sort_perm (l : list A) : Permutation (sort compare l) l.
Proof.
  induction l as [|x l IH]; simpl; [apply perm_nil|].
  apply perm_trans with (x :: sort compare l); [apply insert_perm | apply perm_skip; exact IH].
Qed.

(** The elements the comparator is a total preorder on. *)
Variable domain : A -> Prop.
Hypothesis total : forall x y, domain x -> domain y -> (before compare) x y \/ (before compare) y x.
Hypothesis transitive :
  forall x y z, domain x -> domain y -> domain z -> (before compare) x y -> (before compare) y z -> (before compare) x z.

Lemma insert_sorted (x : A) (l : list A) :
  domain x -> Forall domain l ->
  StronglySorted (before compare) l -> StronglySorted (before compare) (insert compare x l).
Proof.
  intros Hx Hl Hs. induction Hs as [|y l Hs IH Hy]; simpl.
  - constructor; constructor.
  - inversion Hl as [|? ? Dy Dl]; subst.
    destruct (compare x y <=? 0)%Z eqn:Hxy.
    + apply Z.leb_le in Hxy. constructor; [constructor; assumption|].
      constructor; [exact Hxy|].
      rewrite Forall_forall in *. intros z Hz.
      apply transitive with y; auto.
    + apply Z.leb_gt in Hxy.
      assert (Hyx : (before compare) y x).
      { destruct (total x y Hx Dy) as [H|H]; [unfold before in H; lia | exact H]. }
      constructor; [apply IH; assumption|].
      rewrite Forall_forall in *. intros z Hz.
      apply (Permutation_in _ (insert_perm x l)) in Hz.
      destruct Hz as [<- | Hz]; auto.
Qed.

Lemma sort_sorted (l : list A) :
  Forall domain l -> StronglySorted (before compare) (sort compare l).
Proof.
  induction l as [|x l IH]; intros Hl; simpl; [constructor|].
  inversion Hl as [|? ? Dx Dl]; subst.
  apply insert_sorted; auto.
  rewrite Forall_forall in *. intros z Hz.
  apply Dl. apply (Permutation_in _ (sort_perm l)). exact Hz.
Qed.

(** Two sorted arrangements of the same elements are the same list, once no
    two different elements compare as equal. *)
Hypothesis separates : forall x y, domain x -> domain y -> (before compare) x y -> (before compare) y x -> x = y.

Lemma sorted_unique (l1 : list A) :
  forall l2, Forall domain l1 ->
             StronglySorted (before compare) l1 -> StronglySorted (before compare) l2 ->
             Permutation l1 l2 -> l1 = l2.
Proof.
  induction l1 as [|a l1 IH]; intros l2 Hd H1 H2 Hp.
  - apply Permutation_nil in Hp. auto.
  - destruct l2 as [|b l2]; [apply Permutation_sym, Permutation_nil in Hp; discriminate|].
    inversion H1 as [|? ? S1 F1]; subst. inversion H2 as [|? ? S2 F2]; subst.
    inversion Hd as [|? ? Da Dl]; subst.
    rewrite Forall_forall in F1, F2, Dl.
    assert (Hb : In b (a :: l1)).
    { apply (Permutation_in _ (Permutation_sym Hp)). left. reflexivity. }
    assert (Ha : In a (b :: l2)).
    { apply (Permutation_in _ Hp). left. reflexivity. }
    assert (Db : domain b).
    { destruct Hb as [<- | Hb]; auto. }
    assert (Hab : a = b).
    { destruct Hb as [Hb | Hb]; [exact Hb|].
      destruct Ha as [Ha | Ha]; [symmetry; exact Ha|].
      apply separates; auto. }
    subst b. f_equal. apply IH; auto.
    + apply Forall_forall. exact Dl.
    + apply Permutation_cons_inv with a. exact Hp.
Qed.

End SortFacts.

Lemma generateSnapshotHash_unfold (localeCompare : string -> string -> Z)
      (files : list FileEntry) :
  generateSnapshotHash localeCompare files
  = blake3Hash (JS.join "|" (map entryOf (sort (byPath localeCompare) files))).
Proof. reflexivity. Qed.

(** C7 (amended).  [generateSnapshotHash(files)] is the digest of the string
    built from the entries of [files] put in the order of
    [a.path.localeCompare(b.path)], the collation of the host, each entry
    written [path:digest(content)], joined with [|].  The order is a sorted
    one as soon as the collation is a total preorder on the paths of the
    list. *)
Theorem generateSnapshotHash_sorts_by_locale
        (localeCompare : string -> string -> Z) (files : list FileEntry) :
  (forall a b, In a files -> In b files ->
               before (byPath localeCompare) a b \/ before (byPath localeCompare) b a) ->
  (forall a b c, In a files -> In b files -> In c files ->
                 before (byPath localeCompare) a b -> before (byPath localeCompare) b c ->
                 before (byPath localeCompare) a c) ->
  exists sortedFiles,
    Permutation sortedFiles files
    /\ StronglySorted (before (byPath localeCompare)) sortedFiles
    /\ generateSnapshotHash localeCompare files
       = blake3Hash
           (JS.join "|"
              (map (fun file => path file ++ ":" ++ blake3Hash (content file)) sortedFiles)).
Proof.
  intros Htotal Htrans.
  exists (sort (byPath localeCompare) files).
  split; [apply sort_perm|]. split; [|reflexivity].
  apply (sort_sorted (byPath localeCompare) (fun f => In f files) Htotal Htrans).
  apply Forall_forall. auto.
Qed.

(** The instance of C7 for the files [B] and [a] under the root collation,
    which puts [a] first. *)
Lemma generateSnapshotHash_sorts_by_locale_witness :
  exists sortedFiles,
    Permutation sortedFiles [fileB; fileA]
    /\ StronglySorted (before (byPath rootCollation)) sortedFiles
    /\ generateSnapshotHash rootCollation [fileB; fileA]
       = blake3Hash
           (JS.join "|"
              (map (fun file => path file ++ ":" ++ blake3Hash (content file)) sortedFiles)).
Proof.
  apply (generateSnapshotHash_sorts_by_locale rootCollation [fileB; fileA]).
  - intros a b [<- | [<- | []]] [<- | [<- | []]]; vm_compute;
      solve [left; discriminate | right; discriminate].
  - intros a b c [<- | [<- | []]] [<- | [<- | []]] [<- | [<- | []]]; vm_compute; auto.
Defined.

(** C7 as stated fails on the files [B] and [a]: the collation puts [a]
    first, the order of the bytes puts [B] first, and the two digests
    differ. *)
Lemma locale_order_is_not_byte_order :
  (rootCollation "a" "B" < 0)%Z
  /\ (byteLexCompare "B" "a" < 0)%Z
  /\ generateSnapshotHash rootCollation [fileB; fileA] <> stableHashSpec [fileB; fileA].
Proof.
  split; [reflexivity | split; [reflexivity|]].
  vm_compute. discriminate.
Qed.

(** C8 at the failing input: two entries for the same path.  The sort is
    stable and compares paths only, so each list keeps its own order, the
    joined strings differ and so do the digests, whatever the collation. *)
Theorem same_path_twice_depends_on_order (localeCompare : string -> string -> Z) :
  Permutation [first; second] [second; first]
  /\ generateSnapshotHash localeCompare [first; second]
     <> generateSnapshotHash localeCompare [second; first].
Proof.
  split; [apply perm_swap|].
  unfold generateSnapshotHash.
  cbn [sort fold_right insert].
  change (byPath localeCompare first second) with (localeCompare "a.txt" "a.txt").
  change (byPath localeCompare second first) with (localeCompare "a.txt" "a.txt").
  destruct (localeCompare "a.txt" "a.txt" <=? 0)%Z; vm_compute; discriminate.
Qed.

(** Away from that input C8 holds: when no two different entries of the list
    have paths that compare as equal, every permutation of the list has the
    same digest. *)
Lemma generateSnapshotHash_permutation
      (localeCompare : string -> string -> Z) (files files' : list FileEntry) :
  (forall a b, In a files -> In b files ->
               before (byPath localeCompare) a b \/ before (byPath localeCompare) b a) ->
  (forall a b c, In a files -> In b files -> In c files ->
                 before (byPath localeCompare) a b -> before (byPath localeCompare) b c ->
                 before (byPath localeCompare) a c) ->
  (forall a b, In a files -> In b files ->
               before (byPath localeCompare) a b -> before (byPath localeCompare) b a ->
               a = b) ->
  Permutation files files' ->
  generateSnapshotHash localeCompare files' = generateSnapshotHash localeCompare files.
Proof.
  intros Htotal Htrans Hsep Hperm.
  rewrite !generateSnapshotHash_unfold. do 3 f_equal.
  set (D := fun f => In f files).
  assert (Hall : Forall D files) by (apply Forall_forall; auto).
  assert (Hall' : Forall D files').
  { apply Forall_forall. intros x Hx. apply (Permutation_in _ (Permutation_sym Hperm)), Hx. }
  apply (sorted_unique (byPath localeCompare) D Hsep).
  - apply Forall_forall. intros x Hx.
    apply (Permutation_in _ (sort_perm _ files')) in Hx.
    rewrite Forall_forall in Hall'. auto.
  - apply (sort_sorted _ D Htotal Htrans _ Hall').
  - apply (sort_sorted _ D Htotal Htrans _ Hall).
  - apply perm_trans with files'; [apply sort_perm|].
    apply perm_trans with files; [apply Permutation_sym, Hperm|].
    apply Permutation_sym, sort_perm.
Qed.

Example permutation_of_distinct_paths :
  generateSnapshotHash rootCollation [fileA; fileB]
  = generateSnapshotHash rootCollation [fileB; fileA].
Proof.
  apply (generateSnapshotHash_permutation rootCollation [fileB; fileA] [fileA; fileB]).
  - intros a b [<- | [<- | []]] [<- | [<- | []]]; vm_compute;
      solve [left; discriminate | right; discriminate].
  - intros a b c [<- | [<- | []]] [<- | [<- | []]] [<- | [<- | []]]; vm_compute; auto.
  - intros a b [<- | [<- | []]] [<- | [<- | []]]; vm_compute; intros H1 H2;
      solve [reflexivity | exfalso; apply H1; reflexivity | exfalso; apply H2; reflexivity].
  - apply perm_swap.
Qed.

End HashFacts.

(** ** The tool dispatcher *)

Module ToolsFacts.
Import Tools.






Lemma lookup_targetPath (fields : list (string * Json)) (targetPath : Json) :
  lookup (("targetPath", targetPath) :: fields) "snapshotId" = lookup fields "snapshotId".
Proof. reflexivity. Qed.

(** C2 (amended).  The [restore_snapshot] tool reads [snapshotId] only: a
    [targetPath] among the arguments is dropped by the parse,
    [restoreSnapshot] is called without it, and the answer and the state are
    what they are without it.  The manager is therefore always asked for the
    metadata-only restore, which on the store of section 4.9 leaves the file
    system as it was. *)
Theorem restore_tool_ignores_targetPath {W} (d : Deps W) (authResult : AuthResult)
        (fields : list (string * Json)) (snapshotId : string) (targetPath : Json) (w : W) :
  hasToolAccess (hasPermissionForTier d) authResult "snapback.restore_snapshot" = true ->
  tier authResult = TierPro ->
  lookup fields "snapshotId" = Some (JString snapshotId) ->
  let withTarget := Some (JObject (("targetPath", targetPath) :: fields)) in
  callTool d authResult "snapback.restore_snapshot" withTarget w
  = callTool d authResult "snapback.restore_snapshot" (Some (JObject fields)) w
  /\ callTool d authResult "snapback.restore_snapshot" withTarget w
     = match restoreSnapshot (manager d) snapshotId None w with
       | (Failure error, w1) => (textError ("❌ Failed to restore snapshot: " ++ error), w1)
       | (Success snapshot, w1) => (jsonAnswer (Restored snapshot), w1)
       end
  /\ (forall (principal : AuthResult) (args : option Json) (world : SpecStore.World),
         snd (callTool SpecStore.deps principal "snapback.restore_snapshot" args world)
         = world).
Proof.
  intros Hgranted Hpro Hid withTarget. subst withTarget.
  assert (Hcall : forall t : list (string * Json),
             lookup t "snapshotId" = Some (JString snapshotId) ->
             callTool d authResult "snapback.restore_snapshot" (Some (JObject t)) w
             = match restoreSnapshot (manager d) snapshotId None w with
               | (Failure error, w1) =>
                   (textError ("❌ Failed to restore snapshot: " ++ error), w1)
               | (Success snapshot, w1) => (jsonAnswer (Restored snapshot), w1)
               end).
  { intros t Ht. unfold callTool. rewrite Hgranted, Hpro.
    cbn [String.eqb Ascii.eqb Bool.eqb isPro negb].
    unfold restoreSnapshotTool, parseSnapshotId. rewrite Ht. reflexivity. }
  split; [|split].
  - rewrite (Hcall fields Hid). apply Hcall. rewrite lookup_targetPath. exact Hid.
  - apply Hcall. rewrite lookup_targetPath. exact Hid.
  - intros principal args world. unfold callTool.
    destruct (negb (hasToolAccess _ principal _)); [reflexivity|].
    cbn [String.eqb Ascii.eqb Bool.eqb].
    destruct (negb (isPro (tier principal))); [reflexivity|].
    unfold restoreSnapshotTool.
    destruct (parseSnapshotId SpecStore.deps args) as [sid|e]; [|reflexivity].
    unfold restoreSnapshot.
    cbn [manager SpecStore.deps mgr_get mgr_restore SpecStore.manager].
    destruct (SpecStore.find sid world) as [s|] eqn:Hfind; cbn [option_map].
    + unfold SpecStore.restore. rewrite Hfind. reflexivity.
    + reflexivity.
Qed.

(** The instance of C2 for the snapshot [X] of the seeded store. *)
Lemma restore_tool_ignores_targetPath_witness :
  callTool SpecStore.deps (SpecStore.principal TierPro) "snapback.restore_snapshot"
           SpecStore.restoreArgs SpecStore.seeded
  = callTool SpecStore.deps (SpecStore.principal TierPro) "snapback.restore_snapshot"
             (Some (JObject [("snapshotId", JString "X")])) SpecStore.seeded.
Proof.
  apply (restore_tool_ignores_targetPath SpecStore.deps (SpecStore.principal TierPro)
           [("snapshotId", JString "X")] "X" (JString "/out") SpecStore.seeded);
    reflexivity.
Defined.

(** C2 as stated fails when [targetPath] is present: restoring [X] to [/out]
    through the manager writes the two files, the tool called with the same
    [targetPath] answers without an error and writes none. *)
Lemma restore_tool_writes_nothing :
  SpecStore.disk (snd (SpecStore.restore "X" (Some "/out") SpecStore.seeded))
  = [("/out/b.txt", "bye"); ("/out/a.txt", "hi")]
  /\ SpecStore.disk
       (snd (callTool SpecStore.deps (SpecStore.principal TierPro)
               "snapback.restore_snapshot" SpecStore.restoreArgs SpecStore.seeded))
     = []
  /\ isError
       (fst (callTool SpecStore.deps (SpecStore.principal TierPro)
               "snapback.restore_snapshot" SpecStore.restoreArgs SpecStore.seeded))
     = false.
Proof. repeat split; vm_compute; reflexivity. Qed.

End ToolsFacts.

(** ** Runs of the model on concrete inputs *)

Module Examples.

Example normalize_examples :
  Posix.normalize "a/../b" = "b" /\
  Posix.normalize "../x" = "../x" /\
  Posix.normalize "/ws/../etc/passwd" = "/etc/passwd" /\
  Posix.normalize "a//b/./c/" = "a/b/c/" /\
  Posix.normalize "../../a/.." = "../.." /\
  Posix.normalize "/.." = "/" /\
  Posix.normalize "./" = "./" /\
  Posix.normalize "config..json" = "config..json".
Proof. repeat split; reflexivity. Qed.

Example path_examples :
  Posix.join "/ws" "config..json" = "/ws/config..json" /\
  Posix.dirname "/ws/config..json" = "/ws" /\
  Posix.dirname "/ws" = "/" /\
  Posix.dirname "/a//b" = "/a/" /\
  Posix.dirname "a" = "." /\
  Posix.dirname "//a" = "//" /\
  Posix.basename "/ws/config..json" = "config..json" /\
  Posix.basename "/ws/dir/" = "dir" /\
  Posix.basename "/" = "".
Proof. repeat split; reflexivity. Qed.

Example validate_examples :
  fst (Security.validateFilePath (Security.posixHost Security.disk true) "config..json" "/ws")
    = Ok "/ws/config..json" /\
  fst (Security.validateFilePath (Security.posixHost Security.disk true) "src/new.ts" "/ws")
    = Ok "/ws/src/new.ts" /\
  fst (Security.validateFilePath (Security.posixHost Security.disk true) "a/../b" "/ws")
    = Ok "/ws/b" /\
  fst (Security.validateFilePath (Security.posixHost Security.disk true) "../x" "/ws")
    = Throw (Security.SecurityError "Path traversal not allowed") /\
  fst (Security.validateFilePath (Security.posixHost Security.disk true) "/etc/passwd" "/ws")
    = Throw (Security.SecurityError "Path outside workspace: /etc/passwd not in /ws") /\
  fst (Security.validateFilePath (Security.posixHost Security.disk true) "link" "/ws")
    = Throw (Security.SecurityError "Path outside workspace: /etc not in /ws") /\
  fst (Security.validateFilePath (Security.posixHost Security.disk true) "nodir/f" "/ws")
    = Throw (Security.SecurityError "Parent directory does not exist: /ws/nodir") /\
  fst (Security.validateFilePath (Security.posixHost Security.disk true) "/ws/b" "/gone")
    = Throw (Security.SecurityError
               "Path validation failed: ENOENT: no such file or directory, lstat '/gone'").
Proof. repeat split; reflexivity. Qed.

Example sha256_constants :
  List.length Sha256.primes = 64%nat
  /\ firstn 2 Sha256.K = [0x428a2f98; 0x71374491]%Z
  /\ last Sha256.K 0%Z = 0xc67178f2%Z
  /\ firstn 2 Sha256.H0 = [0x6a09e667; 0xbb67ae85]%Z
  /\ last Sha256.H0 0%Z = 0x5be0cd19%Z.
Proof. vm_compute. repeat split. Qed.

Example sha256_of_empty : Sha256.hexdigest "" = "e3b0c44298fc1c149afbf4c8996fb92427ae41e4649b934ca495991b7852b855".
Proof. vm_compute. reflexivity. Qed.
Example sha256_of_abc : Sha256.hexdigest "abc" = "ba7816bf8f01cfea414140de5dae2223b00361a396177a9cb410ff61f20015ad".
Proof. vm_compute. reflexivity. Qed.
Example sha256_of_two_blocks : Sha256.hexdigest "abcdbcdecdefdefgefghfghighijhijkijkljklmklmnlmnomnopnopq" = "248d6a61d20638b8e5c026930c3e6039a33ce45964ff2167f6ecedd419db06c1".
Proof. vm_compute. reflexivity. Qed.

Example sha256_of_e_acute :
  Sha256.hexdigest (String (ascii_of_nat 233) EmptyString)
  = "4a99557e4033c3539de2eb65472017cad5f9557f7a0625a09f1c3f6e2ba69c4c".
Proof. vm_compute. reflexivity. Qed.

(** A pro caller with the upstream at hand: one upstream call, its answer
    mapped ([safe] becomes [none], the absent confidence 0.5). *)
Example pro_tier_goes_upstream :
  let ctx := Some {| Router.userId := None; Router.email := None;
                     Router.tier := Router.Pro; Router.orgId := None |} in
  let routed := Router.analyze Router.stubServices (Router.newAnalysisRouter true 0)
                  "const x = 1;" ctx 5 5 in
  map Router.isUpstream (Router.invocations routed) = [true]
  /\ Router.settled routed
     = Ok {| Router.riskLevel := Router.RiskNone; Router.confidence := JsMath.half;
             Router.issues := []; Router.executionTime := JsMath.zero;
             Router.upgradePrompt := false; Router.recommendations := [] |}.
Proof. split; reflexivity. Qed.

(** The same caller with the flag [ml-detection] switched off, and with the
    breaker open: the local analyzer only. *)
Example pro_tier_flag_off_or_breaker_open :
  let ctx := Some {| Router.userId := None; Router.email := None;
                     Router.tier := Router.Pro; Router.orgId := None |} in
  let off := Router.setFeatureFlag "ml-detection" false (Router.newAnalysisRouter true 0) in
  let opened :=
    Router.withBreaker
      (Router.run (Router.newCircuitBreaker 0)
         [Router.fails 10; Router.fails 20; Router.fails 30])
      (Router.newAnalysisRouter true 0) in
  Router.invocations (Router.analyze Router.stubServices off "x" ctx 5 5)
  = [Router.LocalAnalyzer "x"]
  /\ Router.invocations (Router.analyze Router.stubServices opened "x" ctx 40 40)
     = [Router.LocalAnalyzer "x"]
  /\ map Router.isUpstream
       (Router.invocations (Router.analyze Router.stubServices opened "x" ctx 30030 30030))
     = [true].
Proof. repeat split; reflexivity. Qed.

(** A half-open breaker closes on the second success and resets both
    counters. *)
Example half_open_closes_after_two_successes :
  let opened := Router.run (Router.newCircuitBreaker 0)
                  [Router.fails 10; Router.fails 20; Router.fails 30] in
  Router.state opened = Router.OPEN
  /\ Router.state (Router.run opened [Router.succeeds 30030]) = Router.HALF_OPEN
  /\ Router.run opened [Router.succeeds 30030; Router.succeeds 30040]
     = Router.setNextAttemptAt 30030 (Router.newCircuitBreaker 0).
Proof. repeat split; reflexivity. Qed.

End Examples.

(** ** The HTTP front *)

Module HttpFacts.
Import Http.

Local Open Scope Z_scope.

Lemma setWindow_same (ip : string) (w : Window) (rl : RateLimiter) :
  requests (setWindow ip w rl) ip = Some w.
Proof. unfold setWindow. cbn [requests]. rewrite String.eqb_refl. reflexivity. Qed.

Lemma setWindow_other (ip other : string) (w : Window) (rl : RateLimiter) :
  other <> ip -> requests (setWindow ip w rl) other = requests rl other.
Proof.
  intros Hne. unfold setWindow. cbn [requests].
  apply String.eqb_neq in Hne. rewrite Hne. reflexivity.
Qed.

Lemma isAllowed_keeps_settings (rl : RateLimiter) (now : Z) (ip : string) :
  windowMs (snd (isAllowed rl now ip)) = windowMs rl
  /\ maxRequests (snd (isAllowed rl now ip)) = maxRequests rl.
Proof.
  unfold isAllowed.
  destruct (requests rl ip) as [w|]; [|split; reflexivity].
  destruct (resetTime w <=? now); [split; reflexivity|].
  destruct (maxRequests rl <=? count w); split; reflexivity.
Qed.

Lemma isAllowed_other (rl : RateLimiter) (now : Z) (ip other : string) :
  other <> ip -> requests (snd (isAllowed rl now ip)) other = requests rl other.
Proof.
  intros Hne. unfold isAllowed.
  destruct (requests rl ip) as [w|]; cbn [snd]; [|apply setWindow_other; exact Hne].
  destruct (resetTime w <=? now); cbn [snd]; [apply setWindow_other; exact Hne|].
  destruct (maxRequests rl <=? count w); cbn [snd];
    [reflexivity | apply setWindow_other; exact Hne].
Qed.

(** What [isAllowed] answers and stores for [ip] depends on the window of
    [ip] and on the settings only. *)
Lemma isAllowed_ext (rl rl' : RateLimiter) (now : Z) (ip : string) :
  requests rl ip = requests rl' ip ->
  windowMs rl = windowMs rl' ->
  maxRequests rl = maxRequests rl' ->
  fst (isAllowed rl now ip) = fst (isAllowed rl' now ip)
  /\ requests (snd (isAllowed rl now ip)) ip = requests (snd (isAllowed rl' now ip)) ip.
Proof.
  intros Hreq Hw Hm. unfold isAllowed. rewrite <- Hreq, <- Hw, <- Hm.
  destruct (requests rl ip) as [w|] eqn:E; cbn [fst snd].
  - destruct (resetTime w <=? now); cbn [fst snd].
    + rewrite !setWindow_same. auto.
    + destruct (maxRequests rl <=? count w); cbn [fst snd].
      * rewrite <- Hreq. auto.
      * rewrite !setWindow_same. auto.
  - rewrite !setWindow_same. auto.
Qed.

Lemma decisions_ext (times : list Z) :
  forall (rl rl' : RateLimiter) (ip : string),
    requests rl ip = requests rl' ip ->
    windowMs rl = windowMs rl' ->
    maxRequests rl = maxRequests rl' ->
    decisions rl ip times = decisions rl' ip times.
Proof.
  induction times as [|now later IH]; intros rl rl' ip Hreq Hw Hm; [reflexivity|].
  cbn [decisions].
  destruct (isAllowed_ext rl rl' now ip Hreq Hw Hm) as (Hfst & Hsnd).
  destruct (isAllowed_keeps_settings rl now ip) as (Hw1 & Hm1).
  destruct (isAllowed_keeps_settings rl' now ip) as (Hw2 & Hm2).
  destruct (isAllowed rl now ip) as [ok rl1], (isAllowed rl' now ip) as [ok' rl1'].
  cbn [fst snd] in *. subst ok'. f_equal.
  apply IH; congruence.
Qed.

(** Inside a live window the requests are allowed while the count is below
    the cap, and refused from then on. *)
Lemma decisions_in_window (later : list Z) :
  forall (rl : RateLimiter) (ip : string) (w : Window),
    requests rl ip = Some w ->
    Forall (fun t => t < resetTime w) later ->
    decisions rl ip later
    = map (fun k => count w + Z.of_nat k <? maxRequests rl) (seq 0 (List.length later)).
Proof.
  induction later as [|now rest IH]; intros rl ip w Hw Hlive; [reflexivity|].
  inversion Hlive as [|? ? Hnow Hrest]; subst.
  cbn [decisions List.length seq map]. unfold isAllowed. rewrite Hw.
  assert (Hopen : (resetTime w <=? now) = false) by (apply Z.leb_gt; exact Hnow).
  rewrite Hopen. rewrite Z.add_0_r.
  destruct (maxRequests rl <=? count w) eqn:Hcap.
  - apply Z.leb_le in Hcap.
    assert (Hfull : (count w <? maxRequests rl) = false) by (apply Z.ltb_ge; exact Hcap).
    rewrite Hfull. f_equal.
    rewrite (IH rl ip w Hw Hrest).
    rewrite <- seq_shift, map_map. apply map_ext. intros k.
    transitivity false; [|symmetry]; apply Z.ltb_ge; lia.
  - apply Z.leb_gt in Hcap.
    assert (Hroom : (count w <? maxRequests rl) = true) by (apply Z.ltb_lt; exact Hcap).
    rewrite Hroom. f_equal.
    rewrite (IH _ ip _ (setWindow_same ip _ rl)); [|exact Hrest].
    cbn [count maxRequests setWindow].
    rewrite <- seq_shift, map_map. apply map_ext. intros k.
    f_equal. lia.
Qed.

(** X1.  A window opens with the first request of a client, or with the
    first one after the previous window has run out.  That request is always
    allowed; of the requests that follow before the window runs out, the
    [n]-th of the window is allowed exactly when [n] is at most
    [maxRequests], however the requests are spaced. *)
Theorem window_quota (rl : RateLimiter) (ip : string) (opening : Z) (later : list Z) :
  (requests rl ip = None
   \/ exists w, requests rl ip = Some w /\ resetTime w <= opening) ->
  Forall (fun t => t < opening + windowMs rl) later ->
  decisions rl ip (opening :: later)
  = true :: map (fun k => Z.of_nat k + 2 <=? maxRequests rl) (seq 0 (List.length later)).
Proof.
  intros Hfresh Hlive.
  set (fresh := {| count := 1; resetTime := opening + windowMs rl |}).
  assert (Hopen : isAllowed rl opening ip = (true, setWindow ip fresh rl)).
  { unfold isAllowed. destruct Hfresh as [-> | (w & -> & Hold)]; [reflexivity|].
    apply Z.leb_le in Hold. rewrite Hold. reflexivity. }
  cbn [decisions]. rewrite Hopen. f_equal.
  rewrite (decisions_in_window later _ ip fresh (setWindow_same ip fresh rl) Hlive).
  apply map_ext. intros k. cbn [count maxRequests setWindow fresh].
  destruct (1 + Z.of_nat k <? maxRequests rl) eqn:E.
  - apply Z.ltb_lt in E. symmetry. apply Z.leb_le. lia.
  - apply Z.ltb_ge in E. symmetry. apply Z.leb_gt. lia.
Qed.

(** The instance of X1 for a cap of two and three requests in one window. *)
Lemma window_quota_witness :
  decisions (newRateLimiter 60000 2) "10.0.0.1" [0; 10; 59999] = [true; true; false].
Proof.
  apply (window_quota (newRateLimiter 60000 2) "10.0.0.1" 0 [10; 59999]).
  - left. reflexivity.
  - repeat constructor.
Defined.

(** X2.  Clients do not interfere: in any interleaving of requests, the
    answers a client gets are the ones it would get if it were alone. *)
Theorem clients_do_not_interfere (asked : list (string * Z)) :
  forall (rl : RateLimiter) (ip : string),
    answersTo ip asked (fst (serve rl asked)) = decisions rl ip (timesOf ip asked).
Proof.
  induction asked as [|[k now] later IH]; intros rl ip; [reflexivity|].
  cbn [serve]. unfold timesOf. cbn [filter fst].
  pose proof (isAllowed_other rl now k ip) as Hother.
  destruct (isAllowed_keeps_settings rl now k) as (Hw & Hm).
  destruct (isAllowed rl now k) as [ok rl1] eqn:Hone. cbn [snd] in *.
  specialize (IH rl1 ip).
  destruct (serve rl1 later) as [oks rl2]. cbn [fst answersTo] in *.
  destruct (k =? ip)%string eqn:Hk.
  - apply String.eqb_eq in Hk. subst k.
    cbn [map snd decisions]. rewrite Hone. f_equal. exact IH.
  - apply String.eqb_neq in Hk. rewrite IH. unfold timesOf.
    apply decisions_ext; auto.
Qed.

Lemma isAllowed_bounded (rl : RateLimiter) (now : Z) (ip : string) :
  boundedCounts rl -> boundedCounts (snd (isAllowed rl now ip)).
Proof.
  intros Hinv other w.
  destruct (String.eqb_spec other ip) as [-> | Hne].
  - unfold isAllowed. pose proof (Hinv ip) as Hip.
    destruct (requests rl ip) as [old|]; cbn [snd].
    + destruct (resetTime old <=? now); cbn [snd].
      * rewrite setWindow_same. intros [= <-]. cbn. lia.
      * destruct (maxRequests rl <=? count old) eqn:Hcap; cbn [snd].
        -- intros Hw. apply Hinv in Hw. exact Hw.
        -- rewrite setWindow_same. intros [= <-]. cbn.
           apply Z.leb_gt in Hcap. specialize (Hip old eq_refl). lia.
    + rewrite setWindow_same. intros [= <-]. cbn. lia.
  - rewrite (isAllowed_other rl now ip other Hne).
    destruct (isAllowed_keeps_settings rl now ip) as (_ & ->). apply Hinv.
Qed.

Lemma serve_keeps_settings (asked : list (string * Z)) :
  forall rl, windowMs (snd (serve rl asked)) = windowMs rl
             /\ maxRequests (snd (serve rl asked)) = maxRequests rl.
Proof.
  induction asked as [|[k now] later IH]; intros rl; [split; reflexivity|].
  cbn [serve].
  destruct (isAllowed_keeps_settings rl now k) as (Hw & Hm).
  destruct (isAllowed rl now k) as [ok rl1]. cbn [snd] in Hw, Hm.
  specialize (IH rl1). destruct (serve rl1 later) as [oks rl2].
  cbn [snd] in *. split; [rewrite <- Hw | rewrite <- Hm]; apply IH.
Qed.

(** X3.  However many requests have been served, no window has counted more
    than [maxRequests] of them (one, when the cap is below one): refused
    requests are not counted. *)
Theorem counts_stay_bounded (windowMs maxRequests : Z) (asked : list (string * Z))
        (ip : string) (w : Window) :
  requests (snd (serve (newRateLimiter windowMs maxRequests) asked)) ip = Some w ->
  1 <= count w <= Z.max 1 maxRequests.
Proof.
  assert (Hserve : forall rl, boundedCounts rl -> boundedCounts (snd (serve rl asked))).
  { induction asked as [|[k now] later IH]; intros rl Hinv; [exact Hinv|].
    cbn [serve].
    pose proof (isAllowed_bounded rl now k Hinv) as Hone.
    destruct (isAllowed rl now k) as [ok rl1]. cbn [snd] in Hone.
    specialize (IH rl1 Hone).
    destruct (serve rl1 later) as [oks rl2]. exact IH. }
  intros Hw.
  assert (Hinit : boundedCounts (newRateLimiter windowMs maxRequests)).
  { intros k x Hx. discriminate Hx. }
  pose proof (Hserve _ Hinit ip w Hw) as Hb.
  destruct (serve_keeps_settings asked (newRateLimiter windowMs maxRequests)) as (_ & Hm).
  rewrite Hm in Hb. exact Hb.
Qed.

(** The instance of X3 for two clients, one of them refused twice. *)
Lemma counts_stay_bounded_witness :
  1 <= 2 <= Z.max 1 2.
Proof.
  apply (counts_stay_bounded 1000 2
           [("a", 0); ("b", 1); ("a", 2); ("a", 3); ("a", 4)] "a"
           {| count := 2; resetTime := 1000 |}).
  reflexivity.
Defined.


Lemma prefix_length (p : string) : forall s, String.prefix p s = true -> (String.length p <= String.length s)%nat.
Proof.
  induction p as [|c p IH]; intros s H; [cbn; lia|].
  destruct s as [|d s]; [discriminate H|].
  cbn in H. destruct (Ascii.ascii_dec c d); [|discriminate H].
  apply IH in H. cbn. lia.
Qed.

Lemma substring_length (s : string) :
  forall n m, (n + m <= String.length s)%nat -> String.length (String.substring n m s) = m.
Proof.
  induction s as [|c s IH]; intros n m H.
  - cbn in H. assert (n = 0%nat /\ m = 0%nat) as (-> & ->) by lia. reflexivity.
  - destruct n as [|n].
    + destruct m as [|m]; [reflexivity|]. cbn. f_equal. apply IH. cbn in H. lia.
    + cbn. apply IH. cbn in H. lia.
Qed.

Lemma token_length (h : string) :
  JS.startsWith h "Bearer " = true ->
  String.length (substringFrom 7 h) = (String.length h - 7)%nat.
Proof.
  intros H. apply prefix_length in H. cbn in H.
  unfold substringFrom. apply substring_length. lia.
Qed.

(** X4.  A request is authenticated in exactly three cases: its
    Authorization header starts with [Bearer ] and has something after it;
    or the header does not start with [Bearer ] and X-API-Key is one
    non-empty string; or the header does not start with [Bearer ], there is
    no such key, and [NODE_ENV] is [development].  So a [Bearer ] header
    with nothing after it is refused whatever else the request carries, and
    outside development nothing passes without a credential. *)
Theorem authenticateRequest_cases (env : Env) (req : Request) :
  authenticateRequest env req = true <->
  (exists h, authorization req = Some h /\ JS.startsWith h "Bearer " = true
             /\ (7 < String.length h)%nat)
  \/ (hasBearer req = false
      /\ exists k, xApiKey req = Some (Single k) /\ k <> ""%string)
  \/ (hasBearer req = false /\ apiKeyString req = None /\ isDevelopment env = true).
Proof.
  unfold authenticateRequest, hasBearer.
  destruct (authorization req) as [h|] eqn:Hauth.
  - destruct (JS.startsWith h "Bearer ") eqn:Hb.
    + rewrite (token_length h Hb). rewrite Nat.ltb_lt. split.
      * intros Hlen. left. exists h. repeat split; auto. lia.
      * intros [(h' & [= <-] & _ & Hlen) | [(Hno & _) | (Hno & _)]];
          [lia | discriminate Hno | discriminate Hno].
    + split.
      * intros H. right. unfold apiKeyString in *.
        destruct (xApiKey req) as [[[|c k]|vs]|]; auto.
        left. split; [reflexivity|]. eexists. split; [reflexivity|]. discriminate.
      * intros [(h' & [= <-] & Hyes & _) | [(_ & k & Hk & Hne) | (_ & Hnone & Hdev)]].
        -- congruence.
        -- unfold apiKeyString. rewrite Hk. destruct k; [congruence|]. reflexivity.
        -- rewrite Hnone. exact Hdev.
  - split.
    + intros H. right. unfold apiKeyString in *.
      destruct (xApiKey req) as [[[|c k]|vs]|]; auto.
      left. split; [reflexivity|]. eexists. split; [reflexivity|]. discriminate.
    + intros [(h' & Hh & _) | [(_ & k & Hk & Hne) | (_ & Hnone & Hdev)]].
      * discriminate Hh.
      * unfold apiKeyString. rewrite Hk. destruct k; [congruence|]. reflexivity.
      * rewrite Hnone. exact Hdev.
Qed.

(** An empty bearer token is refused even with an API key and in
    development. *)
Example empty_bearer_token_is_refused :
  authenticateRequest {| ALLOWED_ORIGINS := None; NODE_ENV := Some "development" |}
    (withCredentials (Some "Bearer ") (Some (Single "key-1"))) = false
  /\ authenticateRequest (production None)
       (withCredentials (Some "Basic abc") (Some (Single "key-1"))) = true
  /\ authenticateRequest (production None) (withCredentials None (Some (Single ""))) = false.
Proof. repeat split. Qed.

Lemma orString_nonempty (a : option string) (b : string) :
  b <> ""%string -> JS.orString a b <> ""%string.
Proof. intros Hb. destruct a as [[|c r]|]; cbn; auto. discriminate. Qed.

Lemma orString_first (x b : string) :
  x <> ""%string -> JS.orString (Some x) b = x.
Proof. intros Hx. destruct x; [congruence|reflexivity]. Qed.

(** X5.  The address the limiter files a request under is never empty.  It
    is the first comma-separated entry of X-Forwarded-For, trimmed, whenever
    that is not empty.  When the header is absent or that entry is empty, it
    is X-Real-IP if the request has one that is not empty, and else the
    socket address, or [unknown] for a socket without one. *)
Theorem getClientIp_reads_headers_first (req : Request) :
  getClientIp req <> ""%string
  /\ (forall h entry,
        xForwardedFor req = Some h ->
        hd_error (JS.split ","%char h) = Some entry ->
        JS.trim entry <> ""%string ->
        getClientIp req = JS.trim entry)
  /\ (xForwardedFor req = None
      \/ (exists h entry,
             xForwardedFor req = Some h
             /\ hd_error (JS.split ","%char h) = Some entry
             /\ JS.trim entry = ""%string) ->
      (forall real, xRealIp req = Some real -> real <> ""%string ->
                    getClientIp req = real)
      /\ (xRealIp req = None \/ xRealIp req = Some ""%string ->
          getClientIp req = JS.orString (remoteAddress req) "unknown")).
Proof.
  unfold getClientIp, orElse. split; [|split].
  - repeat apply orString_nonempty. discriminate.
  - intros h entry Hh Hentry Hne. rewrite Hh, Hentry. cbn [option_map].
    apply orString_first. exact Hne.
  - intros Hforwarded.
    assert (Hskip : forall rest,
               JS.orString
                 match xForwardedFor req with
                 | Some h => option_map JS.trim (hd_error (JS.split ","%char h))
                 | None => None
                 end rest = rest).
    { intros rest. destruct Hforwarded as [->|(h & entry & -> & -> & Hempty)].
      - reflexivity.
      - cbn [option_map]. rewrite Hempty. reflexivity. }
    rewrite Hskip. split.
    + intros real -> Hne. apply orString_first. exact Hne.
    + intros [->| ->]; reflexivity.
Qed.

(** The instance of X5 for a header with two entries. *)
Lemma getClientIp_reads_headers_first_witness :
  getClientIp (get "/health" (Some " 198.51.100.1 , 10.0.0.1")) = "198.51.100.1"%string.
Proof.
  apply (proj1 (proj2 (getClientIp_reads_headers_first
                         (get "/health" (Some " 198.51.100.1 , 10.0.0.1"))))
           " 198.51.100.1 , 10.0.0.1"%string " 198.51.100.1 "%string).
  - reflexivity.
  - reflexivity.
  - vm_compute. discriminate.
Defined.

(** A header whose first entry is blank does not count: the request is
    filed under the socket address. *)
Example blank_forwarded_entry_is_skipped :
  getClientIp (get "/health" (Some " , 10.0.0.1")) = "203.0.113.7"%string.
Proof. reflexivity. Qed.

Lemma checkAll_serve (arrivals : list (Request * Z)) :
  forall rl,
    checkAll rl arrivals
    = fst (serve rl (map (fun a => (getClientIp (fst a), snd a)) arrivals)).
Proof.
  induction arrivals as [|[req now] later IH]; intros rl; [reflexivity|].
  cbn [checkAll map serve fst snd]. unfold checkRateLimit.
  destruct (isAllowed rl now (getClientIp req)) as [ok rl1].
  rewrite IH. destruct (serve rl1 _) as [oks rl2]. cbn [fst].
  destruct ok; reflexivity.
Qed.

(** X6.  Requests filed under addresses that the limiter has not seen, each
    under another one, all pass the limiter, whatever the cap and whatever
    socket they come from.  With X5: a client that names a new first entry
    in X-Forwarded-For with every request is never refused. *)
Theorem new_addresses_always_pass (arrivals : list (Request * Z)) :
  forall rl : RateLimiter,
    NoDup (map (fun a => getClientIp (fst a)) arrivals) ->
    (forall a, In a arrivals -> requests rl (getClientIp (fst a)) = None) ->
    checkAll rl arrivals = map (fun _ => true) arrivals.
Proof.
  induction arrivals as [|[req now] later IH]; intros rl Hdup Hnew; [reflexivity|].
  cbn [checkAll map]. unfold checkRateLimit.
  cbn [map fst] in Hdup. inversion Hdup as [|? ? Hnotin Hrest]; subst.
  pose proof (Hnew (req, now) (or_introl eq_refl)) as Hreq. cbn [fst] in Hreq.
  pose proof (isAllowed_other rl now (getClientIp req)) as Hother.
  unfold isAllowed in *. rewrite Hreq in *. cbn [snd] in Hother.
  f_equal. apply IH; [exact Hrest|].
  intros a Ha. rewrite Hother; [apply Hnew; right; exact Ha|].
  intros Heq. apply Hnotin. rewrite <- Heq.
  apply (in_map (fun a => getClientIp (fst a)) later a Ha).
Qed.

(** The instance of X6 for a cap of one and three requests from one socket. *)
Lemma new_addresses_always_pass_witness :
  checkAll (newRateLimiter 60000 1)
    [(get "/mcp" (Some "a"), 0); (get "/mcp" (Some "b"), 1); (get "/mcp" (Some "c"), 2)]
  = [true; true; true]
  /\ checkAll (newRateLimiter 60000 1)
       [(get "/mcp" None, 0); (get "/mcp" None, 1); (get "/mcp" None, 2)]
     = [true; false; false].
Proof.
  split; [|reflexivity].
  apply (new_addresses_always_pass
           [(get "/mcp" (Some "a"), 0); (get "/mcp" (Some "b"), 1); (get "/mcp" (Some "c"), 2)]
           (newRateLimiter 60000 1)).
  - vm_compute. repeat constructor; cbn; intuition discriminate.
  - intros a _. reflexivity.
Defined.

Lemma listed_In (l : list string) (x : string) : listed l x = true <-> In x l.
Proof.
  unfold listed. rewrite existsb_exists. split.
  - intros (y & Hy & Heq). apply String.eqb_eq in Heq. subst. exact Hy.
  - intros Hx. exists x. split; [exact Hx | apply String.eqb_refl].
Qed.

Lemma preflight_allowOrigin (env : Env) (req : Request) :
  (originAllowed env req = true ->
   In (allowOrigin, orElse (origin req) "*") (headers (handleCorsPreflight env req)))
  /\ (originAllowed env req = false ->
      ~ In allowOrigin (map fst (headers (handleCorsPreflight env req)))).
Proof.
  unfold handleCorsPreflight. cbn [headers]. split; intros Hallowed; rewrite Hallowed.
  - apply in_or_app. right. left. reflexivity.
  - cbn. unfold allowOrigin. intuition discriminate.
Qed.

Lemma originAllowed_cases (env : Env) (req : Request) :
  originAllowed env req = true <->
  In "*"%string (allowedOrigins env)
  \/ (exists o, origin req = Some o /\ o <> ""%string /\ In o (allowedOrigins env))
  \/ (exists o, origin req = Some o /\ JS.startsWith o "http://localhost:" = true).
Proof.
  unfold originAllowed. rewrite !Bool.orb_true_iff, listed_In.
  destruct (origin req) as [[|c o]|].
  - split.
    + intros [[H | H] | H]; [left; exact H | discriminate H | discriminate H].
    + intros [H | [(o & [= <-] & Hne & _) | (o & [= <-] & H)]];
        [left; left; exact H | congruence | discriminate H].
  - rewrite listed_In. split.
    + intros [[H | H] | H]; [left; exact H | |].
      * right. left. eexists. split; [reflexivity|]. split; [discriminate | exact H].
      * right. right. eexists. split; [reflexivity | exact H].
    + intros [H | [(x & [= <-] & _ & H) | (x & [= <-] & H)]]; auto.
  - split.
    + intros [[H | H] | H]; [left; exact H | discriminate H | discriminate H].
    + intros [H | [(o & Ho & _) | (o & Ho & _)]]; [left; left; exact H | |]; discriminate Ho.
Qed.

(** X7.  The answer to a preflight always has status 204.  It names the
    origin of the request in Access-Control-Allow-Origin whenever that origin
    starts with [http://localhost:], whatever [ALLOWED_ORIGINS] says; with
    [ALLOWED_ORIGINS] unset every origin is named, and [*] when the request
    has none.  With [ALLOWED_ORIGINS] set and [*] not among its entries, the
    header is there exactly for the non-empty origins that are one of the
    comma-separated entries as written (no trimming) or start with
    [http://localhost:]. *)
Theorem preflight_allow_origin (env : Env) (req : Request) :
  status (handleCorsPreflight env req) = 204
  /\ (forall o, origin req = Some o -> JS.startsWith o "http://localhost:" = true ->
      In (allowOrigin, o) (headers (handleCorsPreflight env req)))
  /\ (ALLOWED_ORIGINS env = None ->
      In (allowOrigin, orElse (origin req) "*") (headers (handleCorsPreflight env req)))
  /\ (forall names, ALLOWED_ORIGINS env = Some names ->
      ~ In "*"%string (JS.split ","%char names) ->
      (In allowOrigin (map fst (headers (handleCorsPreflight env req)))
       <-> exists o, origin req = Some o
                     /\ ((o <> ""%string /\ In o (JS.split ","%char names))
                         \/ JS.startsWith o "http://localhost:" = true))).
Proof.
  destruct (preflight_allowOrigin env req) as (Hyes & Hno).
  pose proof (originAllowed_cases env req) as Hcases.
  split; [reflexivity|]. split; [|split].
  - intros o Ho Hlocal.
    assert (Hallowed : originAllowed env req = true).
    { apply Hcases. right. right. exists o. auto. }
    specialize (Hyes Hallowed). rewrite Ho in Hyes.
    destruct o as [|c o]; [discriminate Hlocal|]. exact Hyes.
  - intros Hunset. apply Hyes. apply Hcases. left.
    unfold allowedOrigins. rewrite Hunset. left. reflexivity.
  - intros names Hset Hnostar.
    unfold allowedOrigins in Hcases. rewrite Hset in Hcases.
    destruct (originAllowed env req) eqn:Hallowed.
    + split.
      * intros _. destruct (proj1 Hcases eq_refl) as [H | [(o & Ho & Hne & H) | (o & Ho & H)]];
          [contradiction | exists o; auto | exists o; auto].
      * intros _. apply (in_map fst) in Hyes; [exact Hyes | reflexivity].
    + split.
      * intros H. exfalso. exact (Hno eq_refl H).
      * intros (o & Ho & H). exfalso.
        assert (Habs : false = true); [|discriminate Habs].
        apply Hcases. right.
        destruct H as [(Hne & H) | H]; [left | right]; exists o; auto.
Qed.

(** The instance of X7: an entry written after a blank does not match, an
    origin under [http://localhost:] does. *)
Lemma preflight_allow_origin_witness :
  In (allowOrigin, "http://localhost:5173"%string)
     (headers (handleCorsPreflight (production (Some "https://a.example, https://b.example"))
                                   (preflight (Some "http://localhost:5173"))))
  /\ ~ In allowOrigin
        (map fst (headers (handleCorsPreflight
                             (production (Some "https://a.example, https://b.example"))
                             (preflight (Some "https://b.example"))))).
Proof.
  split.
  - apply (proj1 (proj2 (preflight_allow_origin
                           (production (Some "https://a.example, https://b.example"))
                           (preflight (Some "http://localhost:5173"))))
             "http://localhost:5173"%string); reflexivity.
  - intros Hin.
    apply (proj2 (proj2 (proj2 (preflight_allow_origin
                           (production (Some "https://a.example, https://b.example"))
                           (preflight (Some "https://b.example")))))
             "https://a.example, https://b.example"%string) in Hin.
    + destruct Hin as (o & [= <-] & [(_ & [H | [H | []]]) | H]); discriminate H.
    + reflexivity.
    + vm_compute. intuition discriminate.
Defined.

(** X8.  A preflight is answered without the limiter being asked or
    changed.  Every other request whose URL parses is counted by the limiter
    before its method and path are looked at, so also when it ends as 404;
    and once the limiter refuses, the answer is 429 with Retry-After 60 for
    every method and path, nothing is handed to a handler, and the limiter
    is as it was. *)
Theorem handleRequest_limits_before_routing
        (env : Env) (rl : RateLimiter) (now : Z) (req : Request) (path : string) :
  pathname req = Some path ->
  (method req = "OPTIONS"%string ->
   handleRequest env rl now req = (Answered (handleCorsPreflight env req), rl))
  /\ (method req <> "OPTIONS"%string ->
      snd (handleRequest env rl now req) = snd (isAllowed rl now (getClientIp req))
      /\ (fst (isAllowed rl now (getClientIp req)) = false ->
          handleRequest env rl now req = (Answered tooManyRequests, rl)))
  /\ (forall w, method req <> "OPTIONS"%string ->
      requests rl (getClientIp req) = Some w ->
      now < resetTime w -> maxRequests rl <= count w ->
      handleRequest env rl now req = (Answered tooManyRequests, rl)).
Proof.
  intros Hpath. unfold handleRequest. rewrite Hpath.
  assert (Hrefused : fst (isAllowed rl now (getClientIp req)) = false ->
                     isAllowed rl now (getClientIp req) = (false, rl)).
  { unfold isAllowed. destruct (requests rl (getClientIp req)) as [w|]; [|discriminate].
    destruct (resetTime w <=? now); [discriminate|].
    destruct (maxRequests rl <=? count w); [reflexivity | discriminate]. }
  split; [|split].
  - intros ->. reflexivity.
  - intros Hm. apply String.eqb_neq in Hm. rewrite Hm.
    unfold checkRateLimit.
    split.
    + destruct (isAllowed rl now (getClientIp req)) as [[|] rl1]; cbn [snd]; [|reflexivity].
      repeat match goal with |- context [if ?b then _ else _] => destruct b end; reflexivity.
    + intros Hno. rewrite (Hrefused Hno). reflexivity.
  - intros w Hm Hw Hlive Hfull. apply String.eqb_neq in Hm. rewrite Hm.
    unfold checkRateLimit, isAllowed. rewrite Hw.
    apply Z.leb_gt in Hlive. apply Z.leb_le in Hfull. rewrite Hlive, Hfull. reflexivity.
Qed.

(** The instance of X8: after one request under a cap of one, the next one
    to an unknown path is answered 429. *)
Lemma handleRequest_limits_before_routing_witness :
  fst (handleRequest (production None)
         (snd (handleRequest (production None) (newRateLimiter 60000 1) 0 (get "/mcp" None)))
         5 (get "/nowhere" None))
  = Answered tooManyRequests.
Proof.
  apply (f_equal fst
           (proj2 (proj2 (handleRequest_limits_before_routing (production None)
              (snd (handleRequest (production None) (newRateLimiter 60000 1) 0 (get "/mcp" None)))
              5 (get "/nowhere" None) "/nowhere" eq_refl))
              {| count := 1; resetTime := 60000 |}
              ltac:(discriminate) eq_refl ltac:(reflexivity) ltac:(discriminate))).
Defined.

End HttpFacts.

(** ** The circuit breaker over its whole life, and the routing for the pro tier *)

Module BreakerFacts.
Import Router Breaker.

Local Open Scope Z_scope.

Ltac fields :=
  cbn [breaker invoked outcome state failureCount successCount nextAttemptAt
       failureThreshold successThreshold timeout
       setState setFailureCount setSuccessCount setNextAttemptAt] in *.

Ltac branches :=
  repeat match goal with
         | |- context [if ?b then _ else _] =>
             let E := fresh "E" in destruct b eqn:E; fields
         end.

Ltac orders :=
  repeat match goal with
         | H : (_ <=? _) = true |- _ => apply Z.leb_le in H
         | H : (_ <=? _) = false |- _ => apply Z.leb_gt in H
         | H : (_ <? _) = true |- _ => apply Z.ltb_lt in H
         | H : (_ <? _) = false |- _ => apply Z.ltb_ge in H
         end.

Lemma isNew_wellFormed (cb : CircuitBreaker) : isNew cb -> wellFormed cb.
Proof.
  intros (Hs & Hf & Hc & Hft & Hst). unfold wellFormed.
  rewrite Hs, Hf, Hc. repeat split; try lia; congruence.
Qed.

Lemma execute_settings {T} (cb : CircuitBreaker) (now : Z) (fn : Exn T) (nowCatch : Z) :
  settings (breaker (execute cb now fn nowCatch)) = settings cb.
Proof.
  unfold execute, settle, settings, isOpen, isHalfOpen.
  destruct cb as [st fc sc na ft sth to]. fields.
  destruct st, fn; fields; branches; reflexivity.
Qed.

Lemma execute_wellFormed {T} (cb : CircuitBreaker) (now : Z) (fn : Exn T) (nowCatch : Z) :
  wellFormed cb -> wellFormed (breaker (execute cb now fn nowCatch)).
Proof.
  unfold wellFormed, execute, settle, isOpen, isHalfOpen.
  destruct cb as [st fc sc na ft sth to]. fields.
  intros (Hft & Hst & Hsc & Hclosed & Hnot).
  destruct st, fn; fields; branches; orders;
    repeat split; try lia; try congruence; intros;
    try (destruct Hclosed; [reflexivity | lia]);
    try (assert (ft <= fc) by (apply Hnot; discriminate); lia).
Qed.

Lemma run_wellFormed {T} (calls : list (Call T)) :
  forall cb, wellFormed cb ->
             wellFormed (run cb calls) /\ settings (run cb calls) = settings cb.
Proof.
  induction calls as [|c rest IH]; intros cb Hwf; [split; [exact Hwf | reflexivity]|].
  cbn [run].
  destruct (IH _ (execute_wellFormed cb (at_entry c) (does c) (at_catch c) Hwf)) as (H1 & H2).
  split; [exact H1|]. rewrite H2. apply execute_settings.
Qed.

(** X9.  Whatever calls a breaker has seen since it was constructed, and
    whenever they came: its thresholds and recovery window are the ones it
    was constructed with; it is CLOSED exactly when its failure count is
    below the failure threshold; in CLOSED the success count is zero, and in
    every state it is below the success threshold. *)
Theorem breaker_invariant {T} (cb : CircuitBreaker) (calls : list (Call T)) :
  isNew cb ->
  let cb' := run cb calls in
  settings cb' = settings cb
  /\ (state cb' = CLOSED <-> failureCount cb' < failureThreshold cb')
  /\ 0 <= failureCount cb'
  /\ 0 <= successCount cb' < successThreshold cb'
  /\ (state cb' = CLOSED -> successCount cb' = 0).
Proof.
  intros Hnew cb'.
  destruct (run_wellFormed calls cb (isNew_wellFormed cb Hnew)) as (Hwf & Hset).
  fold cb' in Hwf, Hset.
  destruct Hwf as (Hft & Hst & Hsc & Hclosed & Hnot).
  split; [exact Hset|]. split; [|split; [|split]].
  - split; [intros H; apply Hclosed; exact H|].
    intros Hlt. destruct (state cb') eqn:Hs; [reflexivity | |];
      (assert (failureThreshold cb' <= failureCount cb') by (apply Hnot; discriminate); lia).
  - destruct (state cb') eqn:Hs;
      [destruct Hclosed; [reflexivity | lia] | |];
      (assert (failureThreshold cb' <= failureCount cb') by (apply Hnot; discriminate); lia).
  - exact Hsc.
  - intros H. apply Hclosed. exact H.
Qed.

(** The instance of X9 for the breaker of the router after four failures
    and a success past the recovery window. *)
Lemma breaker_invariant_witness :
  let cb' := run (newCircuitBreaker 0)
                 [fails 1; fails 2; fails 3; fails 40000; succeeds 80000] in
  settings cb' = (3, 2, 30000)
  /\ (state cb' = CLOSED <-> failureCount cb' < failureThreshold cb')
  /\ 0 <= failureCount cb'
  /\ 0 <= successCount cb' < successThreshold cb'
  /\ (state cb' = CLOSED -> successCount cb' = 0).
Proof.
  apply (breaker_invariant (newCircuitBreaker 0)
           [fails 1; fails 2; fails 3; fails 40000; succeeds 80000]).
  unfold isNew. cbn. repeat split; lia.
Defined.






(** A probe that fails does not always open the breaker again: when calls
    that entered while the probe was pending have succeeded and closed the
    breaker, the failure of the probe is counted as the first failure of a
    CLOSED breaker. *)
Example overlapped_probe_fails_on_closed_breaker :
  let pending := interleaved (newCircuitBreaker 0) (firstn 7 overlappingProbe) in
  let closed := interleaved (newCircuitBreaker 0) (firstn 11 overlappingProbe) in
  let after := interleaved (newCircuitBreaker 0) overlappingProbe in
  state pending = HALF_OPEN
  /\ state closed = CLOSED
  /\ state after = CLOSED /\ failureCount after = 1.
Proof. vm_compute. repeat split. Qed.

(** The success count survives a failure: after one success and one failure
    in HALF_OPEN, the next success closes the breaker on its own. *)
Example half_open_successes_add_up :
  let cb := run (newCircuitBreaker 0)
                [fails 1; fails 2; fails 3; succeeds 30003; fails 30004] in
  state cb = OPEN /\ successCount cb = 1
  /\ state (run cb [succeeds 60004]) = CLOSED.
Proof. vm_compute. repeat split. Qed.

End BreakerFacts.

Module RoutingFacts.
Import Router Breaker.

Local Open Scope Z_scope.

Lemma withBreaker_same (r : AnalysisRouter) (cb : CircuitBreaker) :
  circuitBreaker r = Some cb -> withBreaker cb r = r.
Proof. destruct r as [c b f]. cbn. intros ->. reflexivity. Qed.

Lemma analyzeWithAPI_refused (s : Services) (r : AnalysisRouter) (code : string)
      (now nowCatch : Z) (cb : CircuitBreaker) :
  apiClient r = true -> circuitBreaker r = Some cb -> refuses cb now = true ->
  analyzeWithAPI s r code now nowCatch = local s r [] code.
Proof.
  intros Hclient Hcb Hrefuses. unfold analyzeWithAPI, execute. rewrite Hclient, Hcb.
  unfold refuses in Hrefuses. apply andb_prop in Hrefuses. destruct Hrefuses as (Ho & Ht).
  rewrite Ho, Ht. cbn [invoked outcome breaker].
  rewrite (withBreaker_same r cb Hcb). reflexivity.
Qed.

Lemma execute_admitted {T} (cb : CircuitBreaker) (now : Z) (fn : Exn T) (nowCatch : Z) :
  refuses cb now = false ->
  invoked (execute cb now fn nowCatch) = true /\ outcome (execute cb now fn nowCatch) = fn.
Proof.
  unfold refuses, execute, settle. intros Hadmitted.
  destruct (isOpen (state cb)); cbn [andb] in Hadmitted; [rewrite Hadmitted|];
    destruct fn; split; reflexivity.
Qed.

(** X11.  For a caller of the pro tier, the upstream is invoked exactly when
    the router has a client, the flag [ml-detection] is not set to false and
    the breaker lets the call through; it is then invoked once, with the
    code under the file name [analysis.ts].  In every other case the
    upstream is not invoked, the router is unchanged, and what the caller
    gets is what the local analyzer gives for the code, as it is. *)
Theorem pro_tier_upstream_gate (s : Services) (r : AnalysisRouter) (code : string)
        (userContext : option UserContext) (now nowCatch : Z) :
  isProTier userContext = true ->
  let routed := analyze s r code userContext now nowCatch in
  (upstreamEnabled r && admits r now = true ->
   upstreamCalls routed = 1%nat
   /\ hd_error (invocations routed) = Some (Upstream (requestFor code)))
  /\ (upstreamEnabled r && admits r now = false ->
      upstreamCalls routed = 0%nat
      /\ router routed = r
      /\ settled routed = guardian_analyze s code).
Proof.
  intros Hpro routed. subst routed.
  unfold isProTier in Hpro. destruct userContext as [c|]; [|discriminate Hpro].
  unfold analyze. destruct (tier c); [discriminate Hpro|].
  unfold upstreamEnabled, admits.
  destruct (apiClient r) eqn:Hclient; [|split; [discriminate | intros _; repeat split]].
  destruct (circuitBreaker r) as [cb|] eqn:Hcb;
    [|split; [discriminate | intros _; repeat split]].
  destruct (featureFlags r "ml-detection") as [[|]|] eqn:Hflag; cbn [andb];
    try (split; [discriminate | intros _; repeat split]).
  - (* flag set to true *)
    split.
    + intros Hadmits. apply Bool.negb_true_iff in Hadmits.
      unfold analyzeWithAPI. rewrite Hclient, Hcb. fold (requestFor code).
      destruct (execute_admitted cb now
                  (match analyzeFast s (requestFor code) with
                   | Ok a => Ok (mapAPIResult a) | Throw e => Throw e end)
                  nowCatch Hadmits) as (Hinv & Hout).
      rewrite Hinv, Hout.
      destruct (analyzeFast s (requestFor code)) as [a|e]; cbn [settled]; [split; reflexivity|].
      unfold local. cbn [settled invocations router].
      destruct (guardian_analyze s code); split; reflexivity.
    + intros Hrefused. apply Bool.negb_false_iff in Hrefused.
      rewrite (analyzeWithAPI_refused s r code now nowCatch cb Hclient Hcb Hrefused).
      unfold local. cbn [settled invocations router].
      destruct (guardian_analyze s code); repeat split.
  - (* flag not set *)
    split.
    + intros Hadmits. apply Bool.negb_true_iff in Hadmits.
      unfold analyzeWithAPI. rewrite Hclient, Hcb. fold (requestFor code).
      destruct (execute_admitted cb now
                  (match analyzeFast s (requestFor code) with
                   | Ok a => Ok (mapAPIResult a) | Throw e => Throw e end)
                  nowCatch Hadmits) as (Hinv & Hout).
      rewrite Hinv, Hout.
      destruct (analyzeFast s (requestFor code)) as [a|e]; cbn [settled]; [split; reflexivity|].
      unfold local. cbn [settled invocations router].
      destruct (guardian_analyze s code); split; reflexivity.
    + intros Hrefused. apply Bool.negb_false_iff in Hrefused.
      rewrite (analyzeWithAPI_refused s r code now nowCatch cb Hclient Hcb Hrefused).
      unfold local. cbn [settled invocations router].
      destruct (guardian_analyze s code); repeat split.
Qed.

(** The instance of X11 for a router whose flag has been switched off. *)
Lemma pro_tier_upstream_gate_witness :
  let routed := analyze stubServices (setFeatureFlag "ml-detection" false
                                        (newAnalysisRouter true 0))
                        "let x = 1" proUser 5 5 in
  upstreamCalls routed = 0%nat
  /\ router routed = setFeatureFlag "ml-detection" false (newAnalysisRouter true 0)
  /\ settled routed = guardian_analyze stubServices "let x = 1".
Proof.
  apply (proj2 (pro_tier_upstream_gate stubServices
                  (setFeatureFlag "ml-detection" false (newAnalysisRouter true 0))
                  "let x = 1" proUser 5 5 eq_refl)).
  reflexivity.
Defined.

(** X12.  When the local analyzer gives a result for the code, [analyze]
    gives one too, whatever the tier, the flags, the breaker and the
    upstream do; and that result is the local one with the upgrade prompt
    (free tier, or no tier given), the local one as it is, or the upstream's
    answer mapped by [mapAPIResult] (pro tier only). *)
Theorem analyze_always_answers (s : Services) (r : AnalysisRouter) (code : string)
        (userContext : option UserContext) (now nowCatch : Z) (found : AnalysisResult) :
  guardian_analyze s code = Ok found ->
  let routed := analyze s r code userContext now nowCatch in
  (isProTier userContext = false
   /\ settled routed = Ok (addUpgradePrompt found freeTierMessage))
  \/ (isProTier userContext = true /\ settled routed = Ok found)
  \/ (isProTier userContext = true
      /\ exists answer, analyzeFast s (requestFor code) = Ok answer
                        /\ settled routed = Ok (mapAPIResult answer)).
Proof.
  intros Hlocal routed. subst routed. unfold analyze, isProTier.
  assert (Hfree : forall before r', settled (local s r' before code) = Ok found).
  { intros. unfold local. cbn [settled]. exact Hlocal. }
  destruct userContext as [c|]; [destruct (tier c)|];
    try (left; split; [reflexivity|]; cbn [settled]; rewrite Hlocal; reflexivity).
  right.
  destruct (apiClient r) eqn:Hclient; [|left; split; [reflexivity | apply Hfree]].
  destruct (circuitBreaker r) as [cb|] eqn:Hcb; [|left; split; [reflexivity | apply Hfree]].
  assert (Hvia :
            (settled (analyzeWithAPI s r code now nowCatch) = Ok found)
            \/ exists answer, analyzeFast s (requestFor code) = Ok answer
                              /\ settled (analyzeWithAPI s r code now nowCatch)
                                 = Ok (mapAPIResult answer)).
  { unfold analyzeWithAPI. rewrite Hclient, Hcb. fold (requestFor code).
    destruct (refuses cb now) eqn:Hrefuses.
    - unfold refuses in Hrefuses. apply andb_prop in Hrefuses. destruct Hrefuses as (Ho & Ht).
      unfold execute. rewrite Ho, Ht. cbn [outcome]. left. apply Hfree.
    - destruct (execute_admitted cb now
                  (match analyzeFast s (requestFor code) with
                   | Ok a => Ok (mapAPIResult a) | Throw e => Throw e end)
                  nowCatch Hrefuses) as (_ & Hout).
      rewrite Hout.
      destruct (analyzeFast s (requestFor code)) as [a|e].
      + right. exists a. split; reflexivity.
      + left. apply Hfree. }
  destruct (featureFlags r "ml-detection") as [[|]|];
    try (left; split; [reflexivity | apply Hfree]);
    (destruct Hvia as [Hvia | (answer & Hanswer & Hvia)]; rewrite Hvia;
     [left; split; [reflexivity | exact Hvia]
     | right; split; [reflexivity | exists answer; split; assumption]]).
Qed.

(** The instance of X12 for a pro caller whose upstream is down. *)
Lemma analyze_always_answers_witness :
  exists found,
    guardian_analyze upstreamDown "let x = 1" = Ok found
    /\ settled (analyze upstreamDown (newAnalysisRouter true 0) "let x = 1" proUser 5 5)
       = Ok found.
Proof.
  eexists. split; [reflexivity|].
  destruct (analyze_always_answers upstreamDown (newAnalysisRouter true 0) "let x = 1"
              proUser 5 5 _ eq_refl) as [(Hfree & _) | [(_ & H) | (_ & a & Ha & _)]].
  - discriminate Hfree.
  - exact H.
  - discriminate Ha.
Defined.

End RoutingFacts.

(** ** Hunks and halos *)

Module DiffFacts.
Import Diff.

Local Open Scope Z_scope.

Lemma fold_collect (haloSize : Z) (sortedLines : list ChangedLine) :
  forall hunks currentHunk,
    (match fold_left (selectStep haloSize) sortedLines (hunks, Some currentHunk) with
     | (hs, Some c) => hs ++ [c]
     | (hs, None) => hs
     end = hunks ++ collect haloSize currentHunk sortedLines)%list.
Proof.
  induction sortedLines as [|line rest IH]; intros hunks cur; [reflexivity|].
  cbn [fold_left selectStep collect].
  destruct (lineNumber line <=? endLine cur).
  - apply IH.
  - rewrite IH, <- app_assoc. reflexivity.
Qed.

Lemma selectHunksWithHalo_collect (changedLines : list ChangedLine) (haloSize : Z) :
  selectHunksWithHalo changedLines haloSize
  = match Hash.sort byLineNumber changedLines with
    | [] => []
    | line :: rest => collect haloSize (startHunk haloSize line) rest
    end.
Proof.
  unfold selectHunksWithHalo.
  destruct changedLines as [|c cl]; [reflexivity|].
  pose proof (HashFacts.sort_perm byLineNumber (c :: cl)) as Hperm.
  destruct (Hash.sort byLineNumber (c :: cl)) as [|line rest].
  - apply Permutation_nil in Hperm. discriminate Hperm.
  - cbn [fold_left selectStep]. apply (fold_collect haloSize rest [] (startHunk haloSize line)).
Qed.

Lemma collect_lines (haloSize : Z) (sortedLines : list ChangedLine) :
  forall currentHunk,
    hunkLines (collect haloSize currentHunk sortedLines)
    = (lines currentHunk ++ sortedLines)%list.
Proof.
  unfold hunkLines.
  induction sortedLines as [|line rest IH]; intros cur; cbn [collect].
  - cbn. reflexivity.
  - destruct (lineNumber line <=? endLine cur).
    + rewrite IH. cbn [lines extendHunk]. rewrite <- app_assoc. reflexivity.
    + cbn [flat_map]. rewrite IH. reflexivity.
Qed.

Lemma collect_nonempty (haloSize : Z) (sortedLines : list ChangedLine) :
  forall currentHunk,
    lines currentHunk <> [] ->
    Forall (fun h => lines h <> []) (collect haloSize currentHunk sortedLines).
Proof.
  induction sortedLines as [|line rest IH]; intros cur Hcur; cbn [collect].
  - constructor; [exact Hcur | constructor].
  - destruct (lineNumber line <=? endLine cur).
    + apply IH. cbn [lines extendHunk]. destruct (lines cur); discriminate.
    + constructor; [exact Hcur|]. apply IH. discriminate.
Qed.

Lemma selectHunksWithHalo_lines (changedLines : list ChangedLine) (haloSize : Z) :
  hunkLines (selectHunksWithHalo changedLines haloSize)
  = Hash.sort byLineNumber changedLines.
Proof.
  rewrite selectHunksWithHalo_collect.
  destruct (Hash.sort byLineNumber changedLines) as [|line rest]; [reflexivity|].
  rewrite collect_lines. reflexivity.
Qed.

(** X13.  The hunks hold every changed line exactly once: read one after
    the other, their lines are the changed lines sorted by line number
    (lines with the same number in the order they came in), whatever the
    halo is; and no hunk is empty. *)
Theorem hunks_partition_the_changed_lines (changedLines : list ChangedLine) (haloSize : Z) :
  hunkLines (selectHunksWithHalo changedLines haloSize)
  = Hash.sort byLineNumber changedLines
  /\ Permutation (hunkLines (selectHunksWithHalo changedLines haloSize)) changedLines
  /\ Forall (fun h => lines h <> []) (selectHunksWithHalo changedLines haloSize).
Proof.
  pose proof (selectHunksWithHalo_lines changedLines haloSize) as Hlines.
  split; [exact Hlines|]. split.
  - rewrite Hlines. apply HashFacts.sort_perm.
  - rewrite selectHunksWithHalo_collect.
    destruct (Hash.sort byLineNumber changedLines) as [|line rest]; [constructor|].
    apply collect_nonempty. discriminate.
Qed.

Lemma sort_ascending (changedLines : list ChangedLine) :
  ascending (Hash.sort byLineNumber changedLines).
Proof.
  unfold ascending.
  assert (H : StronglySorted (Hash.before byLineNumber)
                             (Hash.sort byLineNumber changedLines)).
  { apply (HashFacts.sort_sorted byLineNumber (fun _ => True)).
    - intros x y _ _. unfold Hash.before, byLineNumber. lia.
    - intros x y z _ _ _. unfold Hash.before, byLineNumber. lia.
    - apply Forall_forall. auto. }
  induction H as [|a l Hs IH Ha]; constructor; [exact IH|].
  eapply Forall_impl; [|exact Ha]. intros b. unfold Hash.before, byLineNumber. lia.
Qed.

Lemma chained_snoc (haloSize : Z) (ls : list ChangedLine) (line : ChangedLine) :
  ls <> [] -> chained haloSize ls ->
  last (map lineNumber ls) 0 <= lineNumber line <= last (map lineNumber ls) 0 + haloSize ->
  chained haloSize (ls ++ [line]).
Proof.
  induction ls as [|a ls IH]; intros Hne Hch Hlast; [congruence|].
  destruct ls as [|b ls].
  - cbn in *. split; [lia | exact I].
  - cbn [app chained] in *. destruct Hch as (Hab & Hch). split; [exact Hab|].
    apply IH; [discriminate | exact Hch | exact Hlast].
Qed.

Lemma firstNumber_extend (haloSize : Z) (cur : Hunk) (line : ChangedLine) :
  lines cur <> [] -> firstNumber (extendHunk haloSize cur line) = firstNumber cur.
Proof.
  unfold firstNumber. cbn [lines extendHunk].
  destruct (lines cur); [congruence | reflexivity].
Qed.

Lemma lastNumber_extend (haloSize : Z) (cur : Hunk) (line : ChangedLine) :
  lastNumber (extendHunk haloSize cur line) = lineNumber line.
Proof.
  unfold lastNumber. cbn [lines extendHunk]. rewrite map_app. cbn [map]. apply last_last.
Qed.

Lemma startHunk_wellFormed (haloSize : Z) (line : ChangedLine) :
  wellFormedHunk haloSize (startHunk haloSize line).
Proof.
  unfold wellFormedHunk, firstNumber, lastNumber.
  cbn [lines startLine endLine startHunk map hd last chained].
  split; [discriminate|]. split; [reflexivity|]. split; [reflexivity|].
  split; [|exact I]. intros l [<- | []]. lia.
Qed.

Lemma extendHunk_wellFormed (haloSize : Z) (cur : Hunk) (line : ChangedLine) :
  wellFormedHunk haloSize cur ->
  lastNumber cur <= lineNumber line <= endLine cur ->
  wellFormedHunk haloSize (extendHunk haloSize cur line).
Proof.
  intros (Hne & Hstart & Hend & Hrange & Hch) Hline.
  unfold wellFormedHunk.
  rewrite (firstNumber_extend haloSize cur line Hne), lastNumber_extend.
  cbn [lines startLine endLine extendHunk].
  assert (Hfirst : firstNumber cur <= lastNumber cur).
  { destruct (lines cur) as [|a l] eqn:E; [congruence|].
    specialize (Hrange a (or_introl eq_refl)). lia. }
  split; [destruct (lines cur); discriminate|].
  split; [exact Hstart|]. split; [reflexivity|]. split.
  - intros l Hl. apply in_app_or in Hl. destruct Hl as [Hl | [<- | []]].
    + specialize (Hrange l Hl). lia.
    + lia.
  - apply chained_snoc; [exact Hne | exact Hch|]. unfold lastNumber in *. lia.
Qed.

Lemma collect_wellFormed (haloSize : Z) (sortedLines : list ChangedLine) :
  forall cur,
    wellFormedHunk haloSize cur ->
    ascending sortedLines ->
    (forall line, In line sortedLines -> lastNumber cur <= lineNumber line) ->
    Forall (wellFormedHunk haloSize) (collect haloSize cur sortedLines).
Proof.
  induction sortedLines as [|line rest IH]; intros cur Hcur Hasc Hpast; cbn [collect].
  - constructor; [exact Hcur | constructor].
  - inversion Hasc as [|? ? Hrest Hline]; subst. rewrite Forall_forall in Hline.
    destruct (lineNumber line <=? endLine cur) eqn:Hin.
    + apply Z.leb_le in Hin. apply IH; [|exact Hrest|].
      * apply extendHunk_wellFormed; [exact Hcur|].
        split; [apply Hpast; left; reflexivity | exact Hin].
      * intros l Hl. rewrite lastNumber_extend. apply Hline. exact Hl.
    + constructor; [exact Hcur|]. apply IH; [apply startHunk_wellFormed | exact Hrest|].
      intros l Hl. unfold lastNumber. cbn. apply Hline. exact Hl.
Qed.

Lemma in_hunkLines (hunks : list Hunk) (hunk : Hunk) (line : ChangedLine) :
  In hunk hunks -> In line (lines hunk) -> In line (hunkLines hunks).
Proof. intros Hh Hl. unfold hunkLines. apply in_flat_map. exists hunk. auto. Qed.

Lemma collect_separated (haloSize : Z) (sortedLines : list ChangedLine) :
  forall cur, ascending sortedLines -> separated (collect haloSize cur sortedLines).
Proof.
  induction sortedLines as [|line rest IH]; intros cur Hasc; cbn [collect].
  - cbn. split; [intros ? ? []|exact I].
  - inversion Hasc as [|? ? Hrest Hline]; subst. rewrite Forall_forall in Hline.
    destruct (lineNumber line <=? endLine cur) eqn:Hin; [apply IH; exact Hrest|].
    apply Z.leb_gt in Hin. cbn [separated]. split; [|apply IH; exact Hrest].
    intros later l Hlater Hl.
    pose proof (in_hunkLines _ later l Hlater Hl) as Hamong.
    rewrite collect_lines in Hamong. cbn in Hamong.
    destruct Hamong as [<- | Hamong]; [exact Hin|].
    specialize (Hline l Hamong). lia.
Qed.

Lemma selectHunksWithHalo_wellFormed (changedLines : list ChangedLine) (haloSize : Z) :
  Forall (wellFormedHunk haloSize) (selectHunksWithHalo changedLines haloSize)
  /\ separated (selectHunksWithHalo changedLines haloSize).
Proof.
  rewrite selectHunksWithHalo_collect.
  pose proof (sort_ascending changedLines) as Hasc.
  destruct (Hash.sort byLineNumber changedLines) as [|line rest];
    [split; [constructor | exact I]|].
  inversion Hasc as [|? ? Hrest Hline]; subst. rewrite Forall_forall in Hline.
  split.
  - apply collect_wellFormed; [apply startHunk_wellFormed | exact Hrest|].
    intros l Hl. unfold lastNumber. cbn. apply Hline. exact Hl.
  - apply collect_separated. exact Hrest.
Qed.

Lemma wellFormedHunk_holdsHalo (haloSize : Z) (hunk : Hunk) (line : ChangedLine) :
  wellFormedHunk haloSize hunk -> In line (lines hunk) ->
  1 <= startLine hunk /\ holdsHalo haloSize hunk line.
Proof.
  intros (_ & Hstart & Hend & Hrange & _) Hline.
  specialize (Hrange line Hline). unfold holdsHalo. lia.
Qed.

(** X14.  Every hunk runs from the halo before its first changed line, cut
    at line 1, to the halo after its last one, so that it holds the halo of
    each of its lines; inside a hunk each changed line is at most
    [haloSize] past the one before it; and every changed line of a later
    hunk lies past the end of an earlier hunk. *)
Theorem hunks_hold_the_halos (changedLines : list ChangedLine) (haloSize : Z) :
  let hunks := selectHunksWithHalo changedLines haloSize in
  Forall (wellFormedHunk haloSize) hunks
  /\ (forall hunk line, In hunk hunks -> In line (lines hunk) ->
                        1 <= startLine hunk /\ holdsHalo haloSize hunk line)
  /\ separated hunks.
Proof.
  intros hunks.
  destruct (selectHunksWithHalo_wellFormed changedLines haloSize) as (Hwf & Hsep).
  fold hunks in Hwf, Hsep.
  split; [exact Hwf|]. split; [|exact Hsep].
  intros hunk line Hhunk Hline.
  rewrite Forall_forall in Hwf.
  apply wellFormedHunk_holdsHalo; [apply Hwf; exact Hhunk | exact Hline].
Qed.

(** Halos are not merged: with the default halo, changes at lines 1 and 6
    give two hunks whose ranges share lines 3 and 4, and the filtered text
    has them twice. *)
Example hunks_may_overlap :
  map (fun h => (startLine h, endLine h))
      (selectHunksWithHalo [changedAt 6; changedAt 1] defaultHalo)
  = [(1, 4); (3, 9)]
  /\ resultLines sixLines (selectHunksWithHalo [changedAt 6; changedAt 1] defaultHalo)
     = ["a"; "b"; "c"; "d"; "c"; "d"; "e"; "f"]%string.
Proof. split; reflexivity. Qed.

Lemma split_nonempty (sep : ascii) (s : string) : JS.split sep s <> [].
Proof.
  destruct s as [|c s]; cbn; [discriminate|].
  destruct (Ascii.eqb c sep); [discriminate|].
  destruct (JS.split sep s); discriminate.
Qed.

Lemma join_cons (sep p : string) (rest : list string) :
  rest <> [] -> JS.join sep (p :: rest) = (p ++ sep ++ JS.join sep rest)%string.
Proof. destruct rest; [congruence | reflexivity]. Qed.

Lemma join_split (s : string) : JS.join newline (JS.split "010"%char s) = s.
Proof.
  induction s as [|c s IH]; [reflexivity|].
  cbn [JS.split]. pose proof (split_nonempty "010"%char s) as Hne.
  destruct (Ascii.eqb c "010"%char) eqn:Hc.
  - apply Ascii.eqb_eq in Hc. subst c.
    rewrite (join_cons _ _ _ Hne), IH. reflexivity.
  - destruct (JS.split "010"%char s) as [|seg segs]; [congruence|].
    destruct segs as [|seg' segs].
    + cbn in *. rewrite IH. reflexivity.
    + rewrite join_cons by discriminate. rewrite join_cons in IH by discriminate.
      rewrite <- IH. reflexivity.
Qed.

Lemma map_nth_all {A} (d : A) (l : list A) :
  map (fun k => nth k l d) (seq 0 (List.length l)) = l.
Proof.
  induction l as [|a l IH]; [reflexivity|].
  cbn [List.length seq map nth]. f_equal.
  rewrite <- seq_shift, map_map. exact IH.
Qed.

Lemma lineAt_indices (fileLines : list string) :
  map (lineAt fileLines) (indices 0 (Z.of_nat (List.length fileLines))) = fileLines.
Proof.
  unfold indices. rewrite Z.sub_0_r, Nat2Z.id, map_map.
  transitivity (map (fun k => nth k fileLines EmptyString) (seq 0 (List.length fileLines)));
    [|apply map_nth_all].
  apply map_ext. intros k. unfold lineAt.
  assert (H : (0 + Z.of_nat k <? 0) = false) by (apply Z.ltb_ge; lia).
  rewrite H. cbn [Z.add]. rewrite Nat2Z.id. reflexivity.
Qed.

(** X15.  Filtering a text by one hunk that starts at line 1 and ends at or
    after the last line gives the text back, unchanged. *)
Theorem filter_by_whole_file_is_identity (fileContent : string) (hunk : Hunk) :
  startLine hunk = 1 ->
  lineCount fileContent <= endLine hunk ->
  filterContentByHunks fileContent [hunk] = fileContent.
Proof.
  intros Hstart Hend. unfold filterContentByHunks, resultLines, hunkIndices, lineCount in *.
  cbn [flat_map]. rewrite app_nil_r, Hstart, Z.min_r by exact Hend.
  change (1 - 1) with 0. rewrite lineAt_indices. apply join_split.
Qed.

(** The instance of X15 for a file of six lines and a longer hunk. *)
Lemma filter_by_whole_file_is_identity_witness :
  filterContentByHunks sixLines [{| startLine := 1; endLine := 9; lines := [] |}]
  = sixLines.
Proof.
  apply (filter_by_whole_file_is_identity sixLines
           {| startLine := 1; endLine := 9; lines := [] |}).
  - reflexivity.
  - vm_compute. discriminate.
Defined.

Lemma In_indices (from upto i : Z) : from <= i < upto -> In i (indices from upto).
Proof.
  intros Hi. unfold indices. apply in_map_iff. exists (Z.to_nat (i - from)).
  split; [lia|]. apply in_seq. lia.
Qed.

(** X16.  Selecting hunks and filtering by them keeps, for every changed
    line, the line of the text with its number and the lines up to
    [haloSize] before and after it, as far as the text has them. *)
Theorem filtered_text_keeps_changes_and_halos
        (fileContent : string) (changedLines : list ChangedLine) (haloSize : Z)
        (line : ChangedLine) (n : Z) :
  In line changedLines ->
  lineNumber line - haloSize <= n <= lineNumber line + haloSize ->
  1 <= n <= lineCount fileContent ->
  In (fileLine fileContent n)
     (resultLines fileContent (selectHunksWithHalo changedLines haloSize)).
Proof.
  intros Hline Hnear Hinside.
  assert (Hamong : In line (hunkLines (selectHunksWithHalo changedLines haloSize))).
  { rewrite selectHunksWithHalo_lines.
    apply (Permutation_in _ (Permutation_sym (HashFacts.sort_perm byLineNumber changedLines))).
    exact Hline. }
  unfold hunkLines in Hamong. apply in_flat_map in Hamong.
  destruct Hamong as (hunk & Hhunk & Hin).
  destruct (selectHunksWithHalo_wellFormed changedLines haloSize) as (Hwf & _).
  rewrite Forall_forall in Hwf.
  destruct (wellFormedHunk_holdsHalo haloSize hunk line (Hwf hunk Hhunk) Hin)
    as (Hstart & Hlow & Hhigh).
  unfold resultLines. apply in_flat_map. exists hunk. split; [exact Hhunk|].
  apply in_map_iff. exists (n - 1). split.
  - unfold lineAt, fileLine.
    assert (H : (n - 1 <? 0) = false) by (apply Z.ltb_ge; lia).
    rewrite H. reflexivity.
  - apply In_indices. unfold hunkIndices. unfold lineCount in Hinside. lia.
Qed.

(** The instance of X16: line 6 of six is changed, line 4 is in its halo. *)
Lemma filtered_text_keeps_changes_and_halos_witness :
  In "d"%string (resultLines sixLines (selectHunksWithHalo [changedAt 6] 2)).
Proof.
  apply (filtered_text_keeps_changes_and_halos sixLines [changedAt 6] 2 (changedAt 6) 4).
  - left. reflexivity.
  - cbn. lia.
  - vm_compute. split; discriminate.
Defined.

(** *** [createChangedLines] *)

Lemma visitLines_visited (change : Change) (pieces : list string) :
  forall st, visitLines change st pieces = fold_left (visit change) (visited pieces) st.
Proof.
  induction pieces as [|text rest IH]; intros st; [reflexivity|].
  destruct rest as [|next rest].
  - cbn. destruct (text =? "")%string; reflexivity.
  - cbn [visitLines visited fold_left]. apply IH.
Qed.

(** What the loops keep of [changedLines] and [currentLineNumber]. *)
Lemma visit_keeps (change : Change) (acc : list ChangedLine) (n : Z) (text : string) :
  1 <= n ->
  Forall (fun l => type l <> ContextLine /\ 1 <= lineNumber l <= n) acc ->
  ascending acc ->
  let st := visit change (acc, n) text in
  n <= snd st
  /\ Forall (fun l => type l <> ContextLine /\ 1 <= lineNumber l <= snd st) (fst st)
  /\ ascending (fst st).
Proof.
  intros Hn Hacc Hasc. unfold visit, typeOf.
  assert (Hwiden : forall m, n <= m ->
            Forall (fun l => type l <> ContextLine /\ 1 <= lineNumber l <= m) acc).
  { intros m Hm. eapply Forall_impl; [|exact Hacc]. cbn. intros l (Ht & Hl). split; [exact Ht | lia]. }
  assert (Hsnoc : forall x, lineNumber x = n -> ascending (acc ++ [x])).
  { intros x Hx. clear Hwiden. unfold ascending in *.
    induction Hasc as [|a l Hs IH Ha]; cbn; [repeat constructor|].
    inversion Hacc as [|? ? (_ & Hle) Hl]; subst.
    constructor; [apply IH; exact Hl|].
    apply Forall_app. split; [exact Ha|]. constructor; [lia | constructor]. }
  destruct (added change), (removed change); cbn [orb fst snd];
    (split; [lia|]); (split; [|try apply Hsnoc; try exact Hasc; reflexivity]);
    try (apply Forall_app; split; [apply Hwiden; lia|];
         constructor; [cbn; split; [discriminate | lia] | constructor]);
    apply Hwiden; lia.
Qed.

Lemma visitChange_keeps (change : Change) (acc : list ChangedLine) (n : Z) :
  1 <= n ->
  Forall (fun l => type l <> ContextLine /\ 1 <= lineNumber l <= n) acc ->
  ascending acc ->
  let st := visitChange (acc, n) change in
  1 <= snd st
  /\ Forall (fun l => type l <> ContextLine /\ 1 <= lineNumber l <= snd st) (fst st)
  /\ ascending (fst st).
Proof.
  unfold visitChange. rewrite visitLines_visited.
  generalize (visited (JS.split "010"%char (value change))) as texts.
  intros texts. revert acc n.
  induction texts as [|text rest IH]; intros acc n Hn Hacc Hasc; cbn [fold_left].
  - cbn. auto.
  - destruct (visit_keeps change acc n text Hn Hacc Hasc) as (Hle & Hacc' & Hasc').
    destruct (visit change (acc, n) text) as [acc' n']. cbn [fst snd] in *.
    apply IH; [lia | exact Hacc' | exact Hasc'].
Qed.

Lemma createChangedLines_keeps (changes : list Change) :
  Forall (fun l => type l <> ContextLine /\ 1 <= lineNumber l) (createChangedLines changes)
  /\ ascending (createChangedLines changes).
Proof.
  unfold createChangedLines.
  assert (H : forall acc n,
             1 <= n ->
             Forall (fun l => type l <> ContextLine /\ 1 <= lineNumber l <= n) acc ->
             ascending acc ->
             let st := fold_left visitChange changes (acc, n) in
             Forall (fun l => type l <> ContextLine /\ 1 <= lineNumber l) (fst st)
             /\ ascending (fst st)).
  { induction changes as [|change rest IH]; intros acc n Hn Hacc Hasc; cbn [fold_left].
    - cbn. split; [|exact Hasc]. eapply Forall_impl; [|exact Hacc]. cbn. intuition.
    - destruct (visitChange_keeps change acc n Hn Hacc Hasc) as (Hn' & Hacc' & Hasc').
      destruct (visitChange (acc, n) change) as [acc' n']. cbn [fst snd] in *.
      apply IH; assumption. }
  apply (H [] 1); [lia | constructor | constructor].
Qed.

Lemma sort_ascending_same (l : list ChangedLine) :
  ascending l -> Hash.sort byLineNumber l = l.
Proof.
  unfold ascending. induction 1 as [|a l Hs IH Ha]; [reflexivity|].
  cbn [Hash.sort fold_right]. fold (Hash.sort byLineNumber l). rewrite IH.
  destruct l as [|b l]; [reflexivity|].
  cbn [Hash.insert]. inversion Ha as [|? ? Hab _]; subst.
  unfold byLineNumber.
  assert (H : (lineNumber a - lineNumber b <=? 0) = true) by (apply Z.leb_le; lia).
  rewrite H. reflexivity.
Qed.

(** X17.  [createChangedLines] gives added and removed lines only, never
    context lines, with line numbers from 1 on and in ascending order; so
    the hunks selected from them hold them in the order they were made. *)
Theorem createChangedLines_ascending (changes : list Change) (haloSize : Z) :
  Forall (fun l => type l <> ContextLine /\ 1 <= lineNumber l) (createChangedLines changes)
  /\ ascending (createChangedLines changes)
  /\ hunkLines (selectHunksWithHalo (createChangedLines changes) haloSize)
     = createChangedLines changes.
Proof.
  destruct (createChangedLines_keeps changes) as (Hall & Hasc).
  split; [exact Hall|]. split; [exact Hasc|].
  rewrite selectHunksWithHalo_lines. apply sort_ascending_same. exact Hasc.
Qed.

Lemma split_app_sep (sep : ascii) (a rest : string) :
  JS.split sep (a ++ String sep rest) = (JS.split sep a ++ JS.split sep rest)%list.
Proof.
  induction a as [|c a IH]; cbn [String.append JS.split].
  - rewrite Ascii.eqb_refl. reflexivity.
  - rewrite IH. pose proof (split_nonempty sep a) as Hne.
    destruct (Ascii.eqb c sep); [reflexivity|].
    destruct (JS.split sep a) as [|seg segs]; [congruence | reflexivity].
Qed.

Lemma visited_snoc_empty (texts : list string) : visited (texts ++ [EmptyString]) = texts.
Proof.
  induction texts as [|t texts IH]; [reflexivity|].
  cbn [app]. destruct texts as [|u texts]; [reflexivity|].
  cbn [app visited] in *. rewrite IH. reflexivity.
Qed.

Lemma append_empty (s : string) : (s ++ "")%string = s.
Proof. induction s as [|c s IH]; cbn; [reflexivity | rewrite IH; reflexivity]. Qed.

Lemma append_newline (a rest : string) :
  ((a ++ newline) ++ rest)%string = (a ++ String "010"%char rest)%string.
Proof. induction a as [|c a IH]; cbn; [reflexivity | rewrite IH; reflexivity]. Qed.

Lemma terminated_cases (v : string) :
  terminated v = true -> v = EmptyString \/ exists a, v = (a ++ newline)%string.
Proof.
  induction v as [|c v IH]; [auto|]. intros H. right.
  destruct v as [|d v].
  - cbn in H. apply Ascii.eqb_eq in H. subst c. exists EmptyString. reflexivity.
  - cbn [terminated] in H. destruct (IH H) as [Hv | (a & Ha)]; [discriminate Hv|].
    exists (String c a). cbn. rewrite <- Ha. reflexivity.
Qed.

Lemma visited_terminated (a : string) :
  visited (JS.split "010"%char (a ++ newline)) = JS.split "010"%char a.
Proof.
  unfold newline. rewrite split_app_sep. cbn [JS.split]. apply visited_snoc_empty.
Qed.

Lemma split_cons (sep c : ascii) (rest : string) :
  JS.split sep (String c rest)
  = if Ascii.eqb c sep then EmptyString :: JS.split sep rest
    else match JS.split sep rest with
         | [] => [String c EmptyString]
         | seg :: segs => String c seg :: segs
         end.
Proof. reflexivity. Qed.

Lemma visited_unterminated (v : string) :
  terminated v = false -> visited (JS.split "010"%char v) = JS.split "010"%char v.
Proof.
  induction v as [|c v IH]; [discriminate|]. intros H.
  destruct v as [|d v].
  - cbn in H. cbn. rewrite H. reflexivity.
  - change (terminated (String c (String d v))) with (terminated (String d v)) in H.
    specialize (IH H).
    pose proof (split_nonempty "010"%char (String d v)) as Hne.
    rewrite split_cons.
    destruct (JS.split "010"%char (String d v)) as [|seg segs]; [congruence|].
    destruct (Ascii.eqb c "010"%char).
    + change (visited (EmptyString :: seg :: segs))
        with (EmptyString :: visited (seg :: segs)).
      rewrite IH. reflexivity.
    + destruct segs as [|seg' segs]; [reflexivity|].
      change (visited (String c seg :: seg' :: segs))
        with (String c seg :: visited (seg' :: segs)).
      change (visited (seg :: seg' :: segs)) with (seg :: visited (seg' :: segs)) in IH.
      f_equal. injection IH as IH. exact IH.
Qed.

Lemma fold_visit (change : Change) (texts : list string) :
  forall acc n,
    fold_left (visit change) texts (acc, n)
    = ((acc ++ if added change || removed change
               then numbered (typeOf change) (negb (removed change)) n texts
               else [])%list,
       if removed change then n else n + Z.of_nat (List.length texts)).
Proof.
  induction texts as [|text rest IH]; intros acc n.
  - cbn [fold_left numbered List.length Z.of_nat].
    destruct (added change), (removed change); cbn [orb];
      rewrite ?app_nil_r, ?Z.add_0_r; reflexivity.
  - cbn [fold_left]. unfold visit at 2. rewrite IH.
    destruct (added change), (removed change); cbn [orb negb numbered List.length];
      rewrite <- ?app_assoc; cbn [app]; f_equal; lia.
Qed.

Lemma numbered_kind (kind : LineType) (advance : bool) (texts : list string) :
  forall n l, In l (numbered kind advance n texts) -> type l = kind.
Proof.
  induction texts as [|text rest IH]; intros n l; cbn [numbered]; [intros []|].
  intros [<- | Hl]; [reflexivity | exact (IH _ l Hl)].
Qed.

Lemma numbered_place (kind : LineType) (texts : list string) :
  forall n l, In l (numbered kind true n texts) ->
              exists k, nth_error texts k = Some (content l)
                        /\ lineNumber l = n + Z.of_nat k.
Proof.
  induction texts as [|text rest IH]; intros n l; cbn [numbered]; [intros []|].
  intros [<- | Hl].
  - exists 0%nat. cbn. split; [reflexivity | lia].
  - destruct (IH _ l Hl) as (k & Hk & Hn). exists (S k). cbn [nth_error].
    split; [exact Hk | lia].
Qed.

Lemma newText_cons (change : Change) (rest : list Change) :
  newText (change :: rest)
  = if removed change then newText rest else (value change ++ newText rest)%string.
Proof.
  unfold newText. cbn [filter]. destruct (removed change); cbn [negb]; [reflexivity|].
  cbn [map String.concat].
  destruct (map value (filter (fun c => negb (removed c)) rest)) as [|x xs].
  - cbn. rewrite append_empty. reflexivity.
  - reflexivity.
Qed.

Lemma nth_error_front {A} (front back : list A) (i : nat) (x : A) :
  nth_error front i = Some x -> nth_error (front ++ back) i = Some x.
Proof.
  intros H. rewrite nth_error_app1; [exact H|].
  apply nth_error_Some. congruence.
Qed.

(** The loop over the changes, with the lines of the new text it has passed. *)
Lemma numbering_kept (newLines : list string) (changes : list Change) :
  forall acc n passed tail,
    wholeLines changes = true ->
    newLines = (passed ++ tail)%list ->
    Z.of_nat (List.length passed) = n - 1 ->
    (tail = JS.split "010"%char (newText changes) \/ newText changes = EmptyString) ->
    (forall l, In l acc -> type l = Added ->
               nth_error passed (Z.to_nat (lineNumber l - 1)) = Some (content l)) ->
    forall l, In l (fst (fold_left visitChange changes (acc, n))) -> type l = Added ->
              nth_error newLines (Z.to_nat (lineNumber l - 1)) = Some (content l).
Proof.
  induction changes as [|change rest IH]; intros acc n passed tail Hwhole Hnew Hlen Htail Hacc.
  - cbn [fold_left fst]. intros l Hl Hadded. rewrite Hnew.
    apply nth_error_front. apply Hacc; assumption.
  - cbn [fold_left]. unfold visitChange at 2. rewrite visitLines_visited, fold_visit.
    cbn [wholeLines] in Hwhole.
    apply andb_prop in Hwhole. destruct Hwhole as (Hwhole & Hrest).
    apply andb_prop in Hwhole. destruct Hwhole as (Hflags & Hterm).
    rewrite newText_cons in Htail.
    destruct (removed change) eqn:Hremoved.
    + (* a removed change: the new text is not touched *)
      destruct (added change) eqn:Hadd; [discriminate Hflags|]. cbn [orb negb].
      apply (IH _ n passed tail Hrest Hnew Hlen Htail).
      intros l Hl Hadded. apply in_app_or in Hl. destruct Hl as [Hl | Hl].
      * apply Hacc; assumption.
      * apply numbered_kind in Hl. unfold typeOf in Hl. rewrite Hadd, Hremoved in Hl.
        congruence.
    + cbn [orb negb] in *. rewrite Bool.orb_false_r.
      set (texts := visited (JS.split "010"%char (value change))) in *.
      assert (Hgrow :
                forall tail',
                  newLines = ((passed ++ texts) ++ tail')%list ->
                  (tail' = JS.split "010"%char (newText rest) \/ newText rest = EmptyString) ->
                  forall l,
                    In l (fst (fold_left visitChange rest
                                 ((acc ++ if added change
                                          then numbered (typeOf change) true n texts
                                          else [])%list,
                                  n + Z.of_nat (List.length texts)))) ->
                    type l = Added ->
                    nth_error newLines (Z.to_nat (lineNumber l - 1)) = Some (content l)).
      { intros tail' Hnew' Htail'.
        apply (IH _ _ (passed ++ texts)%list tail' Hrest Hnew');
          [rewrite length_app; lia | exact Htail'|].
        intros l Hl Hadded. apply in_app_or in Hl. destruct Hl as [Hl | Hl].
        - apply nth_error_front. apply Hacc; assumption.
        - destruct (added change); [|destruct Hl].
          apply numbered_place in Hl. destruct Hl as (k & Hk & Hnum).
          rewrite nth_error_app2 by lia.
          replace (Z.to_nat (lineNumber l - 1) - List.length passed)%nat with k by lia.
          exact Hk. }
      destruct (terminated (value change)) eqn:Hv.
      * destruct (terminated_cases _ Hv) as [Hempty | (a & Ha)].
        -- (* an empty value *)
           subst texts. rewrite Hempty in *. cbn [visited JS.split String.eqb] in *.
           cbn [String.append] in Htail.
           apply (Hgrow tail); [rewrite app_nil_r; exact Hnew | exact Htail].
        -- (* whole lines *)
           subst texts. rewrite Ha in *. rewrite visited_terminated in *.
           destruct Htail as [Htail | Htail];
             [|destruct a; discriminate Htail].
           rewrite append_newline, split_app_sep in Htail.
           apply (Hgrow (JS.split "010"%char (newText rest)));
             [rewrite <- app_assoc, <- Htail; exact Hnew | left; reflexivity].
      * (* the last piece of the new text, without a line break at its end *)
        cbn [orb] in Hterm. apply String.eqb_eq in Hterm.
        subst texts. rewrite (visited_unterminated _ Hv) in *.
        rewrite Hterm, append_empty in Htail.
        destruct Htail as [Htail | Htail];
          [|rewrite Htail in Hv; discriminate Hv].
        apply (Hgrow []); [rewrite app_nil_r, <- Htail; exact Hnew | right; exact Hterm].
Qed.

(** X18.  For the changes of a diff by lines, every added line has the
    number of the line of the new text that it is: the new text, split at
    line breaks, has the content of the added line at that number.  The new
    text is what the changes that are not removed give, one after the
    other. *)
Theorem added_lines_numbered_as_in_new_text (changes : list Change) (line : ChangedLine) :
  wholeLines changes = true ->
  In line (createChangedLines changes) ->
  type line = Added ->
  1 <= lineNumber line <= lineCount (newText changes)
  /\ fileLine (newText changes) (lineNumber line) = content line.
Proof.
  intros Hwhole Hline Hadded.
  assert (Hnth : nth_error (JS.split "010"%char (newText changes))
                           (Z.to_nat (lineNumber line - 1)) = Some (content line)).
  { apply (numbering_kept _ changes [] 1 [] (JS.split "010"%char (newText changes)));
      auto.
    intros l []. }
  destruct (createChangedLines_keeps changes) as (Hall & _).
  rewrite Forall_forall in Hall. destruct (Hall line Hline) as (_ & Hone).
  assert (Hlt : (Z.to_nat (lineNumber line - 1)
                 < List.length (JS.split "010"%char (newText changes)))%nat).
  { apply nth_error_Some. congruence. }
  split; [unfold lineCount; lia|].
  unfold fileLine. apply nth_error_nth. exact Hnth.
Qed.

(** The instance of X18: the line added at the end of [edit] is line 4. *)
Lemma added_lines_numbered_as_in_new_text_witness :
  1 <= 4 <= lineCount (newText edit) /\ fileLine (newText edit) 4 = "d"%string.
Proof.
  apply (added_lines_numbered_as_in_new_text edit
           {| lineNumber := 4; content := "d"; type := Added |}).
  - reflexivity.
  - vm_compute. right. right. left. reflexivity.
  - reflexivity.
Defined.

End DiffFacts.

(** ** What [FilePathSchema] lets through *)

Module SchemaFacts.
Import Security Schema.

Lemma validateBody_accepts_clean (h : Host) (filePath workspaceRoot realPath : string)
      (t : Telemetry) :
  validateBody h filePath workspaceRoot = (Ok realPath, t) ->
  textualReject h filePath = false.
Proof.
  unfold validateBody, textualReject, reject.
  destruct (JS.includes filePath JS.NULs); [discriminate|].
  destruct ((filePath =? "") || Nat.eqb (String.length (JS.trim filePath)) 0);
    [discriminate|].
  destruct (find _ encodedPatterns) eqn:Henc; [discriminate|].
  rewrite (SecurityFacts.find_none_existsb _ _ Henc).
  destruct (existsb (fun seg => seg =? "..") _); [discriminate|].
  reflexivity.
Qed.

Lemma validateFilePath_accepts (h : Host) (filePath workspaceRoot realPath : string)
      (t : Telemetry) :
  validateFilePath h filePath workspaceRoot = (Ok realPath, t) ->
  validateBody h filePath workspaceRoot = (Ok realPath, t).
Proof.
  unfold validateFilePath.
  destruct (validateBody h filePath workspaceRoot) as [[r|[[| |] m|v]] t'];
    intros H; try discriminate H; exact H.
Qed.

Lemma validateFilePathOriginal_accepts (h : Host) (filePath : string) :
  validateFilePathOriginal h filePath = Ok tt ->
  textualReject h filePath = false
  /\ path_isAbsolute (path h) (path_normalize (path h) filePath) = false.
Proof.
  unfold validateFilePathOriginal, textualReject.
  destruct (JS.includes filePath JS.NULs); [discriminate|].
  destruct ((filePath =? "") || Nat.eqb (String.length (JS.trim filePath)) 0);
    [discriminate|].
  destruct (path_isAbsolute (path h) (path_normalize (path h) filePath)); [discriminate|].
  destruct (existsb _ encodedPatterns); [discriminate|].
  destruct (existsb (fun seg => seg =? "..") _); [discriminate|].
  auto.
Qed.

(** X19.  Whatever [FilePathSchema] accepts has between 1 and 4096
    characters, no NUL, is not blank, and its normalized form has no encoded
    traversal token and no segment equal to [..], whether a workspace root
    has been set or not.  With a root set, the path resolves to the resolved
    root or to a path under it; with no root set (or an empty one), its
    normalized form is not absolute. *)
Theorem FilePathSchema_accepts_only_clean_paths
        (h : Host) (workspaceRoot : option string) (filePath : string) :
  FilePathSchema h workspaceRoot filePath = true ->
  1 <= String.length filePath <= 4096
  /\ textualReject h filePath = false
  /\ (forall root, workspaceRoot = Some root -> root <> ""%string ->
        exists realPath ws,
          validateFilePath h filePath root = (Ok realPath, [])
          /\ realpathSync (fs h) root = Real ws
          /\ inside h ws realPath = true)
  /\ (rootSet workspaceRoot = false ->
      path_isAbsolute (path h) (path_normalize (path h) filePath) = false).
Proof.
  unfold FilePathSchema. intros Haccepted.
  apply andb_prop in Haccepted. destruct Haccepted as (Hlen & Hrefined).
  apply andb_prop in Hlen. destruct Hlen as (Hmin & Hmax).
  apply Nat.leb_le in Hmin. apply Nat.leb_le in Hmax.
  split; [split; assumption|].
  unfold refinement in Hrefined.
  assert (Horiginal :
            fst (match validateFilePathOriginal h filePath with
                 | Ok _ => (true, @nil TrackCall)
                 | Throw _ => (false, [])
                 end) = true ->
            textualReject h filePath = false
            /\ path_isAbsolute (path h) (path_normalize (path h) filePath) = false).
  { destruct (validateFilePathOriginal h filePath) as [[]|e] eqn:Hv; [|discriminate].
    intros _. apply validateFilePathOriginal_accepts. exact Hv. }
  destruct workspaceRoot as [[|c root]|].
  - destruct (Horiginal Hrefined) as (Hclean & Hrel).
    split; [exact Hclean|]. split; [|intros _; exact Hrel].
    intros root [= <-] Hne. congruence.
  - pose proof (SecurityFacts.validateFilePath_outcome h filePath (String c root)) as Hout.
    destruct (validateFilePath h filePath (String c root)) as [[realPath|e] t] eqn:Hv;
      [|discriminate Hrefined].
    destruct Hout as (Ht & _ & ws & Hws & Hin). subst t.
    split; [|split].
    + apply validateFilePath_accepts in Hv.
      apply (validateBody_accepts_clean h filePath (String c root) realPath []). exact Hv.
    + intros r [= <-] _. exists realPath, ws. auto.
    + discriminate.
  - destruct (Horiginal Hrefined) as (Hclean & Hrel).
    split; [exact Hclean|]. split; [|intros _; exact Hrel].
    intros root Hroot. discriminate Hroot.
Qed.

(** The instance of X19 for [src/a.ts] under the workspace [/ws]. *)
Lemma FilePathSchema_accepts_only_clean_paths_witness :
  exists realPath ws,
    validateFilePath (posixHost disk true) "src/a.ts" "/ws" = (Ok realPath, [])
    /\ realpathSync disk "/ws" = Real ws
    /\ inside (posixHost disk true) ws realPath = true.
Proof.
  apply (proj1 (proj2 (proj2 (FilePathSchema_accepts_only_clean_paths
                                (posixHost disk true) (Some "/ws"%string) "src/a.ts"
                                eq_refl)))
           "/ws"%string eq_refl).
  discriminate.
Defined.

(** A path that is one blank passes [min(1)] and fails the refinement; a
    path out of the workspace through a symlink fails it once a root is set,
    and passes with no root set. *)
Example FilePathSchema_examples :
  FilePathSchema (posixHost disk true) None " " = false
  /\ FilePathSchema (posixHost disk true) (Some "/ws"%string) "link/passwd" = false
  /\ FilePathSchema (posixHost disk true) None "link/passwd" = true
  /\ FilePathSchema (posixHost disk true) None "/ws/b" = false
  /\ FilePathSchema (posixHost disk true) (Some "/ws"%string) "/ws/b" = true.
Proof. vm_compute. repeat split. Qed.

End SchemaFacts.

(** ** The tool handler: who gets in, what comes back *)

Module HandlerFacts.
Import Tools Handler.

Local Open Scope Z_scope.

Lemma callTool_invalid {W} (d : Deps W) (authResult : AuthResult)
      (name : string) (args : option Json) (w : W) :
  valid authResult = false ->
  callTool d authResult name args w = (accessDenied name, w).
Proof.
  intros Hinvalid. unfold callTool, hasToolAccess. rewrite Hinvalid. reflexivity.
Qed.

(** X20.  A caller whose key the cache does not vouch for and the
    authentication service does not confirm is denied every tool, the ones
    without a permission entry included: when [verifyApiKey] throws, resolves
    to nothing or says the key is not valid, the answer is the access-denied
    error for every tool name, and no tool runs.  An outage is not cached;
    an invalid key is, as [Invalid API key]. *)
Theorem unverified_callers_are_denied {M C W}
        (cacheGet : string -> C -> option (Z * AuthResult))
        (cacheSet : string -> Z * AuthResult -> C -> C)
        (verifyApiKey : string -> Exn (option (Verified M)))
        (getTierFromMetadata : option M -> AuthTier)
        (organizationIdOf : M -> option string)
        (d : Deps W) (SNAPBACK_API_KEY : option string) (now : Z) (c : C)
        (name : string) (args : option Json) (w : W) :
  let apiKey := JS.orString SNAPBACK_API_KEY "" in
  cacheMiss cacheGet apiKey now c = true ->
  (forall v, verifyApiKey apiKey = Ok (Some v) -> isValid v = false) ->
  handleToolCall cacheGet cacheSet verifyApiKey getTierFromMetadata organizationIdOf
                 d SNAPBACK_API_KEY now c name args w
  = (accessDenied name, w,
     if isThrow (verifyApiKey apiKey) then c else cacheSet apiKey (now, invalidKey) c).
Proof.
  intros apiKey Hmiss Hunverified. unfold handleToolCall. fold apiKey.
  assert (Hauth :
            authenticate cacheGet cacheSet verifyApiKey getTierFromMetadata organizationIdOf
                         apiKey now c
            = verify cacheSet verifyApiKey getTierFromMetadata organizationIdOf apiKey now c).
  { unfold authenticate, cacheMiss in *.
    destruct (cacheGet apiKey c) as [[timestamp cached]|]; [|reflexivity].
    apply Bool.negb_true_iff in Hmiss. rewrite Hmiss. reflexivity. }
  rewrite Hauth. unfold verify.
  destruct (verifyApiKey apiKey) as [[v|]|e]; cbn [isThrow].
  - rewrite (Hunverified v eq_refl). cbn [negb result cache].
    rewrite callTool_invalid by reflexivity. reflexivity.
  - cbn [result cache]. rewrite callTool_invalid by reflexivity. reflexivity.
  - cbn [result cache]. rewrite callTool_invalid by reflexivity. reflexivity.
Qed.

(** The instance of X20 for an authentication service that is down and a
    tool without a permission entry. *)
Lemma unverified_callers_are_denied_witness :
  handleToolCall (fun k c => c k) remember down (fun _ => TierPro) (fun _ => None)
                 SpecStore.deps (Some "sk_live_1"%string) 0 emptyCache
                 "catalog.list_tools" None SpecStore.seeded
  = (accessDenied "catalog.list_tools", SpecStore.seeded, emptyCache).
Proof.
  apply (unverified_callers_are_denied (fun k c => c k) remember down
           (fun _ => TierPro) (fun _ => None)
           SpecStore.deps (Some "sk_live_1"%string) 0 emptyCache
           "catalog.list_tools" None SpecStore.seeded).
  - reflexivity.
  - intros v Hv. discriminate Hv.
Defined.

Lemma sort_of_sorted {A} (compare : A -> A -> Z) (l : list A) :
  StronglySorted (Hash.before compare) l -> Hash.sort compare l = l.
Proof.
  induction 1 as [|a l Hs IH Ha]; [reflexivity|].
  cbn [Hash.sort fold_right]. fold (Hash.sort compare l). rewrite IH.
  destruct l as [|b l]; [reflexivity|].
  cbn [Hash.insert]. inversion Ha as [|? ? Hab _]; subst.
  unfold Hash.before in Hab. apply Z.leb_le in Hab. rewrite Hab. reflexivity.
Qed.

Lemma newestFirst_before (l : list SnapshotSummary) :
  newestFirst l
  <-> StronglySorted (Hash.before (fun a b => sum_timestamp b - sum_timestamp a)) l.
Proof.
  unfold newestFirst, Hash.before. split; intros H;
    (induction H as [|a l Hs IH Ha]; constructor; [exact IH|];
     eapply Forall_impl; [|exact Ha]; cbn; intros b; lia).
Qed.

(** X21.  [listSnapshots] never throws.  When the manager lists, it gives a
    summary for each snapshot of the manager, each once, newest first; and if
    the manager's list is newest first already, the summaries come in the
    manager's order, snapshots of the same time included.  When the manager
    throws, it gives a failure with the message of the error, or
    [Unknown error] for a thrown value that is not an error. *)
Theorem listSnapshots_newest_first {W} (manager : SnapshotManager W) (w : W) :
  match listSnapshots manager w with
  | (Success summaries, w') =>
      exists snapshots,
        mgr_list manager w = (Ok snapshots, w')
        /\ newestFirst summaries
        /\ Permutation summaries (map summaryOf snapshots)
        /\ (newestFirst (map summaryOf snapshots) -> summaries = map summaryOf snapshots)
  | (Failure message, w') =>
      exists e, mgr_list manager w = (Throw e, w') /\ message = unknownError e
  end.
Proof.
  unfold listSnapshots.
  destruct (mgr_list manager w) as [[snapshots|e] w'].
  - exists snapshots. fold summaryOf.
    change (map (fun snapshot => _) snapshots) with (map summaryOf snapshots).
    split; [reflexivity|]. split; [|split].
    + apply newestFirst_before.
      apply (HashFacts.sort_sorted _ (fun _ => True)).
      * intros x y _ _. unfold Hash.before. lia.
      * intros x y z _ _ _. unfold Hash.before. lia.
      * apply Forall_forall. auto.
    + apply HashFacts.sort_perm.
    + intros Hsorted. apply sort_of_sorted. apply newestFirst_before. exact Hsorted.
  - exists e. split; reflexivity.
Qed.

Lemma caught_in_production {W} (d : Deps W) (e : Thrown) :
  isDevelopment d = false -> caught d e = internalError (logId d).
Proof.
  intros Hprod. unfold caught, sanitizeError, internalError. rewrite Hprod.
  cbn [err_message err_code]. reflexivity.
Qed.

(** X22.  For a tool name that is not a member of [Object.prototype] and a
    caller who has access.  In production, what a tool throws does not reach
    the caller: for every tool other than the three snapshot tools, the
    answer to a call that throws is the same text with the log id, whatever
    was thrown.  What the snapshot manager throws does, whatever [NODE_ENV]
    is: [list_snapshots] answers with the message of what [list] threw after
    a fixed text, [restore_snapshot] with the message of what [get] or
    [restore] threw, or with the errors that [restore] reports; the message
    of a thrown [Error] is its own, that of any other value is
    [Unknown error]. *)
Theorem errors_that_reach_the_caller {W} (d : Deps W) (authResult : AuthResult)
        (name : string) (args : option Json) (w w' : W) :
  inherited name = false ->
  hasToolAccess (hasPermissionForTier d) authResult name = true ->
  (isDevelopment d = false -> requiresBackend name = false ->
   forall e, otherTool d name args w = (Throw e, w') ->
             callTool d authResult name args w = (internalError (logId d), w'))
  /\ (tier authResult = TierPro -> name = "snapback.list_snapshots"%string ->
      forall e,
        mgr_list (manager d) w = (Throw e, w') ->
        callTool d authResult name args w
        = (textError ("❌ Failed to list snapshots: " ++ unknownError e), w'))
  /\ (tier authResult = TierPro -> name = "snapback.restore_snapshot"%string ->
      forall snapshotId,
        parseSnapshotId d args = Ok snapshotId ->
        (forall e,
            mgr_get (manager d) snapshotId w = (Throw e, w') ->
            callTool d authResult name args w
            = (textError ("❌ Failed to restore snapshot: " ++ unknownError e), w'))
        /\ (forall snapshot w1 e,
               mgr_get (manager d) snapshotId w = (Ok (Some snapshot), w1) ->
               mgr_restore (manager d) snapshotId None w1 = (Throw e, w') ->
               callTool d authResult name args w
               = (textError ("❌ Failed to restore snapshot: " ++ unknownError e), w'))
        /\ (forall snapshot w1 result,
               mgr_get (manager d) snapshotId w = (Ok (Some snapshot), w1) ->
               mgr_restore (manager d) snapshotId None w1 = (Ok result, w') ->
               success result = false ->
               callTool d authResult name args w
               = (textError
                    ("❌ Failed to restore snapshot: "
                       ++ JS.orString (option_map (JS.join ", ") (errors result))
                            "Restore failed"), w')))
  /\ (forall cls message shown,
         unknownError (ErrorObject cls message) = message
         /\ unknownError (NotAnError shown) = "Unknown error"%string).
Proof.
  intros _ Haccess. unfold callTool. rewrite Haccess. cbn [negb].
  split; [|split; [|split]].
  - intros Hprod Hother e He. unfold requiresBackend in Hother.
    apply Bool.orb_false_iff in Hother. destruct Hother as (Hother & Hrestore).
    apply Bool.orb_false_iff in Hother. destruct Hother as (Hcreate & Hlist).
    rewrite Hcreate, Hlist, Hrestore, He. cbn [orCaught].
    rewrite (caught_in_production d e Hprod). reflexivity.
  - intros Hpro -> e Hlist. rewrite Hpro. cbn [String.eqb Ascii.eqb Bool.eqb isPro negb].
    unfold listSnapshotsTool, listSnapshots. rewrite Hlist. reflexivity.
  - intros Hpro -> snapshotId Hparse. rewrite Hpro.
    cbn [String.eqb Ascii.eqb Bool.eqb isPro negb].
    unfold restoreSnapshotTool, restoreSnapshot. rewrite Hparse.
    split; [|split].
    + intros e Hget. rewrite Hget. reflexivity.
    + intros snapshot w1 e Hget Hrestore. rewrite Hget, Hrestore. reflexivity.
    + intros snapshot w1 result Hget Hrestore Hfailed.
      rewrite Hget, Hrestore, Hfailed. reflexivity.
  - intros cls message shown. split; reflexivity.
Qed.

(** The instance of X22: in production, the path of the store in the
    message of the manager's error is in the answer of [list_snapshots]. *)
Lemma errors_that_reach_the_caller_witness :
  callTool productionDeps (SpecStore.principal TierPro) "snapback.list_snapshots" None tt
  = (textError "❌ Failed to list snapshots: SQLITE_CANTOPEN: /home/u/.snapback/snapshots.db",
     tt).
Proof.
  apply (proj1 (proj2 (errors_that_reach_the_caller productionDeps
                         (SpecStore.principal TierPro) "snapback.list_snapshots" None tt tt
                         eq_refl eq_refl))
           eq_refl eq_refl
           (ErrorObject PlainError "SQLITE_CANTOPEN: /home/u/.snapback/snapshots.db")
           eq_refl).
Defined.

(** The same for [restore_snapshot] when the manager finds the snapshot and
    [restore] throws. *)
Example restore_error_reaches_the_caller :
  let d := {| hasPermissionForTier := hasPermissionForTier productionDeps;
              manager := brokenRestore;
              zodIssues := zodIssues productionDeps;
              isDevelopment := false;
              logId := logId productionDeps;
              createSnapshotTool := createSnapshotTool productionDeps;
              otherTool := otherTool productionDeps |} in
  callTool d (SpecStore.principal TierPro) "snapback.restore_snapshot"
           (Some (JObject [("snapshotId", JString "snap-1")])) tt
  = (textError
       "❌ Failed to restore snapshot: EACCES: permission denied, open '/home/u/app/a.ts'",
     tt).
Proof. reflexivity. Qed.

End HandlerFacts.

(** ** SARIF logs and snapshot hashes *)

Module SarifFacts.
Import Sarif SarifLogs.

Lemma addResult_first_run (log : SarifLog) (f : Finding) (run : Run) (others : list Run) :
  runs log = run :: others ->
  addResult log (rule f) (text f) (uri f) (where_ f)
  = {| sarifVersion := sarifVersion log;
       schema := schema log;
       runs := {| driver := driver run;
                  results := Some (resultsOf run ++ [resultOf f])%list |} :: others |}.
Proof. intros Hruns. unfold addResult. rewrite Hruns. reflexivity. Qed.

Lemma addAll_first_run (findings : list Finding) :
  forall log run others,
    runs log = run :: others ->
    addAll log findings
    = {| sarifVersion := sarifVersion log;
         schema := schema log;
         runs := {| driver := driver run;
                    results :=
                      match findings with
                      | [] => results run
                      | _ => Some (resultsOf run ++ map resultOf findings)%list
                      end |} :: others |}.
Proof.
  induction findings as [|f rest IH]; intros log run others Hruns.
  - cbn. destruct log as [v s rs]. cbn in *. subst rs. destruct run. reflexivity.
  - cbn [addAll fold_left]. fold (addAll (addResult log (rule f) (text f) (uri f) (where_ f)) rest).
    rewrite (addResult_first_run log f run others Hruns).
    erewrite IH; [|cbn [runs]; reflexivity].
    cbn [sarifVersion schema driver results resultsOf].
    destruct rest as [|g rest]; [reflexivity|].
    rewrite <- app_assoc. reflexivity.
Qed.

(** X23.  Results accumulate: after any number of calls of [addResult] on a
    log made by [createSarifLog], the log has its one run with the driver it
    was created with, and the results of that run are the ones added, in the
    order they were added; a result has a location exactly when a non-empty
    uri or a region was given.  On any log, [addResult] adds its result to
    the first run, whose driver it keeps, and leaves the other runs as they
    are; a log without runs gets one run, of the driver [snapback] without
    version and rules, with the result as its only one. *)
Theorem results_accumulate (log : SarifLog) (toolName : string)
        (toolVersion : option string) (findings : list Finding) (f : Finding) :
  runs (addAll (createSarifLog toolName toolVersion) findings)
  = [ {| driver := {| name := toolName; version := toolVersion; rules := [] |};
         results := Some (map resultOf findings) |} ]
  /\ runs (addResult log (rule f) (text f) (uri f) (where_ f))
     = match runs log with
       | [] =>
           [ {| driver := {| name := "snapback"; version := None; rules := [] |};
                results := Some [resultOf f] |} ]
       | run :: others =>
           {| driver := driver run;
              results := Some (resultsOf run ++ [resultOf f])%list |} :: others
       end
  /\ allResults (addResult log (rule f) (text f) (uri f) (where_ f))
     = match runs log with
       | [] => [resultOf f]
       | run :: others => (resultsOf run ++ [resultOf f] ++ flat_map resultsOf others)%list
       end
  /\ tl (runs (addResult log (rule f) (text f) (uri f) (where_ f))) = tl (runs log)
  /\ (locations (resultOf f) = None
      <-> truthy (uri f) = false /\ where_ f = None).
Proof.
  split; [|split; [|split; [|split]]].
  - erewrite addAll_first_run; [|cbn [runs createSarifLog]; reflexivity].
    cbn [runs driver results resultsOf]. destruct findings; reflexivity.
  - destruct (runs log) as [|run others] eqn:Hruns.
    + unfold addResult. rewrite Hruns. reflexivity.
    + rewrite (addResult_first_run log f run others Hruns). reflexivity.
  - unfold allResults. destruct (runs log) as [|run others] eqn:Hruns.
    + unfold addResult. rewrite Hruns. reflexivity.
    + rewrite (addResult_first_run log f run others Hruns). cbn [runs flat_map resultsOf results].
      rewrite <- app_assoc. reflexivity.
  - destruct (runs log) as [|run others] eqn:Hruns.
    + unfold addResult. rewrite Hruns. reflexivity.
    + rewrite (addResult_first_run log f run others Hruns). reflexivity.
  - unfold resultOf. cbn [locations].
    destruct (truthy (uri f)), (where_ f); cbn; split; intros H;
      try discriminate H; try (destruct H; discriminate); auto.
Qed.

End SarifFacts.

Module HashOrderFacts.
Import Hash.

Local Open Scope Z_scope.

Lemma same_path_same_file (files : list FileEntry) (a b : FileEntry) :
  NoDup (map path files) -> In a files -> In b files -> path a = path b -> a = b.
Proof.
  induction files as [|f files IH]; intros Hnodup Ha Hb Hpath; [destruct Ha|].
  cbn [map] in Hnodup. inversion Hnodup as [|? ? Hnotin Hrest]; subst.
  destruct Ha as [<- | Ha], Hb as [<- | Hb].
  - reflexivity.
  - exfalso. apply Hnotin. rewrite Hpath. apply in_map. exact Hb.
  - exfalso. apply Hnotin. rewrite <- Hpath. apply in_map. exact Ha.
  - apply IH; assumption.
Qed.

(** X24.  When no two files have the same path and the collation orders the
    paths at hand (any two compare, the comparison is transitive, and only
    equal paths compare as equal), the snapshot hash does not depend on the
    order of the files. *)
Theorem snapshot_hash_of_distinct_paths
        (localeCompare : string -> string -> Z) (files files' : list FileEntry) :
  let paths := map path files in
  (forall p q, In p paths -> In q paths -> localeCompare p q <= 0 \/ localeCompare q p <= 0) ->
  (forall p q r, In p paths -> In q paths -> In r paths ->
                 localeCompare p q <= 0 -> localeCompare q r <= 0 -> localeCompare p r <= 0) ->
  (forall p q, In p paths -> In q paths ->
               localeCompare p q <= 0 -> localeCompare q p <= 0 -> p = q) ->
  NoDup paths ->
  Permutation files files' ->
  generateSnapshotHash localeCompare files' = generateSnapshotHash localeCompare files.
Proof.
  intros paths Htotal Htrans Hsep Hnodup Hperm.
  assert (Hin : forall a, In a files -> In (path a) paths).
  { intros a Ha. apply in_map. exact Ha. }
  apply HashFacts.generateSnapshotHash_permutation; unfold before, byPath.
  - intros a b Ha Hb. apply Htotal; auto.
  - intros a b c Ha Hb Hc. apply Htrans; auto.
  - intros a b Ha Hb Hab Hba.
    apply (same_path_same_file files a b Hnodup Ha Hb). apply Hsep; auto.
  - exact Hperm.
Qed.

(** The instance of X24 for the paths [a] and [B] under the root collation. *)
Lemma snapshot_hash_of_distinct_paths_witness :
  generateSnapshotHash rootCollation [fileB; fileA]
  = generateSnapshotHash rootCollation [fileA; fileB].
Proof.
  apply (snapshot_hash_of_distinct_paths rootCollation [fileA; fileB] [fileB; fileA]).
  - intros p q [<- | [<- | []]] [<- | [<- | []]]; vm_compute;
      solve [left; discriminate | right; discriminate].
  - intros p q r [<- | [<- | []]] [<- | [<- | []]] [<- | [<- | []]]; vm_compute; auto.
  - intros p q [<- | [<- | []]] [<- | [<- | []]]; vm_compute; intros H1 H2;
      solve [reflexivity | exfalso; apply H1; reflexivity | exfalso; apply H2; reflexivity].
  - repeat constructor; cbn; intuition discriminate.
  - apply perm_swap.
Defined.

End HashOrderFacts.

(** ** The analysis plugins *)

Module PluginFacts.
Import Plugin.

Local Open Scope Z_scope.

Lemma filterFrom_In {A} (keep : Z -> bool) (l : list A) :
  forall index x,
    In x (filterFrom keep index l)
    <-> exists k, nth_error l k = Some x /\ keep (index + Z.of_nat k) = true.
Proof.
  induction l as [|y l IH]; intros index x; cbn [filterFrom].
  - split; [intros [] | intros ([|k] & Hk & _); discriminate Hk].
  - split.
    + intros Hin.
      assert (Hcases : (y = x /\ keep index = true) \/ In x (filterFrom keep (index + 1) l)).
      { destruct (keep index); [destruct Hin as [-> | Hin]; auto | auto]. }
      destruct Hcases as [(-> & Hkeep) | Hrest].
      * exists 0%nat. split; [reflexivity|]. rewrite Z.add_0_r. exact Hkeep.
      * apply IH in Hrest. destruct Hrest as (k & Hk & Hkeep).
        exists (S k). split; [exact Hk|].
        replace (index + Z.of_nat (S k)) with (index + 1 + Z.of_nat k) by lia. exact Hkeep.
    + intros ([|k] & Hk & Hkeep).
      * cbn in Hk. injection Hk as ->. rewrite Z.add_0_r in Hkeep. rewrite Hkeep.
        left. reflexivity.
      * cbn [nth_error] in Hk.
        assert (Hrest : In x (filterFrom keep (index + 1) l)).
        { apply IH. exists k. split; [exact Hk|].
          replace (index + 1 + Z.of_nat k) with (index + Z.of_nat (S k)) by lia.
          exact Hkeep. }
        destruct (keep index); [right|]; exact Hrest.
Qed.

(** The lines to analyze are the lines of the content whose number, counted
    from 1, is among the changed lines, or all of them. *)
Lemma getLinesToAnalyze_In (content : string) (changedLines : option (list Z))
      (line : string) :
  In line (getLinesToAnalyze content changedLines)
  <-> exists k, nth_error (JS.split "010"%char content) k = Some line
                /\ selected changedLines (Z.of_nat k + 1) = true.
Proof.
  unfold getLinesToAnalyze, selected. destruct changedLines as [numbers|].
  - rewrite filterFrom_In. split; intros (k & Hk & Hkeep); exists k; (split; [exact Hk|]).
    + rewrite Z.add_0_l in Hkeep. exact Hkeep.
    + rewrite Z.add_0_l. exact Hkeep.
  - split.
    + intros Hin. apply In_nth_error in Hin. destruct Hin as (k & Hk). exists k. auto.
    + intros (k & Hk & _). apply nth_error_In in Hk. exact Hk.
Qed.

Lemma app_nil_iff {A} (l l' : list A) : (l ++ l')%list = [] <-> l = [] /\ l' = [].
Proof.
  split; [apply app_eq_nil|]. intros (-> & ->). reflexivity.
Qed.

Lemma flat_map_nil {A B} (f : A -> list B) (l : list A) :
  flat_map f l = [] <-> forall x, In x l -> f x = [].
Proof.
  induction l as [|a l IH]; cbn [flat_map].
  - split; [intros _ x [] | reflexivity].
  - split.
    + intros H x [<- | Hx]; apply app_eq_nil in H; destruct H as (Ha & Hl);
        [exact Ha | apply IH; assumption].
    + intros H. rewrite (H a (or_introl eq_refl)).
      apply IH. intros x Hx. apply H. right. exact Hx.
Qed.

End PluginFacts.

Module DangerousApiFacts.
Import Plugin DangerousApi.

Local Open Scope Z_scope.

Lemma whitespace_is_no_word (c : ascii) :
  JS.isWhiteSpace c = true -> isWordChar c = false.
Proof.
  destruct c as [b0 b1 b2 b3 b4 b5 b6 b7].
  destruct b0, b1, b2, b3, b4, b5, b6, b7; vm_compute; congruence.
Qed.

Lemma stripPrefix_Some (p : string) :
  forall s rest, stripPrefix p s = Some rest -> s = (p ++ rest)%string.
Proof.
  induction p as [|a p IH]; intros s rest H; cbn in *.
  - congruence.
  - destruct s as [|b s]; [discriminate H|].
    destruct (Ascii.eqb a b) eqn:Hab; [|discriminate H].
    apply Ascii.eqb_eq in Hab. subst b. rewrite (IH s rest H). reflexivity.
Qed.

Lemma stripPrefix_app (p rest : string) : stripPrefix p (p ++ rest) = Some rest.
Proof.
  induction p as [|a p IH]; cbn; [reflexivity|]. rewrite Ascii.eqb_refl. exact IH.
Qed.

Lemma search_past (here : string -> bool) (passed : string) :
  forall afterWord s,
    searchFrom here (flagAfter afterWord passed) s = true ->
    searchFrom here afterWord (passed ++ s) = true.
Proof.
  induction passed as [|c passed IH]; intros afterWord s H; cbn [String.append flagAfter] in *.
  - exact H.
  - cbn [searchFrom]. rewrite (IH _ _ H). apply Bool.orb_true_r.
Qed.

Lemma search_here (here : string -> bool) (s : string) :
  here s = true -> searchFrom here false s = true.
Proof. intros H. destruct s; cbn [searchFrom negb andb]; rewrite H; reflexivity. Qed.

Lemma search_after_spaces (here : string -> bool) (s : string) :
  here (JS.trimStart s) = true -> searchFrom here false s = true.
Proof.
  induction s as [|c s IH]; intros H.
  - apply search_here. exact H.
  - cbn [JS.trimStart] in H. destruct (JS.isWhiteSpace c) eqn:Hc.
    + cbn [searchFrom]. rewrite (whitespace_is_no_word c Hc), (IH H).
      apply Bool.orb_true_r.
    + apply search_here. exact H.
Qed.

(** A pattern that matches only where another one matches further on, at a
    place that is not after a word character, matches only in lines in
    which the other one matches. *)
Lemma search_implies (here1 here2 : string -> bool) :
  (forall t, here1 t = true -> searchFrom here2 false t = true) ->
  forall s afterWord,
    searchFrom here1 afterWord s = true -> searchFrom here2 afterWord s = true.
Proof.
  intros Hat. induction s as [|c s IH]; intros afterWord H.
  - cbn [searchFrom] in H. rewrite Bool.orb_false_r in H.
    apply andb_prop in H. destruct H as (Haw & H).
    apply Bool.negb_true_iff in Haw. subst afterWord. apply Hat. exact H.
  - cbn [searchFrom] in H. apply Bool.orb_true_iff in H. destruct H as [H | H].
    + apply andb_prop in H. destruct H as (Haw & H).
      apply Bool.negb_true_iff in Haw. subst afterWord. apply Hat. exact H.
    + cbn [searchFrom]. rewrite (IH _ H). apply Bool.orb_true_r.
Qed.

(** [\bnew\s+Function\s*\(] matches only where [\bFunction\s*\(] does. *)
Lemma callsNewFunction_calls_Function (line : string) :
  callsNewFunction line = true -> calls "Function" line = true.
Proof.
  unfold callsNewFunction, calls. apply search_implies. intros t Hnew.
  unfold newFunctionHere in Hnew.
  destruct (stripPrefix "new" t) as [[|c rest]|] eqn:Hstrip; try discriminate Hnew.
  apply andb_prop in Hnew. destruct Hnew as (Hc & Hcall).
  rewrite (stripPrefix_Some _ _ _ Hstrip).
  apply (search_past _ "new" false (String c rest)).
  cbn [flagAfter]. cbn [searchFrom].
  rewrite (whitespace_is_no_word c Hc), (search_after_spaces _ rest Hcall).
  apply Bool.orb_true_r.
Qed.

(** [\bchild_process\.exec\s*\(] matches only where [\bexec\s*\(] does. *)
Lemma calls_child_process_exec (line : string) :
  calls "child_process.exec" line = true -> calls "exec" line = true.
Proof.
  unfold calls. apply search_implies. intros t Hcall.
  unfold callHere in Hcall.
  destruct (stripPrefix "child_process.exec" t) as [rest|] eqn:Hstrip; [|discriminate Hcall].
  rewrite (stripPrefix_Some _ _ _ Hstrip).
  change ("child_process.exec" ++ rest)%string
    with ("child_process." ++ ("exec" ++ rest))%string.
  apply search_past. apply search_here.
  unfold callHere. rewrite stripPrefix_app. exact Hcall.
Qed.

Lemma when_nil (b : bool) (finding : string) : when b finding = [] <-> b = false.
Proof. destruct b; cbn; split; congruence. Qed.

Lemma detectInLine_nil (line : string) :
  (if isComment line then [] else detectInLine line) = [] <-> dangerous line = false.
Proof.
  unfold dangerous. destruct (isComment line); cbn [negb andb]; [tauto|].
  unfold detectInLine. rewrite !PluginFacts.app_nil_iff, !when_nil.
  pose proof (callsNewFunction_calls_Function line) as Hnew.
  pose proof (calls_child_process_exec line) as Hexec.
  destruct (calls "eval" line), (calls "Function" line), (calls "exec" line),
    (calls "child_process.execSync" line), (calls "child_process.spawn" line),
    (calls "vm.runInThisContext" line), (calls "vm.runInNewContext" line),
    (callsNewFunction line), (calls "child_process.exec" line);
    cbn; intuition congruence.
Qed.

Lemma lineNumbered_nth (content : string) (line : string) (changedLines : option (list Z)) :
  (exists k, nth_error (JS.split "010"%char content) k = Some line
             /\ selected changedLines (Z.of_nat k + 1) = true)
  <-> exists n, lineNumbered content n = Some line /\ selected changedLines n = true.
Proof.
  unfold lineNumbered. split.
  - intros (k & Hk & Hsel). exists (Z.of_nat k + 1). split; [|exact Hsel].
    assert (H : (Z.of_nat k + 1 <? 1) = false) by (apply Z.ltb_ge; lia).
    rewrite H. replace (Z.to_nat (Z.of_nat k + 1 - 1)) with k by lia. exact Hk.
  - intros (n & Hn & Hsel). destruct (n <? 1) eqn:Hlow; [discriminate Hn|].
    apply Z.ltb_ge in Hlow. exists (Z.to_nat (n - 1)). split; [exact Hn|].
    replace (Z.of_nat (Z.to_nat (n - 1)) + 1) with n by lia. exact Hsel.
Qed.

(** X25.  The verdict of the dangerous-API plugin: the score is 0.8 with
    severity high and two recommendations when some line that is to be
    analyzed (its number is among the changed lines, or no changed lines
    are given) is not a comment and has a call of [eval], [Function],
    [exec], [child_process.execSync], [child_process.spawn],
    [vm.runInThisContext] or [vm.runInNewContext] in it; otherwise the score
    is 0 with severity low and nothing else.  The score is never 0.5 and the
    severity never medium. *)
Theorem dangerous_api_verdict (content : string) (changedLines : option (list Z)) :
  let found := analyze content changedLines in
  ((exists n line, lineNumbered content n = Some line
                   /\ selected changedLines n = true
                   /\ dangerous line = true)
   -> score found = (8 # 10)%Q
      /\ severity found = Some High
      /\ factors found <> []
      /\ List.length (recommendations found) = 2%nat)
  /\ ((forall n line, lineNumbered content n = Some line ->
                      selected changedLines n = true -> dangerous line = false)
      -> found = {| score := 0%Q; factors := []; recommendations := [];
                    severity := Some Low |}).
Proof.
  intros found. subst found. unfold analyze.
  set (findings := detectDangerousAPIs (getLinesToAnalyze content changedLines)).
  assert (Hnone : findings = []
                  <-> forall n line, lineNumbered content n = Some line ->
                                     selected changedLines n = true ->
                                     dangerous line = false).
  { subst findings. unfold detectDangerousAPIs. rewrite PluginFacts.flat_map_nil. split.
    - intros H n line Hn Hsel. apply detectInLine_nil. apply H.
      apply PluginFacts.getLinesToAnalyze_In. apply lineNumbered_nth. exists n. auto.
    - intros H line Hin. apply detectInLine_nil.
      apply PluginFacts.getLinesToAnalyze_In in Hin. apply lineNumbered_nth in Hin.
      destruct Hin as (n & Hn & Hsel). exact (H n line Hn Hsel). }
  split.
  - intros (n & line & Hn & Hsel & Hdanger).
    destruct findings as [|f rest] eqn:Hfindings.
    + rewrite (proj1 Hnone eq_refl n line Hn Hsel) in Hdanger. discriminate Hdanger.
    + cbn. repeat split. discriminate.
  - intros Hclean. rewrite (proj2 Hnone Hclean). reflexivity.
Qed.

(** The instance of X25: the second line is changed and calls [exec] on a
    regular expression. *)
Lemma dangerous_api_verdict_witness :
  score (analyze ("const re = /a/;" ++ Diff.newline ++ "re.exec(s);") (Some [2]))
  = (8 # 10)%Q.
Proof.
  apply (proj1 (dangerous_api_verdict
                  ("const re = /a/;" ++ Diff.newline ++ "re.exec(s);") (Some [2]))).
  exists 2, "re.exec(s);"%string. repeat split.
Defined.

(** A line that starts with a star is taken for a comment; a call written
    after a comment sign further on in a line is found; with an empty list
    of changed lines nothing is looked at. *)
Example dangerous_api_examples :
  dangerous "* eval(x)" = false
  /\ dangerous "f(); // eval (x)" = true
  /\ dangerous "medieval(x)" = false
  /\ factors (analyze "eval(x)" (Some [])) = []
  /\ factors (analyze "eval(x)" None) = ["Dangerous API detected: eval() usage detected"]%string.
Proof. vm_compute. repeat split. Qed.

End DangerousApiFacts.

Module EnvHygieneFacts.
Import Plugin EnvHygiene.

(** The first key pattern has one group, so the value read from its second
    group is empty and nothing is pushed for it. *)
Lemma pushed_named (group : option string) :
  pushed (option_map (fun g => [g]) group) = [].
Proof. destruct group as [g|]; reflexivity. Qed.

Lemma detectKeyLikeEntries_upper (p : Patterns) (lines : list string) :
  detectKeyLikeEntries p lines = upperEntries p lines.
Proof.
  unfold detectKeyLikeEntries, upperEntries.
  induction lines as [|line lines IH]; [reflexivity|].
  cbn [flat_map]. rewrite IH, pushed_named. reflexivity.
Qed.

Lemma endsWith_last (s suffix : string) (c : ascii) (rest : string) :
  JS.rev_string suffix = String c rest ->
  endsWith s suffix = true ->
  exists front, JS.rev_string s = String c front.
Proof.
  unfold endsWith. intros ->. destruct (JS.rev_string s) as [|e front]; cbn; [discriminate|].
  destruct (Ascii.ascii_dec c e) as [<- | Hne]; [|discriminate].
  intros _. exists front. reflexivity.
Qed.

Lemma env_file_is_no_example (filePath : option string) :
  isEnvFile filePath = true -> isEnvExample filePath = false.
Proof.
  unfold isEnvFile, isEnvExample. destruct filePath as [[|c rest]|]; try discriminate.
  intros Henv.
  destruct (endsWith (String c rest) ".env.example") eqn:Hexample.
  - apply (endsWith_last _ _ "e"%char "lpmaxe.vne.") in Hexample; [|reflexivity].
    destruct Hexample as (front & Hrev).
    unfold endsWith in Henv. rewrite Hrev in Henv. vm_compute in Henv. discriminate Henv.
  - destruct (endsWith (String c rest) ".env.sample") eqn:Hsample; [|reflexivity].
    apply (endsWith_last _ _ "e"%char "lpmas.vne.") in Hsample; [|reflexivity].
    destruct Hsample as (front & Hrev).
    unfold endsWith in Henv. rewrite Hrev in Henv. vm_compute in Henv. discriminate Henv.
Qed.

(** X26.  The verdict of the env-hygiene plugin.  Only files whose path ends
    in [.env], [.env.local], [.env.development] or [.env.production] are
    looked at; for every other path the result is a score of 0 and nothing
    else.  What the first key pattern matches has no effect on the result:
    the key-like entries are the ones of the second pattern.  For a file
    that is looked at, the score is 0.8 with severity high when there is a
    key-like entry, 0.5 with severity medium when there is none but an
    insecure setting, and 0 with severity low otherwise; it is never 0.3. *)
Theorem env_hygiene_verdict (p : Patterns) (content : string) (filePath : option string)
        (changedLines : option (list Z)) :
  let found := analyze p content filePath changedLines in
  let lines := getLinesToAnalyze content changedLines in
  (forall named, analyze (withKeyLikeNamed named p) content filePath changedLines = found)
  /\ (isEnvFile filePath = false -> found = nothing)
  /\ (isEnvFile filePath = true ->
      (upperEntries p lines <> [] ->
       score found = (8 # 10)%Q /\ severity found = Some High)
      /\ (upperEntries p lines = [] -> detectInsecureConfigurations p lines <> [] ->
          score found = (5 # 10)%Q /\ severity found = Some Medium)
      /\ (upperEntries p lines = [] -> detectInsecureConfigurations p lines = [] ->
          found = {| score := 0%Q; factors := []; recommendations := [];
                     severity := Some Low |})).
Proof.
  intros found lines. subst found lines. split; [|split].
  - intros named. unfold analyze. rewrite !detectKeyLikeEntries_upper. reflexivity.
  - intros Hno. unfold analyze. rewrite Hno. destruct (isEnvExample filePath); reflexivity.
  - intros Henv. unfold analyze.
    rewrite (env_file_is_no_example filePath Henv), Henv. cbn [negb].
    rewrite detectKeyLikeEntries_upper.
    set (lines := getLinesToAnalyze content changedLines).
    destruct (upperEntries p lines) as [|e es];
      destruct (detectInsecureConfigurations p lines) as [|c cs];
      cbn; (split; [|split]); intros; try congruence; try (split; reflexivity);
      reflexivity.
Qed.

(** The instance of X26: a lower-case key matches the first pattern only
    and is not reported. *)
Lemma env_hygiene_verdict_witness :
  keyLikeNamed samplePatterns "api_key=sk_live_51H8" = Some "sk_live_51H8"%string
  /\ analyze samplePatterns "api_key=sk_live_51H8" (Some ".env"%string) None
     = {| score := 0%Q; factors := []; recommendations := []; severity := Some Low |}.
Proof.
  split; [reflexivity|].
  apply (proj2 (proj2 (env_hygiene_verdict samplePatterns "api_key=sk_live_51H8"
                         (Some ".env"%string) None))); reflexivity.
Defined.

(** The same key in capitals is reported; a template is not looked at. *)
Example env_hygiene_examples :
  factors (analyze samplePatterns "API_KEY=sk_live_51H8" (Some ".env"%string) None)
  = ["Key-like entry detected: API_KEY"]%string
  /\ analyze samplePatterns "API_KEY=sk_live_51H8" (Some ".env.example"%string) None
     = nothing
  /\ score (analyze samplePatterns "LOG_LEVEL=debug" (Some "a/.env.local"%string) None)
     = (5 # 10)%Q.
Proof. vm_compute. repeat split. Qed.

End EnvHygieneFacts.

Module DepsHygieneFacts.
Import Plugin DepsHygiene.

Lemma rating_of_vector (vector : string) :
  rating (baseScoreOf vector)
  = if JS.includes vector "/AC:L/" || JS.includes vector "/AC:H/" then "HIGH" else "MEDIUM".
Proof.
  unfold baseScoreOf.
  destruct (JS.includes vector "/AC:L/"); [reflexivity|].
  destruct (JS.includes vector "/AC:H/"); reflexivity.
Qed.

Lemma getVulnSeverity_two (vuln : Vulnerability) :
  getVulnSeverity vuln = "HIGH"%string \/ getVulnSeverity vuln = "MEDIUM"%string.
Proof.
  unfold getVulnSeverity. destruct (vulnSeverity vuln) as [entries|]; [|auto].
  induction entries as [|entry rest IH]; cbn [firstCvss]; [auto|].
  destruct (sev_type entry =? "CVSS_V3"); [|exact IH].
  rewrite rating_of_vector.
  destruct (JS.includes (sev_score entry) "/AC:L/" || JS.includes (sev_score entry) "/AC:H/");
    auto.
Qed.

Lemma findVulnerabilities_two (osvData : OsvData) (pkgName version : string) (f : Found) :
  In f (findVulnerabilities osvData pkgName version) ->
  severityOf (foundSeverity f) = High \/ severityOf (foundSeverity f) = Medium.
Proof.
  unfold findVulnerabilities. destruct (vulnerabilities osvData) as [vulns|]; [|intros []].
  intros Hin. apply in_flat_map in Hin. destruct Hin as (vuln & _ & Hin).
  destruct (affected vuln) as [places|]; [|destruct Hin].
  apply in_map_iff in Hin. destruct Hin as (a & <- & _). cbn [foundSeverity].
  destruct (getVulnSeverity_two vuln) as [-> | ->]; [left | right]; reflexivity.
Qed.

Lemma record_kept (pkgName version : string) (st : list string * Severity) (f : Found) :
  kept st ->
  severityOf (foundSeverity f) = High \/ severityOf (foundSeverity f) = Medium ->
  kept (record pkgName version st f).
Proof.
  destruct st as [factors maxSeverity]. unfold kept, record. cbn [fst snd].
  intros Hkept Hsev. right. split; [destruct factors; discriminate|].
  destruct Hkept as [(_ & ->) | (_ & [-> | ->])], Hsev as [-> | ->]; cbn; auto.
Qed.

Lemma scan_kept (osvData : OsvData) (st : list string * Severity)
      (dependency : string * Tools.Json) :
  kept st -> kept (scan osvData st dependency).
Proof.
  destruct dependency as [pkgName version]. unfold scan.
  destruct version as [ |b|n|version|items|fields]; try (intros H; exact H).
  pose proof (findVulnerabilities_two osvData pkgName version) as Htwo.
  revert st. induction (findVulnerabilities osvData pkgName version) as [|f rest IH];
    intros st Hkept; cbn [fold_left]; [exact Hkept|].
  apply IH.
  - intros g Hg. apply Htwo. right. exact Hg.
  - apply record_kept; [exact Hkept | apply Htwo; left; reflexivity].
Qed.

Lemma scan_all_kept (osvData : OsvData) (dependencies : list (string * Tools.Json)) :
  forall st, kept st -> kept (fold_left (scan osvData) dependencies st).
Proof.
  induction dependencies as [|d rest IH]; intros st Hkept; cbn [fold_left]; [exact Hkept|].
  apply IH. apply scan_kept. exact Hkept.
Qed.

(** X27.  The verdict of the dependency plugin.  [getVulnSeverity] rates a
    vulnerability HIGH or MEDIUM and nothing else (HIGH when its first
    CVSS_V3 vector has [/AC:L/] or [/AC:H/] in it), so the plugin comes to
    one of four verdicts: a score of 0 without severity (the file is no
    [package.json], the content does not parse, or there is no OSV data), 0
    with severity low (no vulnerable dependency), 0.5 with medium, 0.8 with
    high; never critical, never 0.95 or 0.3.  It throws only when the
    content parses to [null].  And with nothing cached, there is no OSV data
    unless [SNAPBACK_NO_NETWORK] is [true]: the plugin reports nothing. *)
Theorem deps_hygiene_verdict (h : Host) (cached : option OsvData)
        (parsed : Exn (option (list (string * Tools.Json)))) (filePath : option string) :
  match fst (analyze h cached parsed filePath) with
  | Ok found =>
      In (score found, severity found) verdicts
      /\ (factors found = [] <-> score found = 0%Q)
  | Throw _ => parsed = Ok None
  end
  /\ (cached = None -> SNAPBACK_NO_NETWORK h <> Some "true"%string ->
      analyze h cached parsed filePath = (Ok nothing, None))
  /\ (forall vuln, getVulnSeverity vuln = "HIGH"%string
                   \/ getVulnSeverity vuln = "MEDIUM"%string).
Proof.
  assert (Hnothing : In (score nothing, severity nothing) verdicts
                     /\ (factors nothing = [] <-> score nothing = 0%Q)).
  { split; [left; reflexivity | split; reflexivity]. }
  split; [|split].
  - unfold analyze. destruct filePath as [[|c rest]|]; try exact Hnothing.
    destruct (negb (endsWith (String c rest) "package.json")); [exact Hnothing|].
    destruct parsed as [pkg|e]; [|exact Hnothing].
    destruct (loadOsvData h cached) as [[osvData|] cached']; [|exact Hnothing].
    destruct pkg as [dependencies|]; [|reflexivity].
    pose proof (scan_all_kept osvData dependencies ([], Low)
                  (or_introl (conj eq_refl eq_refl))) as Hkept.
    destruct (fold_left (scan osvData) dependencies ([], Low)) as [made highest].
    unfold kept in Hkept. cbn [fst snd] in *.
    destruct Hkept as [(-> & ->) | (Hsome & [-> | ->])].
    + cbn. split; [auto | split; reflexivity].
    + destruct made as [|f fs]; [congruence|]. cbn.
      split; [auto | split; discriminate].
    + destruct made as [|f fs]; [congruence|]. cbn.
      split; [auto 6 | split; discriminate].
  - intros -> Hnet. unfold analyze, loadOsvData.
    destruct filePath as [[|c rest]|]; try reflexivity.
    destruct (negb (endsWith (String c rest) "package.json")); [reflexivity|].
    destruct parsed as [pkg|e]; [|reflexivity].
    destruct (SNAPBACK_NO_NETWORK h) as [mode|]; [|reflexivity].
    destruct (String.eqb_spec mode "true") as [-> | Hne]; [congruence|].
    assert (Hmode : match mode with
                    | "true"%string =>
                        match fixture h with
                        | Parsed data => (data, data)
                        | _ => (None, None)
                        end
                    | _ => (@None OsvData, @None OsvData)
                    end = (None, None)).
    { clear -Hne.
      repeat (match goal with
              | |- context [match ?s with EmptyString => _ | String _ _ => _ end] =>
                  destruct s as [|? ?]; try reflexivity
              | |- context [match ?a with Ascii _ _ _ _ _ _ _ _ => _ end] =>
                  destruct a as [[] [] [] [] [] [] [] []]; try reflexivity
              end).
      congruence. }
    rewrite Hmode. reflexivity.
  - apply getVulnSeverity_two.
Qed.

(** The instance of X27: in network mode nothing is reported. *)
Lemma deps_hygiene_verdict_witness :
  analyze {| SNAPBACK_NO_NETWORK := None; fixture := Parsed (Some advisory) |} None
          (Ok (Some [("lodash"%string, Tools.JString "4.17.20")]))
          (Some "package.json"%string)
  = (Ok nothing, None).
Proof.
  apply (proj1 (proj2 (deps_hygiene_verdict
                         {| SNAPBACK_NO_NETWORK := None; fixture := Parsed (Some advisory) |}
                         None (Ok (Some [("lodash"%string, Tools.JString "4.17.20")]))
                         (Some "package.json"%string)))).
  - reflexivity.
  - discriminate.
Defined.

(** An advisory whose vector rates 10.0 is reported as high, at 0.8; a
    version range does not match the version listed. *)
Example deps_hygiene_examples :
  fst (analyze offline None (Ok (Some [("lodash"%string, Tools.JString "4.17.20")]))
               (Some "a/package.json"%string))
  = Ok {| score := (8 # 10)%Q;
          factors := ["Vulnerable dependency: lodash@4.17.20 (GHSA-0000)"]%string;
          recommendations := ["Update vulnerable dependencies to patched versions";
                              "Run 'npm audit' for detailed vulnerability information"]%string;
          severity := Some High |}
  /\ fst (analyze offline None (Ok (Some [("lodash"%string, Tools.JString "^4.17.20")]))
                  (Some "a/package.json"%string))
     = Ok {| score := 0%Q; factors := []; recommendations := []; severity := Some Low |}.
Proof. vm_compute. split; reflexivity. Qed.

End DepsHygieneFacts.
